(** * FIFO capital-gains matching: a model of [src/data_processor.py]

    The development embeds [DataProcessor] (financial-year derivation,
    FIFO lot matching, per-parcel CGT classification and the per-year
    summary) as Rocq functions and proves the properties the design
    document states about them.  It then covers the display helpers and
    the two frames of [DataProcessor], and the column checks and the side
    standardisation of [FileManager] ([src/file_manager.py]).

    Modelling conventions.
    - A data frame is the list of its rows; a row is the record [Trade].
    - Numeric cells are exact rationals ([Q], compared with [==]); the
      rounding of binary floating point is outside the model.  Where a
      statement would depend on it, it is made for whole numbers of units
      ([whole]), on which binary64 is exact, and the accumulation of the
      summary is given for any arithmetic ([Arith]), binary64 included.
    - [sort_values] keeps rows of equal date in frame order, which
      [DataFrame.sort_values] need not do; statements on a batch that
      could depend on that order are made for every sorting by date
      ([sorts_by_date]).
    - A Python [dict] keyed by strings is a [gmap string _]; a [list]
      mutated in place through an alias is written back to the dict
      explicitly at the point the alias dies.
    - Exceptions are the [Raise] outcome of the [result] monad.
    - [logger.warning] calls are collected as a list of [Warning];
      [logger.debug] calls and the string formatting of dates, holding
      periods and currency amounts are display concerns and are left out
      of the matching, so a [SaleResult] carries the raw value where the
      source stores its rendering; the renderings are modelled on their
      own and applied in [detail_row].
    - An uploaded file is seen through its header and its number of rows
      ([CsvFrame]); parsing the cells of a CSV file is outside the model. *)

From Stdlib Require Import QArith Qabs Qround Lqa ZArith Ascii String DecimalString.
From Stdlib Require Import Sorting.Sorted Permutation.
From Stdlib Require DecimalPos DecimalZ.
From Stdlib Require PrimFloat FloatOps SpecFloat Uint63.
From stdpp Require Import gmap strings list fin_maps.
From Equations Require Import Equations.

(* ===================================================================== *)
(** ** Python primitives *)
(* ===================================================================== *)

Inductive exn : Type :=
  | ZeroDivisionError.

Inductive result (A : Type) : Type :=
  | Ok (a : A)
  | Raise (e : exn).
Arguments Ok {A} a.
Arguments Raise {A} e.

#[global] Instance result_ret : MRet result := fun A a => Ok a.
#[global] Instance result_bind : MBind result := fun A B f m =>
  match m with
  | Ok a => f a
  | Raise e => Raise e
  end.

(** [for x in xs: acc = step(acc, x)] where [step] may raise. *)
Fixpoint foldM {A B : Type} (step : B -> A -> result B) (xs : list A) (acc : B)
  : result B :=
  match xs with
  | [] => Ok acc
  | x :: xs' => acc' ← step acc x; foldM step xs' acc'
  end.

(** [a < b] on numbers. *)
Definition Qltb (a b : Q) : bool := negb (Qle_bool b a).

(** [min(a, b)]: the first argument unless the second is strictly smaller. *)
Definition py_min (a b : Q) : Q := if Qltb b a then b else a.

(** [a / b], raising on a zero divisor. *)
Definition truediv (a b : Q) : result Q :=
  if Qeq_bool b 0 then Raise ZeroDivisionError else Ok (a / b)%Q.

(** [sum(xs)]: left to right, starting from 0. *)
Definition py_sum (xs : list Q) : Q := fold_left Qplus xs 0%Q.

(** [str(n)] for an integer. *)
Definition str (n : Z) : string := NilZero.string_of_int (Z.to_int n).

Definition inspect {A : Type} (a : A) : {b : A | a = b} := exist _ a eq_refl.

(* ===================================================================== *)
(** ** Calendar dates *)
(* ===================================================================== *)

(** The [Trade Date] cell: a calendar date.  Ordering and differences go
    through the proleptic Gregorian day number, as [datetime] computes it. *)
Record date : Type := mkDate { year : Z; month : Z; day : Z }.

Definition is_leap (y : Z) : bool :=
  ((y mod 4 =? 0) && (negb (y mod 100 =? 0) || (y mod 400 =? 0)))%Z.

Definition days_before_year (y : Z) : Z :=
  let y1 := (y - 1)%Z in
  (y1 * 365 + y1 / 4 - y1 / 100 + y1 / 400)%Z.

Definition days_before_month_table : list Z :=
  [0; 31; 59; 90; 120; 151; 181; 212; 243; 273; 304; 334]%Z.

Definition days_before_month (y m : Z) : Z :=
  (nth (Z.to_nat (m - 1)) days_before_month_table 0
   + (if (2 <? m) && is_leap y then 1 else 0))%Z.

Definition toordinal (d : date) : Z :=
  (days_before_year (year d) + days_before_month (year d) (month d) + day d)%Z.

(** [(a - b).days] *)
Definition days_between (a b : date) : Z := (toordinal a - toordinal b)%Z.

(** [a <= b] on dates. *)
Definition date_leb (a b : date) : bool := (toordinal a <=? toordinal b)%Z.
Definition date_le (a b : date) : Prop := (toordinal a <= toordinal b)%Z.
Definition date_lt (a b : date) : Prop := (toordinal a < toordinal b)%Z.

(* ===================================================================== *)
(** ** Rows of the normalised trade frame *)
(* ===================================================================== *)

Record Trade : Type := mkTrade {
  Trade_Date : date;
  Symbol : string;
  Side : string;
  Units : Q;
  Value : Q;
  Fees : Q;
  GST : Q;
  AUD_USD_rate : Q
}.

(** [df[df['Side'] == side]] *)
Definition select_side (side : string) (df : list Trade) : list Trade :=
  filter (fun t => Side t = side) df.

(** [df.sort_values('Trade Date')]: ascending by date.  The library does
    not promise an order among rows of equal date; the model keeps them in
    frame order. *)
Fixpoint insert_by_date (t : Trade) (rows : list Trade) : list Trade :=
  match rows with
  | [] => [t]
  | r :: rows' =>
      if date_leb (Trade_Date t) (Trade_Date r) then t :: rows
      else r :: insert_by_date t rows'
  end.

Definition sort_values (df : list Trade) : list Trade :=
  fold_right insert_by_date [] df.

(* ===================================================================== *)
(** ** [_get_financial_year] *)
(* ===================================================================== *)

Definition _get_financial_year (d : date) : string :=
  if (7 <=? month d)%Z then
    ("FY" ++ str (year d mod 100) ++ "_" ++ str ((year d + 1) mod 100))%string
  else
    ("FY" ++ str ((year d - 1) mod 100) ++ "_" ++ str (year d mod 100))%string.

(** [df['Trade Date'].apply(self._get_financial_year)]: the column
    [process_data] adds to the frame. *)
Definition financial_year_column (df : list Trade) : list string :=
  map (fun t => _get_financial_year (Trade_Date t)) df.

(* ===================================================================== *)
(** ** The lot book *)
(* ===================================================================== *)

Local Open Scope Q_scope.

(** One entry of [available_shares[symbol]]. *)
Record Lot : Type := mkLot {
  lot_date : date;
  lot_units : Q;
  lot_value : Q;
  lot_fees : Q;
  lot_gst : Q;
  lot_rate : Q;
  lot_total_cost : Q
}.

(** One entry of [matched_buys]. *)
Record MatchedBuy : Type := mkMatched {
  mb_date : date;
  mb_units : Q;
  mb_cost : Q
}.

(** One entry of [results]. *)
Record SaleResult : Type := mkSale {
  symbol : string;
  buy_dates : list date;
  sell_date : date;
  units : Q;
  cost_base : Q;
  proceeds : Q;
  total_gain_loss : Q;
  discounted_gain : Q;
  undiscounted_gain : Q;
  capital_loss : Q;
  financial_year : string;
  holding_periods : list Z
}.

Inductive Warning : Type :=
  | NoAvailableShares (sym : string) (at_date : date)
  | NotEnoughShares (units_short : Q).

(** [self.cgt_discount_days] *)
Definition cgt_discount_days : Z := 365%Z.

(** The dict pushed by the first loop of [_match_trades] for one Buy row. *)
Definition lot_of_buy (buy : Trade) : Lot :=
  {| lot_date := Trade_Date buy;
     lot_units := Qabs (Units buy);
     lot_value := Qabs (Value buy);
     lot_fees := Fees buy;
     lot_gst := GST buy;
     lot_rate := AUD_USD_rate buy;
     lot_total_cost := (Qabs (Value buy) + Fees buy + GST buy) * AUD_USD_rate buy |}.

(** Body of [for _, buy in buys.iterrows()]. *)
Definition add_buy (available_shares : gmap string (list Lot)) (buy : Trade)
  : gmap string (list Lot) :=
  let available_shares :=
    match available_shares !! Symbol buy with
    | None => <[Symbol buy := []]> available_shares
    | Some _ => available_shares
    end in
  <[Symbol buy := default [] (available_shares !! Symbol buy) ++ [lot_of_buy buy]]>
    available_shares.

Definition load_buys (buys : list Trade) : gmap string (list Lot) :=
  fold_left add_buy buys ∅.

(* ===================================================================== *)
(** ** The FIFO consumption loop *)
(* ===================================================================== *)

(** The variables the [while] loop of [_match_trades] reads and writes. *)
Record LoopState : Type := mkLoop {
  remaining_to_sell : Q;
  shares_list : list Lot;
  matched_buys : list MatchedBuy;
  cost_base_acc : Q
}.

(** [remaining_to_sell > 0 and shares_list] *)
Definition loop_cond (s : LoopState) : bool :=
  Qltb 0 (remaining_to_sell s) &&
  match shares_list s with [] => false | _ :: _ => true end.

Definition set_units (l : Lot) (u : Q) : Lot :=
  {| lot_date := lot_date l; lot_units := u; lot_value := lot_value l;
     lot_fees := lot_fees l; lot_gst := lot_gst l; lot_rate := lot_rate l;
     lot_total_cost := lot_total_cost l |}.

(** One pass through the body of the [while] loop. *)
Definition loop_body (s : LoopState) : result LoopState :=
  match shares_list s with
  | [] => Ok s
  | oldest_parcel :: rest =>
      let units_from_parcel := py_min (remaining_to_sell s) (lot_units oldest_parcel) in
      portion_of_total ← truediv units_from_parcel (lot_units oldest_parcel);
      let cost_for_these_units := lot_total_cost oldest_parcel * portion_of_total in
      let matched := matched_buys s ++
        [ {| mb_date := lot_date oldest_parcel;
             mb_units := units_from_parcel;
             mb_cost := cost_for_these_units |} ] in
      let cost := cost_base_acc s + cost_for_these_units in
      let remaining := remaining_to_sell s - units_from_parcel in
      let oldest_parcel' :=
        set_units oldest_parcel (lot_units oldest_parcel - units_from_parcel) in
      Ok {| remaining_to_sell := remaining;
            shares_list :=
              if Qle_bool (lot_units oldest_parcel') 0 then rest
              else oldest_parcel' :: rest;
            matched_buys := matched;
            cost_base_acc := cost |}
  end.

(** Termination measure of the loop: every pass either pops the head lot
    or brings [remaining_to_sell] to zero. *)
Definition loop_measure (s : LoopState) : nat :=
  (2 * length (shares_list s) + (if Qltb 0 (remaining_to_sell s) then 1 else 0))%nat.

Lemma Qltb_lt (a b : Q) : Qltb a b = true <-> a < b.
Proof.
  unfold Qltb. rewrite negb_true_iff. split.
  - intros H. apply Qnot_le_lt. intros Hle. apply Qle_bool_iff in Hle. congruence.
  - intros H. destruct (Qle_bool b a) eqn:E; [|reflexivity].
    apply Qle_bool_iff in E. lra.
Qed.

Lemma Qltb_ge (a b : Q) : Qltb a b = false <-> b <= a.
Proof.
  unfold Qltb. rewrite negb_false_iff. apply Qle_bool_iff.
Qed.

Lemma Qle_bool_false (a b : Q) : Qle_bool a b = false <-> b < a.
Proof.
  rewrite <- Qltb_lt. unfold Qltb. destruct (Qle_bool a b); simpl; split; congruence.
Qed.

Lemma Qeq_bool_false (a b : Q) : Qeq_bool a b = false <-> ~ a == b.
Proof.
  split.
  - intros H Heq. apply Qeq_bool_iff in Heq. congruence.
  - intros H. destruct (Qeq_bool a b) eqn:E; [|reflexivity].
    apply Qeq_bool_iff in E. contradiction.
Qed.

Lemma py_min_cases (a b : Q) :
  (b < a /\ py_min a b = b) \/ (a <= b /\ py_min a b = a).
Proof.
  unfold py_min. destruct (Qltb b a) eqn:E.
  - left. split; [now apply Qltb_lt | reflexivity].
  - right. split; [now apply Qltb_ge | reflexivity].
Qed.

Lemma loop_body_decreases (s s' : LoopState) :
  loop_cond s = true -> loop_body s = Ok s' ->
  (loop_measure s' < loop_measure s)%nat.
Proof.
  unfold loop_cond, loop_body, loop_measure.
  destruct s as [r l m c]; simpl.
  destruct l as [|o rest]; [rewrite andb_false_r; discriminate|].
  rewrite andb_true_r. intros Hr. rewrite Hr.
  unfold truediv. destruct (Qeq_bool (lot_units o) 0); [discriminate|].
  simpl. intros [= <-]. simpl.
  destruct (Qle_bool (lot_units o - py_min r (lot_units o)) 0) eqn:E; simpl.
  - destruct (Qltb 0 (r - py_min r (lot_units o))); lia.
  - apply Qle_bool_false in E.
    assert (Qltb 0 (r - py_min r (lot_units o)) = false) as ->; [|lia].
    apply Qltb_ge.
    destruct (py_min_cases r (lot_units o)) as [[_ Hm]|[_ Hm]]; rewrite Hm in *; lra.
Qed.

(** [while remaining_to_sell > 0 and shares_list: ...] *)
Equations while_loop (s : LoopState) : result LoopState by wf (loop_measure s) lt :=
while_loop s with inspect (loop_cond s) := {
  | exist _ true Hc with inspect (loop_body s) := {
      | exist _ (Ok s') Hb => while_loop s'
      | exist _ (Raise e) _ => Raise e }
  | exist _ false _ => Ok s }.
Next Obligation.
  eapply loop_body_decreases; eauto.
Qed.

Lemma while_loop_step (s : LoopState) :
  while_loop s =
  if loop_cond s then
    match loop_body s with
    | Ok s' => while_loop s'
    | Raise e => Raise e
    end
  else Ok s.
Proof.
  funelim (while_loop s); clear Heqcall;
    repeat match goal with
           | H : loop_cond _ = _ |- _ => rewrite H
           | H : loop_body _ = _ |- _ => rewrite H
           end; reflexivity.
Qed.

(* ===================================================================== *)
(** ** Gain, loss and discount of one sale *)
(* ===================================================================== *)

(** The three running subtotals of the parcel loop. *)
Record Totals : Type := mkTotals {
  total_discounted_gain : Q;
  total_undiscounted_gain : Q;
  total_loss : Q
}.

(** First three assignments of the parcel loop body:
    [(holding_period, portion_proceeds, parcel_gain_loss)]. *)
Definition parcel_analysis (sell : Trade) (units_to_sell proceeds : Q)
  (matched_buy : MatchedBuy) : result (Z * Q * Q) :=
  let holding_period := days_between (Trade_Date sell) (mb_date matched_buy) in
  share ← truediv (mb_units matched_buy) units_to_sell;
  let portion_proceeds := share * proceeds in
  let parcel_gain_loss := portion_proceeds - mb_cost matched_buy in
  Ok (holding_period, portion_proceeds, parcel_gain_loss).

(** The [if parcel_gain_loss > 0: ... else: ...] of the parcel loop body. *)
Definition classify (t : Totals) (holding_period : Z) (parcel_gain_loss : Q) : Totals :=
  if Qltb 0 parcel_gain_loss then
    if (cgt_discount_days <=? holding_period)%Z then
      let discounted_gain := parcel_gain_loss * 0.5 in
      {| total_discounted_gain := total_discounted_gain t + discounted_gain;
         total_undiscounted_gain := total_undiscounted_gain t;
         total_loss := total_loss t |}
    else
      {| total_discounted_gain := total_discounted_gain t;
         total_undiscounted_gain := total_undiscounted_gain t + parcel_gain_loss;
         total_loss := total_loss t |}
  else
    {| total_discounted_gain := total_discounted_gain t;
       total_undiscounted_gain := total_undiscounted_gain t;
       total_loss := total_loss t + parcel_gain_loss |}.

(** Body of [for matched_buy in matched_buys]. *)
Definition parcel_step (sell : Trade) (units_to_sell proceeds : Q)
  (t : Totals) (matched_buy : MatchedBuy) : result Totals :=
  '(holding_period, _, parcel_gain_loss) ←
     parcel_analysis sell units_to_sell proceeds matched_buy;
  Ok (classify t holding_period parcel_gain_loss).

(** [(sell_value - sell['Fees'] - sell['GST']) * sell['AUD/USD rate']] *)
Definition sale_proceeds (sell : Trade) : Q :=
  let sell_value := Qabs (Value sell) in
  (sell_value - Fees sell - GST sell) * AUD_USD_rate sell.

(** The dict appended to [results]. *)
Definition sale_record (sell : Trade) (matched : list MatchedBuy) (proceeds : Q)
  (t : Totals) : SaleResult :=
  let total_gain_loss :=
    total_discounted_gain t + total_undiscounted_gain t + total_loss t in
  {| symbol := Symbol sell;
     buy_dates := map mb_date matched;
     sell_date := Trade_Date sell;
     units := Units sell;
     cost_base := py_sum (map mb_cost matched);
     proceeds := proceeds;
     total_gain_loss := total_gain_loss;
     discounted_gain := total_discounted_gain t;
     undiscounted_gain := total_undiscounted_gain t;
     capital_loss := total_loss t;
     financial_year := _get_financial_year (Trade_Date sell);
     holding_periods :=
       map (fun m => days_between (Trade_Date sell) (mb_date m)) matched |}.

(** The block under [if matched_buys:]. *)
Definition sale_result (sell : Trade) (units_to_sell : Q)
  (matched : list MatchedBuy) : result SaleResult :=
  let proceeds := sale_proceeds sell in
  t ← foldM (parcel_step sell units_to_sell proceeds) matched
        {| total_discounted_gain := 0; total_undiscounted_gain := 0; total_loss := 0 |};
  Ok (sale_record sell matched proceeds t).

(* ===================================================================== *)
(** ** [_match_trades] *)
(* ===================================================================== *)

(** What the sell loop carries from one row to the next. *)
Record MatchState : Type := mkMatch {
  available_shares : gmap string (list Lot);
  results : list SaleResult;
  warnings : list Warning
}.

Definition warn (st : MatchState) (w : Warning) : MatchState :=
  {| available_shares := available_shares st;
     results := results st;
     warnings := warnings st ++ [w] |}.

(** Body of [for _, sell in sells.iterrows()].  [shares_list] aliases
    [available_shares[symbol]], so what the loop leaves of it is the
    book's queue from then on, on every exit of the body. *)
Definition process_sell (st : MatchState) (sell : Trade) : result MatchState :=
  let symbol := Symbol sell in
  let units_to_sell := Qabs (Units sell) in
  let sell_date := Trade_Date sell in
  match available_shares st !! symbol with
  | None | Some [] => Ok (warn st (NoAvailableShares symbol sell_date))
  | Some queue =>
      s ← while_loop {| remaining_to_sell := units_to_sell;
                        shares_list := queue;
                        matched_buys := [];
                        cost_base_acc := 0 |};
      let st := {| available_shares := <[symbol := shares_list s]> (available_shares st);
                   results := results st;
                   warnings := warnings st |} in
      if Qltb 0 (remaining_to_sell s) then
        Ok (warn st (NotEnoughShares (remaining_to_sell s)))
      else
        match matched_buys s with
        | [] => Ok st
        | _ :: _ =>
            r ← sale_result sell units_to_sell (matched_buys s);
            Ok {| available_shares := available_shares st;
                  results := results st ++ [r];
                  warnings := warnings st |}
        end
  end.

Definition initial_state (buys : list Trade) : MatchState :=
  {| available_shares := load_buys buys; results := []; warnings := [] |}.

(** Both loops of [_match_trades], with the warnings it logged. *)
Definition match_trades_run (buys sells : list Trade) : result MatchState :=
  let buys := sort_values buys in
  let sells := sort_values sells in
  foldM process_sell sells (initial_state buys).

Definition _match_trades (buys sells : list Trade) : result (list SaleResult) :=
  st ← match_trades_run buys sells; Ok (results st).

(* ===================================================================== *)
(** ** [_prepare_summary] and [process_data] *)
(* ===================================================================== *)

Record PeriodSummary : Type := mkSummary {
  total_gains : Q;
  total_losses : Q;
  net_position : Q
}.

(** Body of [for trade in results]. *)
Definition fold_trade (summary : gmap string PeriodSummary) (trade : SaleResult)
  : gmap string PeriodSummary :=
  let fy := financial_year trade in
  let summary :=
    match summary !! fy with
    | None => <[fy := {| total_gains := 0; total_losses := 0; net_position := 0 |}]> summary
    | Some _ => summary
    end in
  let entry := default {| total_gains := 0; total_losses := 0; net_position := 0 |}
                       (summary !! fy) in
  let gains := total_gains entry + (discounted_gain trade + undiscounted_gain trade) in
  let losses := total_losses entry + Qabs (capital_loss trade) in
  <[fy := {| total_gains := gains; total_losses := losses;
             net_position := gains - losses |}]> summary.

(** The accumulation loop of [_prepare_summary]: the [summary] dict as it
    stands before it is turned into a frame of formatted strings. *)
Definition _prepare_summary (results : list SaleResult) : gmap string PeriodSummary :=
  fold_left fold_trade results ∅.

(** [process_data]: the numeric content of its ['summary'] and ['details'].
    The ['Financial Year'] column it first adds to the frame is read by
    nothing downstream. *)
Definition process_data (df : list Trade)
  : result (gmap string PeriodSummary * list SaleResult) :=
  let financial_year := financial_year_column df in
  let buys := select_side "Buy" df in
  let sells := select_side "Sell" df in
  results ← _match_trades buys sells;
  Ok (_prepare_summary results, results).

(* ===================================================================== *)
(** ** The accumulation of [_prepare_summary], whatever the arithmetic *)
(* ===================================================================== *)

(** The cells of a frame are binary64 numbers, and so are the amounts
    the summary adds up.  The accumulation loop applies four operations
    to them; [Arith] names these, so that the loop can be read both on
    exact rationals, as [fold_trade] has it, and on binary64 numbers, as
    it runs. *)
Class Arith (num : Type) : Type := {
  num_zero : num;
  num_add : num -> num -> num;
  num_sub : num -> num -> num;
  num_abs : num -> num
}.

#[global] Instance exact_arith : Arith Q :=
  {| num_zero := 0; num_add := Qplus; num_sub := Qminus; num_abs := Qabs |}.

#[global] Instance binary64_arith : Arith PrimFloat.float :=
  {| num_zero := PrimFloat.zero;
     num_add := PrimFloat.add;
     num_sub := PrimFloat.sub;
     num_abs := PrimFloat.abs |}.

(** What the loop reads of one entry of [results]. *)
Record SaleAmounts (num : Type) : Type := mkAmounts {
  amt_financial_year : string;
  amt_discounted_gain : num;
  amt_undiscounted_gain : num;
  amt_capital_loss : num
}.
Arguments mkAmounts {num} _ _ _ _.
Arguments amt_financial_year {num} _.
Arguments amt_discounted_gain {num} _.
Arguments amt_undiscounted_gain {num} _.
Arguments amt_capital_loss {num} _.

(** One entry of the [summary] dict. *)
Record PeriodSums (num : Type) : Type := mkSums {
  sum_total_gains : num;
  sum_total_losses : num;
  sum_net_position : num
}.
Arguments mkSums {num} _ _ _.
Arguments sum_total_gains {num} _.
Arguments sum_total_losses {num} _.
Arguments sum_net_position {num} _.

(** Body of [for trade in results], as [fold_trade], on any numbers. *)
Definition fold_trade_in {num : Type} `{Arith num}
  (summary : gmap string (PeriodSums num)) (trade : SaleAmounts num)
  : gmap string (PeriodSums num) :=
  let fy := amt_financial_year trade in
  let fresh := {| sum_total_gains := num_zero; sum_total_losses := num_zero;
                  sum_net_position := num_zero |} in
  let summary :=
    match summary !! fy with
    | None => <[fy := fresh]> summary
    | Some _ => summary
    end in
  let entry := default fresh (summary !! fy) in
  let gains := num_add (sum_total_gains entry)
                 (num_add (amt_discounted_gain trade) (amt_undiscounted_gain trade)) in
  let losses := num_add (sum_total_losses entry) (num_abs (amt_capital_loss trade)) in
  <[fy := {| sum_total_gains := gains; sum_total_losses := losses;
             sum_net_position := num_sub gains losses |}]> summary.

(** The accumulation loop of [_prepare_summary], on any numbers. *)
Definition _prepare_summary_in {num : Type} `{Arith num}
  (results : list (SaleAmounts num)) : gmap string (PeriodSums num) :=
  fold_left fold_trade_in results ∅.

(** The entries of [results] and of [summary] of the exact model, read
    as the loop reads them. *)
Definition amounts_of (r : SaleResult) : SaleAmounts Q :=
  {| amt_financial_year := financial_year r;
     amt_discounted_gain := discounted_gain r;
     amt_undiscounted_gain := undiscounted_gain r;
     amt_capital_loss := capital_loss r |}.

Definition sums_of (s : PeriodSummary) : PeriodSums Q :=
  {| sum_total_gains := total_gains s;
     sum_total_losses := total_losses s;
     sum_net_position := net_position s |}.

(** The binary64 number nearest to [n / d], for [n] and [d] that binary64
    holds exactly: what a decimal cell such as 0.98 is read as. *)
Definition binary64 (n d : Z) : PrimFloat.float :=
  PrimFloat.div (PrimFloat.of_uint63 (Uint63.of_Z n))
                (PrimFloat.of_uint63 (Uint63.of_Z d)).

(** The rational a finite binary64 number stands for. *)
Definition exact_value (x : PrimFloat.float) : Q :=
  match FloatOps.Prim2SF x with
  | SpecFloat.S754_finite s m e =>
      (if s then -1 else 1) * inject_Z (Z.pos m) * Qpower 2 e
  | _ => 0
  end.

(* ===================================================================== *)
(** ** The display helpers of [DataProcessor] *)
(* ===================================================================== *)

Local Open Scope string_scope.

(** [sep.join(parts)] *)
Fixpoint join (sep : string) (parts : list string) : string :=
  match parts with
  | [] => ""
  | [p] => p
  | p :: ps => p ++ sep ++ join sep ps
  end.

(** The first four assignments of [_format_holding_period]:
    [(years, months, remaining_days)]. *)
Definition holding_period_parts (days : Z) : Z * Z * Z :=
  let years := (days / 365)%Z in
  let remaining_days := (days mod 365)%Z in
  let months := (remaining_days / 30)%Z in
  let remaining_days := (remaining_days mod 30)%Z in
  (years, months, remaining_days).

Definition _format_holding_period (days : Z) : string :=
  let '(years, months, remaining_days) := holding_period_parts days in
  let parts : list string := [] in
  let parts := if (0 <? years)%Z then (parts ++ [(str years ++ "y")%string])%list else parts in
  let parts := if (0 <? months)%Z then (parts ++ [(str months ++ "m")%string])%list else parts in
  let parts :=
    if (0 <? remaining_days)%Z || match parts with [] => true | _ :: _ => false end
    then (parts ++ [(str remaining_days ++ "d")%string])%list else parts in
  join " " parts.

(** A number below 100 on two digits. *)
Definition pad2 (n : Z) : string :=
  if (n <? 10)%Z then "0" ++ str n else str n.

(** Nearest integer, ties to the even one: the rounding of the
    format specification [.2f]. *)
Definition round_half_even (q : Q) : Z :=
  let f := Qfloor q in
  let frac := (q - inject_Z f)%Q in
  if Qltb frac (1 # 2) then f
  else if Qltb (1 # 2) frac then (f + 1)%Z
  else if Z.even f then f else (f + 1)%Z.

(** [f"{x:.2f}"] for [x >= 0]. *)
Definition format_2f (x : Q) : string :=
  let cents := round_half_even (x * 100) in
  str (cents / 100) ++ "." ++ pad2 (cents mod 100).

Definition _format_currency (amount : Q) (include_symbol : bool) : string :=
  let formatted := format_2f (Qabs amount) in
  let formatted := if include_symbol then "$" ++ formatted else formatted in
  if Qltb amount 0 then "(" ++ formatted ++ ")" else formatted.

(** [%b]: the abbreviated month name (C locale). *)
Definition month_abbr (m : Z) : string :=
  nth (Z.to_nat (m - 1))
      ["Jan"; "Feb"; "Mar"; "Apr"; "May"; "Jun";
       "Jul"; "Aug"; "Sep"; "Oct"; "Nov"; "Dec"] "".

(** [date.strftime("%d %b %Y")], for the four-digit years a frame holds. *)
Definition _format_date (d : date) : string :=
  pad2 (day d) ++ " " ++ month_abbr (month d) ++ " " ++ str (year d).

Local Close Scope string_scope.

(* ===================================================================== *)
(** ** The frames of [process_data] *)
(* ===================================================================== *)

(** What can stop [process_data]: an exception of the matching, or the
    lookup of a column that a frame does not have. *)
Inductive frame_exn : Type :=
  | Matching (e : exn)
  | KeyError (column : string).

Inductive rendered (A : Type) : Type :=
  | Rendered (a : A)
  | Failed (e : frame_exn).
Arguments Rendered {A} a.
Arguments Failed {A} e.

(** One row of ['details']: the dict of [results] as [_match_trades]
    leaves it (dates and holding periods as text) after
    [_prepare_details] has formatted its currency columns. *)
Record DetailRow : Type := mkDetail {
  detail_symbol : string;
  detail_buy_dates : list string;
  detail_sell_date : string;
  detail_units : Q;
  detail_cost_base : string;
  detail_proceeds : string;
  detail_total_gain_loss : string;
  detail_discounted_gain : string;
  detail_undiscounted_gain : string;
  detail_capital_loss : string;
  detail_financial_year : string;
  detail_holding_periods : list string
}.

Definition detail_row (r : SaleResult) : DetailRow :=
  {| detail_symbol := symbol r;
     detail_buy_dates := map _format_date (buy_dates r);
     detail_sell_date := _format_date (sell_date r);
     detail_units := units r;
     detail_cost_base := _format_currency (cost_base r) true;
     detail_proceeds := _format_currency (proceeds r) true;
     detail_total_gain_loss := _format_currency (total_gain_loss r) true;
     detail_discounted_gain := _format_currency (discounted_gain r) true;
     detail_undiscounted_gain := _format_currency (undiscounted_gain r) true;
     detail_capital_loss := _format_currency (capital_loss r) true;
     detail_financial_year := financial_year r;
     detail_holding_periods := map _format_holding_period (holding_periods r) |}.

(** [_prepare_details]: each currency column is formatted if the frame
    has it, so a frame without rows (and so without columns) passes. *)
Definition _prepare_details (results : list SaleResult) : list DetailRow :=
  map detail_row results.

(** One row of ['summary'] after formatting. *)
Record SummaryRow : Type := mkSummaryRow {
  row_total_gains : string;
  row_total_losses : string;
  row_net_position : string
}.

Definition summary_row (s : PeriodSummary) : SummaryRow :=
  {| row_total_gains := _format_currency (total_gains s) true;
     row_total_losses := _format_currency (total_losses s) true;
     row_net_position := _format_currency (net_position s) true |}.

(** The end of [_prepare_summary]: [pd.DataFrame(summary).T] and the
    formatting of its three columns, which are looked up without a test.
    The frame of an empty dict has no column. *)
Definition summary_frame (summary : gmap string PeriodSummary)
  : rendered (gmap string SummaryRow) :=
  match size summary with
  | O => Failed (KeyError "total_gains")
  | S _ => Rendered (summary_row <$> summary)
  end.

(** [process_data], frames included. *)
Definition process_data_frames (df : list Trade)
  : rendered (gmap string SummaryRow * list DetailRow) :=
  match process_data df with
  | Raise e => Failed (Matching e)
  | Ok (summary, results) =>
      match summary_frame summary with
      | Failed e => Failed e
      | Rendered frame => Rendered (frame, _prepare_details results)
      end
  end.

(* ===================================================================== *)
(** ** [FileManager]: columns of an uploaded file *)
(* ===================================================================== *)

Local Open Scope string_scope.

(** What the checks of [FileManager] see of a parsed CSV file. *)
Record CsvFrame : Type := mkCsv {
  columns : list string;
  n_rows : nat
}.

(** [self.standard_columns] *)
Definition standard_columns : list string :=
  ["Trade Date"; "Settlement Date"; "Symbol"; "Side";
   "Trade Identifier"; "Units"; "Avg. Price"; "Value";
   "Fees"; "GST"; "Total Value"; "Currency"; "AUD/USD rate"].

(** [self.column_mappings[broker]['required_columns']], [[]] for a
    broker that has no entry. *)
Definition required_columns (broker : string) : list string :=
  if String.eqb broker "stake" then standard_columns
  else if String.eqb broker "webull" then
    ["Symbol&Name"; "Trade Date"; "Settlement Date"; "Buy/Sell";
     "Quantity"; "Trade Price"; "Gross Amount"; "Net Amount";
     "Comm/Fee/Tax"; "GST"]
  else [].

(** [self.column_mappings[broker]['column_map']] *)
Definition column_map (broker : string) : list (string * string) :=
  if String.eqb broker "webull" then
    [("Symbol&Name", "Symbol"); ("Buy/Sell", "Side"); ("Quantity", "Units");
     ("Trade Price", "Avg. Price"); ("Gross Amount", "Value");
     ("Net Amount", "Total Value"); ("Comm/Fee/Tax", "Fees")]
  else [].

(** [df.empty]: no row or no column. *)
Definition frame_empty (df : CsvFrame) : bool :=
  match n_rows df, columns df with
  | O, _ | _, [] => true
  | _, _ => false
  end.

(** [validate_file], once the file has been parsed into [df]: a broker
    other than the two known ones leaves [df] unbound, which the handler
    turns into [False]. *)
Definition validate_file (df : CsvFrame) (broker : string) : bool :=
  if negb (String.eqb broker "stake" || String.eqb broker "webull") then false
  else if frame_empty df then false
  else
    match required_columns broker with
    | [] => false
    | required =>
        match filter (fun col => col ∉ columns df) required with
        | [] => true
        | _ :: _ => false
        end
    end.

(** [df.rename(columns=column_map)] on one label. *)
Definition rename_column (map : list (string * string)) (col : string) : string :=
  match find (fun kv => String.eqb (fst kv) col) map with
  | Some kv => snd kv
  | None => col
  end.

(** [if col not in df: df[col] = default] *)
Definition add_column (col : string) (cols : list string) : list string :=
  if bool_decide (col ∈ cols) then cols else (cols ++ [col])%list.

(** [df[col]] is one column only when [col] labels exactly one: a label
    that is absent raises KeyError, and under a label that is repeated
    [df[col]] is a frame, on which [.str] and [.dtype] raise
    AttributeError; [read_file] turns either into [None]. *)
Definition count_column (col : string) (cols : list string) : nat :=
  length (filter (fun c => c = col) cols).

Definition one_column (cols : list string) (col : string) : bool :=
  Nat.eqb (count_column col cols) 1.

Definition at_most_one_column (cols : list string) (col : string) : bool :=
  Nat.leb (count_column col cols) 1.

(** [numeric_columns] *)
Definition numeric_columns : list string :=
  ["Units"; "Avg. Price"; "Value"; "Fees"; "GST"; "Total Value"].

(** The columns of the frame [read_file] returns, [None] when it
    returns [None] because a column it looks up is absent or repeated
    once the columns are renamed.  The conversions of the values (dates,
    rates, numbers) can fail too and are not modelled: [Some cols] gives
    the columns of the frame if one is returned. *)
Definition read_file_columns (cols : list string) (broker : string)
  : option (list string) :=
  let cols := map (rename_column (column_map broker)) cols in
  if String.eqb broker "stake" then
    if forallb (one_column cols) ["Trade Date"; "Settlement Date"; "AUD/USD rate"]
       && forallb (at_most_one_column cols) numeric_columns
    then Some cols else None
  else if String.eqb broker "webull" then
    if forallb (one_column cols) ["Trade Date"; "Settlement Date"; "Side"; "GST"]
    then
      let cols := add_column "Trade Identifier"
                    (add_column "AUD/USD rate" (add_column "Currency" cols)) in
      if forallb (at_most_one_column cols) numeric_columns then Some cols else None
    else None
  else None.

Local Close Scope string_scope.

(* ===================================================================== *)
(** ** [FileManager]: [str.title] on the side column *)
(* ===================================================================== *)

(** Letters of ASCII text; other characters have no case. *)
Definition is_upper (c : ascii) : bool :=
  let n := nat_of_ascii c in ((65 <=? n) && (n <=? 90))%nat.
Definition is_lower (c : ascii) : bool :=
  let n := nat_of_ascii c in ((97 <=? n) && (n <=? 122))%nat.
Definition to_lower (c : ascii) : ascii :=
  if is_upper c then ascii_of_nat (nat_of_ascii c + 32) else c.
Definition to_upper (c : ascii) : ascii :=
  if is_lower c then ascii_of_nat (nat_of_ascii c - 32) else c.

(** [str.title()]: a letter that follows a letter is put in lower case,
    any other letter in upper case. *)
Fixpoint title_from (previous_is_cased : bool) (s : string) : string :=
  match s with
  | EmptyString => EmptyString
  | String c s' =>
      if is_upper c || is_lower c then
        String (if previous_is_cased then to_lower c else to_upper c)
               (title_from true s')
      else String c (title_from false s')
  end.

Definition title (s : string) : string := title_from false s.

(* ===================================================================== *)
(** ** What the design document calls FIFO *)
(* ===================================================================== *)

(** [fifo_trace q ms q']: the parcels [ms] were cut from the queue [q]
    head first, every lot but possibly the last one touched being taken
    whole and popped, and [q'] is what is left of the queue. *)
Inductive fifo_trace : list Lot -> list MatchedBuy -> list Lot -> Prop :=
  | fifo_stop q : fifo_trace q [] q
  | fifo_drain o rest p ms q' :
      mb_date p = lot_date o ->
      mb_units p == lot_units o ->
      mb_cost p = lot_total_cost o * (mb_units p / lot_units o) ->
      fifo_trace rest ms q' ->
      fifo_trace (o :: rest) (p :: ms) q'
  | fifo_split o rest p :
      mb_date p = lot_date o ->
      0 < mb_units p -> mb_units p < lot_units o ->
      mb_cost p = lot_total_cost o * (mb_units p / lot_units o) ->
      fifo_trace (o :: rest) [p] (set_units o (lot_units o - mb_units p) :: rest).

Definition Qsum (xs : list Q) : Q := fold_right Qplus 0 xs.

Definition lots_positive (q : list Lot) : Prop :=
  Forall (fun l => 0 < lot_units l) q.

(** Oldest acquisition first. *)
Definition chronological (q : list Lot) : Prop :=
  Sorted date_le (map lot_date q).

(** Invariant of the lot book between two rows of the sell loop. *)
Definition book_inv (book : gmap string (list Lot)) : Prop :=
  forall sym q, book !! sym = Some q -> lots_positive q /\ chronological q.

Definition nonzero_units (rows : list Trade) : Prop :=
  Forall (fun t => ~ Units t == 0) rows.

(* ===================================================================== *)
(** ** Vocabulary of the statements and sample rows *)
(* ===================================================================== *)

Definition by_trade_date (a b : Trade) : Prop :=
  date_le (Trade_Date a) (Trade_Date b).

(** The rows of [buys] that carry symbol [sym], in frame order. *)
Definition buys_of (sym : string) (buys : list Trade) : list Trade :=
  filter (fun b => Symbol b = sym) buys.

Definition book_chronological (book : gmap string (list Lot)) : Prop :=
  forall sym q, book !! sym = Some q -> chronological q.

(** The per-parcel quantities, as the design document names them. *)
Definition holding_days (sell : Trade) (m : MatchedBuy) : Z :=
  days_between (Trade_Date sell) (mb_date m).

Definition portion_of_proceeds (total_units_sold proceeds : Q) (m : MatchedBuy) : Q :=
  (mb_units m / total_units_sold) * proceeds.

Definition parcel_gain_loss (total_units_sold proceeds : Q) (m : MatchedBuy) : Q :=
  portion_of_proceeds total_units_sold proceeds m - mb_cost m.

Definition zero_totals : Totals :=
  {| total_discounted_gain := 0; total_undiscounted_gain := 0; total_loss := 0 |}.

(** The subtotals as a plain left fold of [classify] over the parcels. *)
Definition parcel_totals (sell : Trade) (total_units_sold proceeds : Q)
  (ms : list MatchedBuy) (t : Totals) : Totals :=
  fold_left (fun t m => classify t (holding_days sell m)
                          (parcel_gain_loss total_units_sold proceeds m)) ms t.

Definition set_book (st : MatchState) (book : gmap string (list Lot)) : MatchState :=
  {| available_shares := book; results := results st; warnings := warnings st |}.

Definition add_result (st : MatchState) (r : SaleResult) : MatchState :=
  {| available_shares := available_shares st;
     results := results st ++ [r];
     warnings := warnings st |}.

(** The four ways one Sell row can leave the loop body without raising. *)
Inductive sell_outcome (st : MatchState) (sell : Trade) : MatchState -> Prop :=
  | no_shares :
      available_shares st !! Symbol sell = None \/
      available_shares st !! Symbol sell = Some [] ->
      sell_outcome st sell
        (warn st (NoAvailableShares (Symbol sell) (Trade_Date sell)))
  | nothing_to_sell q :
      available_shares st !! Symbol sell = Some q -> q <> [] ->
      Qabs (Units sell) <= 0 ->
      sell_outcome st sell (set_book st (<[Symbol sell := q]> (available_shares st)))
  | shortfall q ms short :
      available_shares st !! Symbol sell = Some q -> q <> [] ->
      Qsum (map lot_units q) < Qabs (Units sell) ->
      fifo_trace q ms [] ->
      short == Qabs (Units sell) - Qsum (map lot_units q) ->
      sell_outcome st sell
        (warn (set_book st (<[Symbol sell := []]> (available_shares st)))
              (NotEnoughShares short))
  | accepted q ms q' :
      available_shares st !! Symbol sell = Some q ->
      0 < Qabs (Units sell) ->
      Qabs (Units sell) <= Qsum (map lot_units q) ->
      ms <> [] ->
      fifo_trace q ms q' ->
      Qsum (map mb_units ms) == Qabs (Units sell) ->
      sell_outcome st sell
        (add_result (set_book st (<[Symbol sell := q']> (available_shares st)))
           (sale_record sell ms (sale_proceeds sell)
              (parcel_totals sell (Qabs (Units sell)) (sale_proceeds sell) ms zero_totals))).

(** The scenario of the design document: two purchases of X, one sale
    that spans both, all amounts already in reporting currency. *)
Definition buy_jan22 : Trade :=
  mkTrade (mkDate 2022 1 1) "X" "Buy" 10 1000 0 0 1.
Definition buy_jun22 : Trade :=
  mkTrade (mkDate 2022 6 1) "X" "Buy" 10 1100 0 0 1.
Definition sell_feb23 : Trade :=
  mkTrade (mkDate 2023 2 1) "X" "Sell" 15 2000 0 0 1.

(** Variations on it. *)
Definition buy_zero_jun22 : Trade :=
  mkTrade (mkDate 2022 6 1) "X" "Buy" 0 1100 0 0 1.
Definition sell5_feb23 : Trade :=
  mkTrade (mkDate 2023 2 1) "X" "Sell" 5 1000 0 0 1.
Definition sell5_mar23 : Trade :=
  mkTrade (mkDate 2023 3 1) "X" "Sell" 5 1000 0 0 1.
Definition sell_y_mar23 : Trade :=
  mkTrade (mkDate 2023 3 1) "Y" "Sell" 3 300 0 0 1.

Ltac concrete_nonzero :=
  repeat constructor;
  let H := fresh in intros H; vm_compute in H; discriminate H.

Ltac case_while_loop s e :=
  match goal with
  | |- context [while_loop ?x] => destruct (while_loop x) as [s|e]
  | H : context [while_loop ?x] |- _ => destruct (while_loop x) as [s|e]
  end.

Ltac case_sale_result r e :=
  match goal with
  | |- context [sale_result ?x ?y ?z] => destruct (sale_result x y z) as [r|e]
  | H : context [sale_result ?x ?y ?z] |- _ => destruct (sale_result x y z) as [r|e]
  end.

(** [bought buys sym]: some Buy row of the batch carries [sym]. *)
Definition bought (buys : list Trade) (sym : string) : Prop :=
  sym ∈ map Symbol buys.

#[global] Instance bought_dec (buys : list Trade) (sym : string) :
  Decision (bought buys sym).
Proof. unfold bought. apply _. Defined.

(** What is queued for the symbol of a row. *)
Definition lots_for (st : MatchState) (row : Trade) : list Lot :=
  default [] (available_shares st !! Symbol row).

Definition buy_sep22 : Trade :=
  mkTrade (mkDate 2022 9 1) "X" "Buy" 10 1200 0 0 1.

Definition buy_jun23 : Trade :=
  mkTrade (mkDate 2023 6 1) "X" "Buy" 10 1000 0 0 1.

Local Open Scope string_scope.

Definition is_digit (c : ascii) : bool :=
  let n := nat_of_ascii c in ((48 <=? n) && (n <=? 57))%nat.

(** The identifier format of the design document, [FY<YY>_<YY>]:
    the letters FY, two digits, an underscore, two digits. *)
Definition spec_fy_format (s : string) : bool :=
  match s with
  | String "F" (String "Y" (String a (String b
      (String "_" (String c (String d EmptyString)))))) =>
      is_digit a && is_digit b && is_digit c && is_digit d
  | _ => false
  end.

(** First calendar year of the period a date falls in. *)
Definition period_start (d : date) : Z :=
  if (7 <=? month d)%Z then year d else (year d - 1)%Z.

Definition render_period (k : Z) : string :=
  "FY" ++ str k ++ "_" ++ str ((k + 1) mod 100).

Local Close Scope string_scope.

Definition zero_summary : PeriodSummary :=
  {| total_gains := 0; total_losses := 0; net_position := 0 |}.

(** What one Sale Result adds to the summary of its period. *)
Definition gains_of (r : SaleResult) : Q := discounted_gain r + undiscounted_gain r.
Definition losses_of (r : SaleResult) : Q := Qabs (capital_loss r).

Definition bump (old : PeriodSummary) (r : SaleResult) : PeriodSummary :=
  {| total_gains := total_gains old + gains_of r;
     total_losses := total_losses old + losses_of r;
     net_position := (total_gains old + gains_of r) - (total_losses old + losses_of r) |}.

(** The Sale Results of one period, in list order. *)
Definition in_period (fy : string) (rs : list SaleResult) : list SaleResult :=
  filter (fun r => financial_year r = fy) rs.

Definition sale_gain_fy23 : SaleResult :=
  mkSale "X" [mkDate 2022 1 1] (mkDate 2023 2 1) 5 500 1000 250 250 0 0 "FY22_23" [396%Z].
Definition sale_loss_fy23 : SaleResult :=
  mkSale "Y" [mkDate 2022 6 1] (mkDate 2023 3 1) 5 500 300 (-200) 0 0 (-200) "FY22_23" [273%Z].

Definition buy_negative_jan22 : Trade :=
  mkTrade (mkDate 2022 1 1) "X" "Buy" (-10) 1000 0 0 1.
Definition hold_jan22 : Trade :=
  mkTrade (mkDate 2022 1 1) "X" "Hold" 10 1000 0 0 1.

(* ===================================================================== *)
(** ** Further vocabulary: rows, subtotals, symbols and units *)
(* ===================================================================== *)

(** What a Sale Result says of the Sell row it came from. *)
Definition row_of_sale (r : SaleResult) : string * date * Q :=
  (symbol r, sell_date r, units r).

Definition sale_of_row (t : Trade) : string * date * Q :=
  (Symbol t, Trade_Date t, Units t).

Definition totals_signed (t : Totals) : Prop :=
  0 <= total_discounted_gain t /\ 0 <= total_undiscounted_gain t /\ total_loss t <= 0.

(** The results of symbol [X] among [rs]. *)
Definition results_of (X : string) (rs : list SaleResult) : list SaleResult :=
  filter (fun r => symbol r = X) rs.

(** [st] seen from symbol [X]: the queue of [X] and the results of [X]. *)
Definition seen_from (X : string) (st stX : MatchState) : Prop :=
  available_shares stX !! X = available_shares st !! X
  /\ results stX = results_of X (results st).

Definition buy_y_feb22 : Trade :=
  mkTrade (mkDate 2022 2 1) "Y" "Buy" 10 500 0 0 1.

Local Open Scope string_scope.

(** A date of the calendar, as far as the rendering needs it. *)
Definition plausible_date (d : date) : Prop :=
  (1 <= day d <= 31)%Z /\ (1 <= month d <= 12)%Z.

(** Readers of the two fixed-width fields, used to tell renderings apart. *)
Definition digit_value (c : ascii) : Z := (Z.of_nat (nat_of_ascii c) - 48)%Z.

Definition unpad2 (s : string) : Z :=
  match s with
  | String a (String b EmptyString) => (digit_value a * 10 + digit_value b)%Z
  | _ => (-1)%Z
  end.

Definition month_of_abbr (s : string) : Z :=
  match find (fun m => String.eqb (month_abbr (Z.of_nat m)) s) (seq 1 12) with
  | Some m => Z.of_nat m
  | None => 0%Z
  end.

(** The columns [DataProcessor] reads from the frame it is given. *)
Definition processor_columns : list string :=
  ["Trade Date"; "Side"; "Symbol"; "Units"; "Value"; "Fees"; "GST"; "AUD/USD rate"].

(** The standard names the renaming of a broker produces that the file
    already uses for a column of its own. *)
Definition clashing_columns (broker : string) (cols : list string) : list string :=
  filter (fun target => target ∈ cols) (map snd (column_map broker)).

Local Close Scope string_scope.

Ltac pick_column := solve [repeat constructor].

(** [str.lower()] *)
Fixpoint lower (s : string) : string :=
  match s with
  | EmptyString => EmptyString
  | String c s' => String (to_lower c) (lower s')
  end.

(** Units queued for [X], units of [X] in accepted sales, units of [X]
    in Buy rows. *)
Definition units_in_book (X : string) (st : MatchState) : Q :=
  Qsum (map lot_units (default [] (available_shares st !! X))).

Definition units_sold (X : string) (rs : list SaleResult) : Q :=
  Qsum (map (fun r => Qabs (units r)) (results_of X rs)).

Definition units_bought (X : string) (buys : list Trade) : Q :=
  Qsum (map (fun b => Qabs (Units b)) (buys_of X buys)).

(* ===================================================================== *)
(** ** Further vocabulary: whole units, sorting, periods *)
(* ===================================================================== *)

(** A whole number of units that binary64 holds exactly.  On such units
    the [min], the subtractions and the comparisons of the consumption
    loop are exact, whether the cell is an int or a float, so the loop
    of the model and the loop of the code take the same turns. *)
Definition whole (q : Q) : bool :=
  Qeq_bool q (inject_Z (Qfloor q)) && (Z.abs (Qfloor q) <=? 2 ^ 53)%Z.

Definition whole_units (rows : list Trade) : Prop :=
  Forall (fun t => whole (Units t) = true) rows.

Definition whole_lots (q : list Lot) : Prop :=
  Forall (fun o => whole (lot_units o) = true) q.

Ltac concrete_whole := repeat constructor.

(** Units the Sell rows of symbol [X] ask for. *)
Definition units_asked (X : string) (sells : list Trade) : Q :=
  Qsum (map (fun s => Qabs (Units s)) (buys_of X sells)).

(** Any way of sorting a frame by trade date, rows of equal date coming
    out in whatever order: [DataFrame.sort_values] is one, and need not
    keep such rows in frame order. *)
Definition sorts_by_date (sort : list Trade -> list Trade) : Prop :=
  forall rows, Permutation (sort rows) rows /\ Sorted by_trade_date (sort rows).

(** Both loops of [_match_trades] with the sorting left open;
    [match_trades_run] is [match_trades_sorted_by sort_values]. *)
Definition match_trades_sorted_by (sort : list Trade -> list Trade)
  (buys sells : list Trade) : result MatchState :=
  let buys := sort buys in
  let sells := sort sells in
  foldM process_sell sells (initial_state buys).

(** No two of the rows are dated the same day. *)
Definition distinct_dates (rows : list Trade) : Prop :=
  NoDup (map (fun t => toordinal (Trade_Date t)) rows).

(** The warning of a Sell row whose symbol has no lot. *)
Definition no_shares_warning (row : Trade) : Warning :=
  NoAvailableShares (Symbol row) (Trade_Date row).

(** The entries of one period, in list order, and what each adds. *)
Definition period_rows {num : Type} (fy : string) (rs : list (SaleAmounts num))
  : list (SaleAmounts num) :=
  filter (fun r => amt_financial_year r = fy) rs.

Definition gains_in {num : Type} `{Arith num} (r : SaleAmounts num) : num :=
  num_add (amt_discounted_gain r) (amt_undiscounted_gain r).

Definition losses_in {num : Type} `{Arith num} (r : SaleAmounts num) : num :=
  num_abs (amt_capital_loss r).

(** The totals of a period as running sums from zero, left to right. *)
Definition period_sums {num : Type} `{Arith num} (rows : list (SaleAmounts num))
  : option (PeriodSums num) :=
  match rows with
  | [] => None
  | _ :: _ =>
      let gains := fold_left num_add (map gains_in rows) num_zero in
      let losses := fold_left num_add (map losses_in rows) num_zero in
      Some {| sum_total_gains := gains; sum_total_losses := losses;
              sum_net_position := num_sub gains losses |}
  end.

(** Three gains of one period, as binary64 numbers. *)
Definition gain_098 : SaleAmounts PrimFloat.float :=
  mkAmounts "FY23_24"%string PrimFloat.zero (binary64 98 100) PrimFloat.zero.
Definition gain_176 : SaleAmounts PrimFloat.float :=
  mkAmounts "FY23_24"%string PrimFloat.zero (binary64 176 100) PrimFloat.zero.
Definition gain_0555 : SaleAmounts PrimFloat.float :=
  mkAmounts "FY23_24"%string PrimFloat.zero (binary64 555 1000) PrimFloat.zero.
Definition loss_fy25 : SaleAmounts PrimFloat.float :=
  mkAmounts "FY24_25"%string PrimFloat.zero PrimFloat.zero (PrimFloat.opp (binary64 125 100)).

(** A batch in which a Sell asks for more than its symbol holds and meets
    a lot of no units, next to a Sell that can be matched. *)
Definition zero_lot_buys : list Trade := [buy_jan22; buy_zero_jun22; buy_y_feb22].
Definition zero_lot_sells : list Trade := [sell_feb23; sell_y_mar23].

(* ===================================================================== *)
(** ** Lemmas on the primitives *)
(* ===================================================================== *)

Lemma py_sum_from (xs : list Q) (a : Q) : fold_left Qplus xs a == a + Qsum xs.
Proof.
  revert a. induction xs as [|x xs IH]; intros a; simpl.
  - lra.
  - rewrite IH. lra.
Qed.

Lemma py_sum_Qsum (xs : list Q) : py_sum xs == Qsum xs.
Proof. unfold py_sum. rewrite py_sum_from. lra. Qed.

Lemma Qsum_app (xs ys : list Q) : Qsum (xs ++ ys) == Qsum xs + Qsum ys.
Proof.
  induction xs as [|x xs IH]; simpl.
  - lra.
  - rewrite IH. lra.
Qed.

Lemma Qsum_perm (xs ys : list Q) : Permutation xs ys -> Qsum xs == Qsum ys.
Proof.
  induction 1 as [|x xs ys _ IH|x y xs|xs ys zs _ IH1 _ IH2]; simpl.
  - reflexivity.
  - lra.
  - lra.
  - lra.
Qed.

Lemma Qsum_nonneg (xs : list Q) : Forall (fun x => 0 <= x) xs -> 0 <= Qsum xs.
Proof. induction 1 as [|x xs Hx _ IH]; simpl; lra. Qed.

Lemma truediv_ok (a b : Q) : ~ b == 0 -> truediv a b = Ok (a / b).
Proof.
  intros H. unfold truediv. apply Qeq_bool_false in H. now rewrite H.
Qed.

Lemma truediv_zero (a b : Q) : b == 0 -> truediv a b = Raise ZeroDivisionError.
Proof.
  intros H. unfold truediv. apply Qeq_bool_iff in H. now rewrite H.
Qed.

Lemma Qabs_nonzero_pos (x : Q) : ~ x == 0 -> 0 < Qabs x.
Proof.
  intros H. apply Qabs_case; intros Hs.
  - destruct (Qlt_le_dec 0 x) as [Hp|Hle]; [exact Hp|]. exfalso. apply H. lra.
  - destruct (Qlt_le_dec x 0) as [Hp|Hle]; [lra|]. exfalso. apply H. lra.
Qed.

(* ===================================================================== *)
(** ** Lemmas on the consumption loop *)
(* ===================================================================== *)

Lemma while_loop_done (s : LoopState) :
  loop_cond s = false -> while_loop s = Ok s.
Proof. intros H. rewrite while_loop_step, H. reflexivity. Qed.

Lemma while_loop_sated (r : Q) (q : list Lot) (m : list MatchedBuy) (c : Q) :
  r <= 0 -> while_loop (mkLoop r q m c) = Ok (mkLoop r q m c).
Proof.
  intros H. apply while_loop_done. unfold loop_cond; simpl.
  apply Qltb_ge in H. now rewrite H.
Qed.

Lemma fifo_trace_positive (q q' : list Lot) (ms : list MatchedBuy) :
  fifo_trace q ms q' -> lots_positive q -> lots_positive q'.
Proof.
  unfold lots_positive.
  induction 1 as [q|o rest p ms q' _ _ _ _ IH|o rest p _ Hp Hlt _]; intros Hq.
  - exact Hq.
  - apply IH. now inversion Hq.
  - inversion Hq; subst. constructor; [simpl; lra | assumption].
Qed.

Lemma fifo_trace_chronological (q q' : list Lot) (ms : list MatchedBuy) :
  fifo_trace q ms q' -> chronological q -> chronological q'.
Proof.
  unfold chronological.
  induction 1 as [q|o rest p ms q' _ _ _ _ IH|o rest p _ _ _ _]; intros Hq.
  - exact Hq.
  - apply IH. simpl in Hq. now inversion Hq.
  - exact Hq.
Qed.

(** Units are conserved: what was in the queue is what was matched plus
    what is left. *)
Lemma fifo_trace_units (q q' : list Lot) (ms : list MatchedBuy) :
  fifo_trace q ms q' ->
  Qsum (map lot_units q) == Qsum (map mb_units ms) + Qsum (map lot_units q').
Proof.
  induction 1 as [q|o rest p ms q' _ Hu _ _ IH|o rest p _ _ _ _]; simpl.
  - lra.
  - rewrite IH, Hu. lra.
  - lra.
Qed.

Lemma lots_positive_sum (q : list Lot) :
  lots_positive q -> 0 <= Qsum (map lot_units q).
Proof.
  induction 1 as [|l q Hl _ IH]; simpl; lra.
Qed.

Lemma loop_body_head (r : Q) (o : Lot) (rest : list Lot) (m : list MatchedBuy) (c : Q) :
  ~ lot_units o == 0 ->
  loop_body (mkLoop r (o :: rest) m c) =
  let take := py_min r (lot_units o) in
  let cost := lot_total_cost o * (take / lot_units o) in
  Ok (mkLoop (r - take)
        (if Qle_bool (lot_units o - take) 0 then rest
         else set_units o (lot_units o - take) :: rest)
        (m ++ [mkMatched (lot_date o) take cost])
        (c + cost)).
Proof.
  intros Hu. unfold loop_body. cbn [shares_list remaining_to_sell matched_buys cost_base_acc].
  rewrite (truediv_ok _ _ Hu). reflexivity.
Qed.

Lemma loop_body_zero_lot (r : Q) (o : Lot) (rest : list Lot) (m : list MatchedBuy) (c : Q) :
  lot_units o == 0 ->
  loop_body (mkLoop r (o :: rest) m c) = Raise ZeroDivisionError.
Proof.
  intros Hu. unfold loop_body. cbn [shares_list remaining_to_sell matched_buys cost_base_acc].
  rewrite (truediv_zero _ _ Hu). reflexivity.
Qed.

(** On a queue of positive lots the loop returns, and what it returns is
    a FIFO cut of the queue. *)
Lemma while_loop_fifo (q : list Lot) :
  lots_positive q ->
  forall (r : Q) (m : list MatchedBuy) (c : Q),
  exists (s : LoopState) (ms : list MatchedBuy),
    while_loop (mkLoop r q m c) = Ok s
    /\ matched_buys s = m ++ ms
    /\ fifo_trace q ms (shares_list s)
    /\ remaining_to_sell s == r - Qsum (map mb_units ms)
    /\ (0 < remaining_to_sell s -> shares_list s = [])
    /\ (0 < r -> 0 <= remaining_to_sell s)
    /\ (ms <> [] -> 0 < r)
    /\ cost_base_acc s == c + Qsum (map mb_cost ms).
Proof.
  induction 1 as [|o rest Ho Hrest IH]; intros r m c.
  - exists (mkLoop r [] m c), [].
    rewrite while_loop_done by (unfold loop_cond; simpl; apply andb_false_r).
    rewrite app_nil_r. simpl. repeat split; try (constructor || lra || congruence).
  - destruct (Qlt_le_dec 0 r) as [Hr|Hr].
    2:{ exists (mkLoop r (o :: rest) m c), [].
        rewrite while_loop_sated by exact Hr.
        rewrite app_nil_r. simpl. repeat split; try (constructor || lra || congruence). }
    assert (Hu : ~ lot_units o == 0) by lra.
    rewrite while_loop_step.
    assert (loop_cond (mkLoop r (o :: rest) m c) = true) as ->.
    { unfold loop_cond; simpl. apply Qltb_lt in Hr. now rewrite Hr. }
    rewrite (loop_body_head r o rest m c Hu). cbv zeta.
    destruct (py_min_cases r (lot_units o)) as [[Hlt Hm]|[Hle Hm]]; rewrite Hm.
    + (* the lot is smaller than what is still to sell: taken whole *)
      assert (Qle_bool (lot_units o - lot_units o) 0 = true) as ->
        by (apply Qle_bool_iff; lra).
      destruct (IH (r - lot_units o)
                   (m ++ [mkMatched (lot_date o) (lot_units o)
                            (lot_total_cost o * (lot_units o / lot_units o))])
                   (c + lot_total_cost o * (lot_units o / lot_units o)))
        as (s & ms & Hs & Hms & Htr & Hrem & Hempty & Hnn & Hne & Hc).
      exists s, (mkMatched (lot_date o) (lot_units o)
                   (lot_total_cost o * (lot_units o / lot_units o)) :: ms).
      rewrite Hs, Hms, <- app_assoc. simpl.
      repeat split; try assumption.
      * apply fifo_drain; simpl; try reflexivity. exact Htr.
      * rewrite Hrem. lra.
      * intros _. apply Hnn. lra.
      * intros _. exact Hr.
      * rewrite Hc. lra.
    + (* the lot covers what is still to sell *)
      destruct (Qle_bool (lot_units o - r) 0) eqn:E.
      * apply Qle_bool_iff in E.
        rewrite while_loop_sated by lra.
        eexists; exists [mkMatched (lot_date o) r (lot_total_cost o * (r / lot_units o))].
        repeat split; simpl; try (lra || congruence || (intros; lra)).
        apply fifo_drain; simpl; try reflexivity; [lra | constructor].
      * apply Qle_bool_false in E.
        rewrite while_loop_sated by lra.
        eexists; exists [mkMatched (lot_date o) r (lot_total_cost o * (r / lot_units o))].
        repeat split; simpl; try (lra || congruence || (intros; lra)).
        apply fifo_split; simpl; try reflexivity; lra.
Qed.

(* ===================================================================== *)
(** ** Lemmas on sorting and on loading the lot book *)
(* ===================================================================== *)

Lemma date_leb_le (a b : date) : date_leb a b = true <-> date_le a b.
Proof. unfold date_leb, date_le. apply Z.leb_le. Qed.

Lemma date_leb_gt (a b : date) : date_leb a b = false <-> date_lt b a.
Proof. unfold date_leb, date_lt. apply Z.leb_gt. Qed.

Lemma date_le_trans (a b c : date) : date_le a b -> date_le b c -> date_le a c.
Proof. unfold date_le. lia. Qed.

Lemma insert_by_date_perm (t : Trade) (rows : list Trade) :
  Permutation (insert_by_date t rows) (t :: rows).
Proof.
  induction rows as [|r rows IH]; simpl.
  - reflexivity.
  - destruct (date_leb (Trade_Date t) (Trade_Date r)).
    + reflexivity.
    + rewrite IH. apply perm_swap.
Qed.

Lemma sort_values_perm (df : list Trade) : Permutation (sort_values df) df.
Proof.
  induction df as [|t df IH]; simpl.
  - reflexivity.
  - rewrite insert_by_date_perm. now constructor.
Qed.

Lemma insert_by_date_sorted (t : Trade) (rows : list Trade) :
  Sorted by_trade_date rows -> Sorted by_trade_date (insert_by_date t rows).
Proof.
  induction 1 as [|r rows Hs IH Hhd]; simpl.
  - repeat constructor.
  - destruct (date_leb (Trade_Date t) (Trade_Date r)) eqn:E.
    + constructor; [now constructor|]. constructor. now apply date_leb_le.
    + constructor; [exact IH|].
      apply date_leb_gt in E.
      destruct rows as [|r' rows]; simpl.
      * constructor. unfold by_trade_date, date_le, date_lt in *. lia.
      * destruct (date_leb (Trade_Date t) (Trade_Date r')).
        -- constructor. unfold by_trade_date, date_le, date_lt in *. lia.
        -- constructor. now inversion Hhd.
Qed.

Lemma sort_values_sorted (df : list Trade) : Sorted by_trade_date (sort_values df).
Proof.
  induction df as [|t df IH]; simpl.
  - constructor.
  - now apply insert_by_date_sorted.
Qed.

Lemma sort_values_strongly_sorted (df : list Trade) :
  StronglySorted by_trade_date (sort_values df).
Proof.
  apply Sorted_StronglySorted; [|apply sort_values_sorted].
  intros a b c. apply date_le_trans.
Qed.

Lemma sort_values_nonzero (df : list Trade) :
  nonzero_units df -> nonzero_units (sort_values df).
Proof.
  unfold nonzero_units. intros H.
  eapply Permutation_Forall; [|exact H]. symmetry. apply sort_values_perm.
Qed.

Lemma sort_values_length (df : list Trade) : length (sort_values df) = length df.
Proof. apply Permutation_length, sort_values_perm. Qed.

Lemma add_buy_lookup (book : gmap string (list Lot)) (b : Trade) (sym : string) :
  add_buy book b !! sym =
  if decide (Symbol b = sym)
  then Some (default [] (book !! sym) ++ [lot_of_buy b])
  else book !! sym.
Proof.
  unfold add_buy. destruct (decide (Symbol b = sym)) as [->|Hne].
  - rewrite lookup_insert_eq. destruct (book !! sym) eqn:E.
    + now rewrite E.
    + now rewrite lookup_insert_eq.
  - rewrite lookup_insert_ne by exact Hne.
    destruct (book !! Symbol b); [reflexivity|].
    now rewrite lookup_insert_ne.
Qed.

Lemma fold_add_buy_lookup (buys : list Trade) (book : gmap string (list Lot)) (sym : string) :
  fold_left add_buy buys book !! sym =
  match buys_of sym buys with
  | [] => book !! sym
  | _ :: _ => Some (default [] (book !! sym) ++ map lot_of_buy (buys_of sym buys))
  end.
Proof.
  revert book. induction buys as [|b buys IH]; intros book; simpl.
  - reflexivity.
  - rewrite IH, add_buy_lookup. unfold buys_of. rewrite filter_cons.
    fold (buys_of sym buys).
    destruct (decide (Symbol b = sym)) as [Heq|Hne]; simpl.
    + destruct (buys_of sym buys) as [|b' bs'].
      * reflexivity.
      * simpl. now rewrite <- app_assoc.
    + reflexivity.
Qed.

(** The book after the first loop: per symbol, one lot per Buy row of
    that symbol, in row order; symbols never bought have no entry. *)
Lemma load_buys_lookup (buys : list Trade) (sym : string) :
  load_buys buys !! sym =
  match buys_of sym buys with
  | [] => None
  | _ :: _ => Some (map lot_of_buy (buys_of sym buys))
  end.
Proof.
  unfold load_buys. rewrite fold_add_buy_lookup, lookup_empty.
  destruct (buys_of sym buys); reflexivity.
Qed.

Lemma strongly_sorted_filter (P : Trade -> Prop) `{!forall t, Decision (P t)}
  (rows : list Trade) :
  StronglySorted by_trade_date rows -> StronglySorted by_trade_date (filter P rows).
Proof.
  induction 1 as [|r rows Hs IH Hall].
  - constructor.
  - rewrite filter_cons. destruct (decide (P r)); [|exact IH].
    constructor; [exact IH|].
    rewrite Forall_forall in *. intros x Hx. apply Hall.
    now apply list_elem_of_filter in Hx as [_ Hx].
Qed.

Lemma load_buys_chronological (buys : list Trade) :
  book_chronological (load_buys (sort_values buys)).
Proof.
  intros sym q Hq. rewrite load_buys_lookup in Hq.
  assert (q = map lot_of_buy (buys_of sym (sort_values buys))) as ->.
  { destruct (buys_of sym (sort_values buys)); [discriminate | now inversion Hq]. }
  clear Hq. unfold chronological. rewrite map_map. simpl.
  apply StronglySorted_Sorted.
  pose proof (strongly_sorted_filter (fun b => Symbol b = sym) _
                (sort_values_strongly_sorted buys)) as Hs.
  fold (buys_of sym (sort_values buys)) in Hs.
  induction Hs as [|b bs _ IH Hall]; simpl; constructor.
  - exact IH.
  - rewrite Forall_map. exact Hall.
Qed.

Lemma load_buys_inv (buys : list Trade) :
  nonzero_units buys -> book_inv (load_buys (sort_values buys)).
Proof.
  intros Hnz sym q Hq. split; [|eapply load_buys_chronological, Hq].
  rewrite load_buys_lookup in Hq.
  assert (q = map lot_of_buy (buys_of sym (sort_values buys))) as ->.
  { destruct (buys_of sym (sort_values buys)); [discriminate | now inversion Hq]. }
  clear Hq. unfold lots_positive. rewrite Forall_map.
  apply sort_values_nonzero in Hnz. unfold nonzero_units in Hnz.
  rewrite Forall_forall in *. intros b Hb. simpl.
  apply Qabs_nonzero_pos, Hnz.
  now apply list_elem_of_filter in Hb as [_ Hb].
Qed.

(* ===================================================================== *)
(** ** Lemmas on the arithmetic of one sale *)
(* ===================================================================== *)

Lemma parcel_analysis_ok (sell : Trade) (u p : Q) (m : MatchedBuy) :
  ~ u == 0 ->
  parcel_analysis sell u p m =
  Ok (holding_days sell m, portion_of_proceeds u p m, parcel_gain_loss u p m).
Proof.
  intros Hu. unfold parcel_analysis. rewrite (truediv_ok _ _ Hu). reflexivity.
Qed.

Lemma parcel_step_ok (sell : Trade) (u p : Q) (t : Totals) (m : MatchedBuy) :
  ~ u == 0 ->
  parcel_step sell u p t m =
  Ok (classify t (holding_days sell m) (parcel_gain_loss u p m)).
Proof.
  intros Hu. unfold parcel_step. rewrite (parcel_analysis_ok _ _ _ _ Hu). reflexivity.
Qed.

Lemma foldM_parcel_step (sell : Trade) (u p : Q) (ms : list MatchedBuy) (t : Totals) :
  ~ u == 0 ->
  foldM (parcel_step sell u p) ms t = Ok (parcel_totals sell u p ms t).
Proof.
  intros Hu. revert t. induction ms as [|m ms IH]; intros t; simpl.
  - reflexivity.
  - rewrite (parcel_step_ok _ _ _ _ _ Hu). simpl. apply IH.
Qed.

Lemma sale_result_ok (sell : Trade) (u : Q) (ms : list MatchedBuy) :
  ~ u == 0 ->
  sale_result sell u ms =
  Ok (sale_record sell ms (sale_proceeds sell)
        (parcel_totals sell u (sale_proceeds sell) ms zero_totals)).
Proof.
  intros Hu. unfold sale_result. cbv zeta.
  fold zero_totals. rewrite (foldM_parcel_step _ _ _ _ _ Hu). reflexivity.
Qed.

(* ===================================================================== *)
(** ** Lemmas on one row of the sell loop *)
(* ===================================================================== *)

Lemma process_sell_outcome (st : MatchState) (sell : Trade) :
  book_inv (available_shares st) ->
  exists st', process_sell st sell = Ok st' /\ sell_outcome st sell st'.
Proof.
  intros Hinv. unfold process_sell. cbv zeta.
  destruct (available_shares st !! Symbol sell) as [q|] eqn:Hq.
  2:{ eexists; split; [reflexivity|]. apply no_shares. now left. }
  destruct q as [|o rest].
  { eexists; split; [reflexivity|]. apply no_shares. now right. }
  destruct (Hinv _ _ Hq) as [Hpos _].
  destruct (while_loop_fifo (o :: rest) Hpos (Qabs (Units sell)) [] 0)
    as (s & ms & Hs & Hms & Htr & Hrem & Hempty & Hnn & Hne & _).
  rewrite Hs. simpl in Hms. cbn [mbind result_bind].
  pose proof (fifo_trace_units _ _ _ Htr) as Hcons.
  pose proof (lots_positive_sum _ (fifo_trace_positive _ _ _ Htr Hpos)) as Hleft.
  destruct (Qltb 0 (remaining_to_sell s)) eqn:Erem.
  - (* shortfall *)
    apply Qltb_lt in Erem. specialize (Hempty Erem).
    rewrite Hempty in *.
    change (Qsum (map lot_units [])) with 0 in Hcons.
    eexists; split; [reflexivity|].
    eapply (shortfall st sell (o :: rest) ms); try eassumption; try congruence; lra.
  - apply Qltb_ge in Erem.
    destruct (Qlt_le_dec 0 (Qabs (Units sell))) as [Hu|Hu].
    + (* accepted *)
      specialize (Hnn Hu).
      assert (Hms' : ms <> []).
      { intros ->. simpl in Hrem. lra. }
      rewrite Hms. destruct ms as [|m ms]; [congruence|].
      rewrite sale_result_ok by lra. cbn [mbind result_bind].
      eexists; split; [reflexivity|].
      eapply (accepted st sell (o :: rest) (m :: ms)); try eassumption; lra.
    + (* zero units requested *)
      assert (ms = []) as ->.
      { destruct ms; [reflexivity|]. exfalso.
        assert (0 < Qabs (Units sell)) by (apply Hne; congruence). lra. }
      rewrite Hms. inversion Htr; subst.
      eexists; split; [reflexivity|].
      replace (shares_list s) with (o :: rest) by congruence.
      apply (nothing_to_sell st sell (o :: rest)); try assumption; congruence.
Qed.

(** Whenever the loop returns, on any queue, what it matched is a FIFO
    cut of that queue. *)
Lemma while_loop_trace (q : list Lot) :
  forall (r : Q) (m : list MatchedBuy) (c : Q) (s : LoopState),
  while_loop (mkLoop r q m c) = Ok s ->
  exists ms, matched_buys s = m ++ ms /\ fifo_trace q ms (shares_list s).
Proof.
  induction q as [|o rest IH]; intros r m c s Hs.
  - rewrite while_loop_done in Hs by (unfold loop_cond; simpl; apply andb_false_r).
    injection Hs as <-. exists []. simpl. rewrite app_nil_r. split; [reflexivity|constructor].
  - destruct (Qlt_le_dec 0 r) as [Hr|Hr].
    2:{ rewrite while_loop_sated in Hs by exact Hr. injection Hs as <-.
        exists []. simpl. rewrite app_nil_r. split; [reflexivity|constructor]. }
    rewrite while_loop_step in Hs.
    assert (loop_cond (mkLoop r (o :: rest) m c) = true) as Hc.
    { unfold loop_cond; simpl. apply Qltb_lt in Hr. now rewrite Hr. }
    rewrite Hc in Hs.
    destruct (Qeq_dec (lot_units o) 0) as [Hz|Hu].
    { rewrite (loop_body_zero_lot r o rest m c Hz) in Hs. discriminate. }
    rewrite (loop_body_head r o rest m c Hu) in Hs. cbv zeta in Hs.
    destruct (py_min_cases r (lot_units o)) as [[Hlt Hm]|[Hle Hm]]; rewrite Hm in Hs.
    + assert (Qle_bool (lot_units o - lot_units o) 0 = true) as E
        by (apply Qle_bool_iff; lra).
      rewrite E in Hs. apply IH in Hs as (ms & Hms & Htr).
      eexists (_ :: ms). rewrite Hms, <- app_assoc. split; [reflexivity|].
      apply fifo_drain; simpl; try reflexivity. exact Htr.
    + destruct (Qle_bool (lot_units o - r) 0) eqn:E.
      * apply Qle_bool_iff in E.
        rewrite while_loop_sated in Hs by lra. injection Hs as <-. simpl.
        eexists [_]. split; [reflexivity|].
        apply fifo_drain; simpl; try reflexivity; [lra | constructor].
      * apply Qle_bool_false in E.
        rewrite while_loop_sated in Hs by lra. injection Hs as <-. simpl.
        eexists [_]. split; [reflexivity|].
        apply fifo_split; simpl; try reflexivity; lra.
Qed.

(** A zero-unit lot that the request reaches stops the run. *)
Lemma while_loop_zero_lot (pre : list Lot) (z : Lot) (rest : list Lot) :
  lots_positive pre -> lot_units z == 0 ->
  forall (r : Q) (m : list MatchedBuy) (c : Q),
  Qsum (map lot_units pre) < r ->
  while_loop (mkLoop r (pre ++ z :: rest) m c) = Raise ZeroDivisionError.
Proof.
  intros Hpre Hz. induction Hpre as [|o pre Ho Hpre IH]; intros r m c Hr; simpl in Hr.
  - rewrite while_loop_step.
    assert (loop_cond (mkLoop r ([] ++ z :: rest) m c) = true) as ->.
    { unfold loop_cond; simpl. apply Qltb_lt in Hr. now rewrite Hr. }
    simpl app. rewrite (loop_body_zero_lot r z rest m c Hz). reflexivity.
  - pose proof (lots_positive_sum _ Hpre) as Hsum.
    rewrite while_loop_step.
    assert (loop_cond (mkLoop r ((o :: pre) ++ z :: rest) m c) = true) as ->.
    { unfold loop_cond; simpl. assert (0 < r) as H0 by lra.
      apply Qltb_lt in H0. now rewrite H0. }
    simpl app. rewrite loop_body_head by lra. cbv zeta.
    destruct (py_min_cases r (lot_units o)) as [[Hlt Hm]|[Hle Hm]]; [|lra].
    rewrite Hm.
    assert (Qle_bool (lot_units o - lot_units o) 0 = true) as ->
      by (apply Qle_bool_iff; lra).
    apply IH. lra.
Qed.

Lemma book_inv_insert (book : gmap string (list Lot)) (sym : string) (q : list Lot) :
  book_inv book -> lots_positive q -> chronological q ->
  book_inv (<[sym := q]> book).
Proof.
  intros Hinv Hp Hc sym' q' Hq'.
  destruct (decide (sym = sym')) as [->|Hne].
  - rewrite lookup_insert_eq in Hq'. injection Hq' as <-. now split.
  - rewrite lookup_insert_ne in Hq' by exact Hne. eapply Hinv, Hq'.
Qed.

Lemma sell_outcome_inv (st : MatchState) (sell : Trade) (st' : MatchState) :
  book_inv (available_shares st) -> sell_outcome st sell st' ->
  book_inv (available_shares st').
Proof.
  intros Hinv Hout.
  destruct Hout as [_|q Hq _ _|q ms short Hq _ _ _ _|q ms q' Hq _ _ _ Htr _]; simpl.
  - exact Hinv.
  - destruct (Hinv _ _ Hq). now apply book_inv_insert.
  - apply book_inv_insert; [exact Hinv| |]; constructor.
  - destruct (Hinv _ _ Hq) as [Hp Hc]. apply book_inv_insert; [exact Hinv| |].
    + eapply fifo_trace_positive; eassumption.
    + eapply fifo_trace_chronological; eassumption.
Qed.

(** Results and warnings only ever grow by one entry per row. *)
Lemma sell_outcome_count (st : MatchState) (sell : Trade) (st' : MatchState) :
  sell_outcome st sell st' -> ~ Units sell == 0 ->
  (length (results st') + length (warnings st')
   = S (length (results st) + length (warnings st)))%nat.
Proof.
  intros Hout Hnz. apply Qabs_nonzero_pos in Hnz.
  destruct Hout as [_|q _ _ Hz|q ms short _ _ _ _ _|q ms q' _ _ _ _ _ _]; simpl;
    rewrite ?length_app; simpl; try lia.
  lra.
Qed.

(** The whole sell loop on a book of positive lots: it returns. *)
Lemma sell_loop_ok (sells : list Trade) :
  forall st, book_inv (available_shares st) ->
  exists st',
    foldM process_sell sells st = Ok st'
    /\ book_inv (available_shares st')
    /\ (nonzero_units sells ->
        (length (results st') + length (warnings st')
         = length (results st) + length (warnings st) + length sells)%nat).
Proof.
  induction sells as [|sell sells IH]; intros st Hinv; simpl.
  - exists st. split; [reflexivity|]. split; [exact Hinv | intros _; lia].
  - destruct (process_sell_outcome st sell Hinv) as (st1 & Hst1 & Hout).
    rewrite Hst1. cbn [mbind result_bind].
    pose proof (sell_outcome_inv _ _ _ Hinv Hout) as Hinv1.
    destruct (IH st1 Hinv1) as (st' & Hst' & Hinv' & Hcount).
    exists st'. split; [exact Hst'|]. split; [exact Hinv'|].
    intros Hnz. inversion Hnz as [|? ? Hsell Hrest]; subst.
    specialize (Hcount Hrest).
    pose proof (sell_outcome_count _ _ _ Hout Hsell). lia.
Qed.

Lemma match_trades_run_ok (buys sells : list Trade) :
  nonzero_units buys ->
  exists st,
    match_trades_run buys sells = Ok st
    /\ book_inv (available_shares st)
    /\ (nonzero_units sells ->
        (length (results st) + length (warnings st) = length sells)%nat).
Proof.
  intros Hb. unfold match_trades_run. cbv zeta.
  destruct (sell_loop_ok (sort_values sells) (initial_state (sort_values buys)))
    as (st & Hst & Hinv & Hcount).
  { simpl. now apply load_buys_inv. }
  exists st. split; [exact Hst|]. split; [exact Hinv|].
  intros Hs. rewrite Hcount by now apply sort_values_nonzero.
  simpl. now rewrite sort_values_length.
Qed.

(* ===================================================================== *)
(** ** The scenario of the design document *)
(* ===================================================================== *)

Example scenario_holding_days :
  days_between (mkDate 2023 2 1) (mkDate 2022 1 1) = 396%Z
  /\ days_between (mkDate 2023 2 1) (mkDate 2022 6 1) = 245%Z.
Proof. split; reflexivity. Qed.

Example scenario_result :
  exists r, _match_trades [buy_jun22; buy_jan22] [sell_feb23] = Ok [r]
    /\ buy_dates r = [mkDate 2022 1 1; mkDate 2022 6 1]
    /\ holding_periods r = [396%Z; 245%Z]
    /\ cost_base r == 1550
    /\ discounted_gain r == 1000 / 6
    /\ undiscounted_gain r == 350 / 3
    /\ capital_loss r == 0.
Proof.
  eexists. split; [vm_compute; reflexivity|].
  repeat split; vm_compute; reflexivity.
Qed.

(* ===================================================================== *)
(** ** Division by the head lot's units (C9) *)
(* ===================================================================== *)



(* ===================================================================== *)
(** ** Rows that cannot be matched (C6) *)
(* ===================================================================== *)

Lemma process_sell_unknown (st : MatchState) (sell : Trade) :
  available_shares st !! Symbol sell = None ->
  process_sell st sell =
  Ok (warn st (NoAvailableShares (Symbol sell) (Trade_Date sell))).
Proof. intros H. unfold process_sell. cbv zeta. now rewrite H. Qed.

Lemma not_bought_buys_of (buys : list Trade) (sym : string) :
  ~ bought buys sym -> buys_of sym buys = [].
Proof.
  unfold bought, buys_of. induction buys as [|b buys IH]; intros H.
  - reflexivity.
  - rewrite filter_cons. simpl in H. rewrite elem_of_cons in H.
    destruct (decide (Symbol b = sym)) as [Heq|Hne].
    + exfalso. apply H. now left.
    + apply IH. intros Hin. apply H. now right.
Qed.

Lemma units_asked_cons (X : string) (row : Trade) (rows : list Trade) :
  units_asked X (row :: rows)
  = if decide (Symbol row = X) then Qabs (Units row) + units_asked X rows
    else units_asked X rows.
Proof.
  unfold units_asked, buys_of. rewrite filter_cons.
  destruct (decide (Symbol row = X)); reflexivity.
Qed.

Lemma units_asked_nonneg (X : string) (rows : list Trade) : 0 <= units_asked X rows.
Proof.
  unfold units_asked. apply Qsum_nonneg. rewrite Forall_map, Forall_forall.
  intros row _. apply Qabs_nonneg.
Qed.

Lemma units_asked_perm (X : string) (rows rows' : list Trade) :
  Permutation rows rows' -> units_asked X rows == units_asked X rows'.
Proof.
  intros Hp. unfold units_asked, buys_of.
  apply Qsum_perm, Permutation_map. now rewrite Hp.
Qed.

Lemma units_asked_elem (row : Trade) (rows : list Trade) :
  row ∈ rows -> Qabs (Units row) <= units_asked (Symbol row) rows.
Proof.
  induction rows as [|r rows IH]; intros Hin.
  - now apply elem_of_nil in Hin.
  - rewrite units_asked_cons. apply elem_of_cons in Hin as [<-|Hin].
    + destruct (decide (Symbol row = Symbol row)); [|congruence].
      pose proof (units_asked_nonneg (Symbol row) rows). lra.
    + specialize (IH Hin). destruct (decide (Symbol r = Symbol row)); [|exact IH].
      pose proof (Qabs_nonneg (Units r)). lra.
Qed.

(** One row that its symbol's queue covers: a result, no warning, and
    the queue shorter by the units sold. *)
Lemma sell_outcome_matchable (st st' : MatchState) (sell : Trade) :
  sell_outcome st sell st' ->
  0 < Qabs (Units sell) ->
  Qabs (Units sell) <= units_in_book (Symbol sell) st ->
  (exists r, results st' = results st ++ [r] /\ row_of_sale r = sale_of_row sell)
  /\ warnings st' = warnings st
  /\ units_in_book (Symbol sell) st' == units_in_book (Symbol sell) st - Qabs (Units sell)
  /\ (forall X, X <> Symbol sell ->
        available_shares st' !! X = available_shares st !! X).
Proof.
  intros Hout Hpos Hle. unfold units_in_book in *.
  destruct Hout as [Hno|q Hq _ Hz|q ms short Hq _ Hlt _ _|q ms q' Hq _ _ _ Htr Hsum].
  - exfalso. destruct Hno as [Hno|Hno]; rewrite Hno in Hle; simpl in Hle; lra.
  - exfalso. lra.
  - exfalso. rewrite Hq in Hle. simpl in Hle. lra.
  - cbn [available_shares results warnings add_result set_book].
    split; [eexists; split; reflexivity|].
    split; [reflexivity|].
    split.
    + rewrite lookup_insert_eq, Hq. cbn [default from_option id].
      pose proof (fifo_trace_units _ _ _ Htr). lra.
    + intros X HX. now rewrite lookup_insert_ne by congruence.
Qed.

(** The sell loop over rows that the book covers symbol by symbol, [K]
    telling the symbols the book knows: each row of a known symbol
    leaves a result, each other row a warning, in the order of the rows. *)
Lemma sell_loop_matchable (K : string -> Prop) `{!forall X, Decision (K X)}
  (rows : list Trade) :
  forall st,
  book_inv (available_shares st) ->
  Forall (fun row => K (Symbol row) -> ~ Units row == 0) rows ->
  (forall X, ~ K X -> available_shares st !! X = None) ->
  (forall X, K X -> units_asked X rows <= units_in_book X st) ->
  exists st' new,
    foldM process_sell rows st = Ok st'
    /\ results st' = results st ++ new
    /\ map row_of_sale new = map sale_of_row (filter (fun row => K (Symbol row)) rows)
    /\ warnings st' = warnings st ++
         map no_shares_warning (filter (fun row => ~ K (Symbol row)) rows).
Proof.
  induction rows as [|row rows IH]; intros st Hinv Hnz Hdom Hcover; cbn [foldM].
  - exists st, []. rewrite !app_nil_r. repeat split.
  - inversion Hnz as [|? ? Hrow Hnz']; subst.
    rewrite !filter_cons.
    destruct (decide (K (Symbol row))) as [Hk|Hk].
    + destruct (decide (~ K (Symbol row))) as [Hk'|_]; [contradiction|].
      destruct (process_sell_outcome st row Hinv) as (st1 & Hstep & Hout).
      rewrite Hstep. cbn [mbind result_bind].
      pose proof (Hcover _ Hk) as Hc. rewrite units_asked_cons in Hc.
      destruct (decide (Symbol row = Symbol row)); [|congruence].
      pose proof (units_asked_nonneg (Symbol row) rows) as Hrest.
      pose proof (Qabs_nonzero_pos _ (Hrow Hk)) as Hpos.
      destruct (sell_outcome_matchable st st1 row Hout Hpos ltac:(lra))
        as ((r & Hres & Hr) & Hw & Hunits & Hother).
      destruct (IH st1) as (st' & new & Hrun & Hres' & Hnew & Hw').
      * eapply sell_outcome_inv; eassumption.
      * exact Hnz'.
      * intros X HX. rewrite Hother by congruence. now apply Hdom.
      * intros X HX. specialize (Hcover X HX). rewrite units_asked_cons in Hcover.
        destruct (decide (Symbol row = X)) as [<-|Hne].
        -- lra.
        -- unfold units_in_book in *. rewrite Hother by congruence. exact Hcover.
      * exists st', (r :: new). split; [exact Hrun|].
        split; [rewrite Hres', Hres, <- app_assoc; reflexivity|].
        split; [cbn [map]; now rewrite Hr, Hnew|].
        now rewrite Hw', Hw.
    + destruct (decide (~ K (Symbol row))) as [_|Hk']; [|contradiction].
      rewrite (process_sell_unknown st row (Hdom _ Hk)). cbn [mbind result_bind].
      destruct (IH (warn st (NoAvailableShares (Symbol row) (Trade_Date row))))
        as (st' & new & Hrun & Hres' & Hnew & Hw'); try assumption.
      * intros X HX. specialize (Hcover X HX). rewrite units_asked_cons in Hcover.
        destruct (decide (Symbol row = X)) as [<-|Hne]; [contradiction|exact Hcover].
      * exists st', new. split; [exact Hrun|]. split; [exact Hres'|].
        split; [exact Hnew|].
        rewrite Hw'. cbn [warnings warn map]. now rewrite <- app_assoc.
Qed.

Lemma filter_all {A : Type} (P : A -> Prop) `{!forall x, Decision (P x)} (l : list A) :
  Forall P l -> filter P l = l.
Proof.
  induction 1 as [|x l Hx _ IH]; [reflexivity|].
  rewrite filter_cons. destruct (decide (P x)); [now rewrite IH | contradiction].
Qed.

Lemma filter_none {A : Type} (P : A -> Prop) `{!forall x, Decision (P x)} (l : list A) :
  Forall (fun x => ~ P x) l -> filter P l = [].
Proof.
  induction 1 as [|x l Hx _ IH]; [reflexivity|].
  rewrite filter_cons. destruct (decide (P x)); [contradiction | exact IH].
Qed.

Lemma sorts_by_date_strongly (sort : list Trade -> list Trade) (rows : list Trade) :
  sorts_by_date sort -> StronglySorted by_trade_date (sort rows).
Proof.
  intros Hs. apply Sorted_StronglySorted; [|apply Hs].
  intros a b c. apply date_le_trans.
Qed.

Lemma sort_values_sorts : sorts_by_date sort_values.
Proof. intros rows. split; [apply sort_values_perm | apply sort_values_sorted]. Qed.

Lemma buys_of_perm (X : string) (rows rows' : list Trade) :
  Permutation rows rows' -> Permutation (buys_of X rows) (buys_of X rows').
Proof. intros Hp. unfold buys_of. now rewrite Hp. Qed.

Lemma nonzero_units_perm (rows rows' : list Trade) :
  Permutation rows rows' -> nonzero_units rows' -> nonzero_units rows.
Proof. intros Hp. unfold nonzero_units. now rewrite Hp. Qed.

(** The lot book of Buy rows sorted by date, whatever the order of the
    rows of equal date. *)
Lemma load_buys_sorted_inv (bs : list Trade) :
  nonzero_units bs -> StronglySorted by_trade_date bs -> book_inv (load_buys bs).
Proof.
  intros Hnz Hs sym q Hq. rewrite load_buys_lookup in Hq.
  assert (q = map lot_of_buy (buys_of sym bs)) as ->.
  { destruct (buys_of sym bs); [discriminate | now inversion Hq]. }
  clear Hq. split.
  - unfold lots_positive. rewrite Forall_map.
    unfold nonzero_units in Hnz. rewrite Forall_forall in *. intros b Hb. simpl.
    apply Qabs_nonzero_pos, Hnz.
    now apply list_elem_of_filter in Hb as [_ Hb].
  - unfold chronological. rewrite map_map. simpl.
    apply StronglySorted_Sorted.
    pose proof (strongly_sorted_filter (fun b => Symbol b = sym) _ Hs) as Hf.
    fold (buys_of sym bs) in Hf.
    induction Hf as [|b l _ IH Hall]; simpl; constructor.
    + exact IH.
    + rewrite Forall_map. exact Hall.
Qed.

Lemma units_in_book_initial (X : string) (bs : list Trade) :
  units_in_book X (initial_state bs) == units_bought X bs.
Proof.
  unfold units_in_book, units_bought. simpl. rewrite load_buys_lookup.
  destruct (buys_of X bs) as [|b l]; [reflexivity|].
  cbn [default from_option id]. rewrite map_map. reflexivity.
Qed.

Lemma units_bought_perm (X : string) (bs buys : list Trade) :
  Permutation bs buys -> units_bought X bs == units_bought X buys.
Proof.
  intros Hp. unfold units_bought. apply Qsum_perm, Permutation_map, buys_of_perm, Hp.
Qed.

Lemma initial_state_unbought (X : string) (bs : list Trade) :
  ~ bought bs X -> available_shares (initial_state bs) !! X = None.
Proof.
  intros Hn. simpl. rewrite load_buys_lookup.
  now rewrite (not_bought_buys_of _ _ Hn).
Qed.

Lemma bought_perm (bs buys : list Trade) (X : string) :
  Permutation bs buys -> bought bs X <-> bought buys X.
Proof. intros Hp. unfold bought. now rewrite Hp. Qed.

Lemma units_bought_unbought (X : string) (buys : list Trade) :
  ~ bought buys X -> units_bought X buys = 0.
Proof. intros Hn. unfold units_bought. now rewrite (not_bought_buys_of _ _ Hn). Qed.

(** The sell loop on a sorted book: it returns, and every Sell of nonzero
    units leaves one result or one warning. *)
Lemma match_trades_sorted_by_ok (sort : list Trade -> list Trade) (buys sells : list Trade) :
  sorts_by_date sort -> nonzero_units buys ->
  exists st,
    match_trades_sorted_by sort buys sells = Ok st
    /\ (nonzero_units sells ->
        (length (results st) + length (warnings st) = length sells)%nat).
Proof.
  intros Hs Hb. unfold match_trades_sorted_by. cbv zeta.
  destruct (sell_loop_ok (sort sells) (initial_state (sort buys))) as (st & Hrun & _ & Hcount).
  { simpl. apply load_buys_sorted_inv; [|now apply sorts_by_date_strongly].
    eapply nonzero_units_perm; [apply Hs | exact Hb]. }
  exists st. split; [exact Hrun|]. intros Hnz.
  rewrite Hcount by (eapply nonzero_units_perm; [apply Hs | exact Hnz]).
  simpl. apply Permutation_length, Hs.
Qed.

(** One Sell of a symbol that was never bought, among Sells that the Buy
    rows cover symbol by symbol. *)
Lemma one_unmatchable_sell (sort : list Trade -> list Trade)
  (buys before after : list Trade) (bad : Trade) :
  sorts_by_date sort ->
  nonzero_units buys -> nonzero_units (before ++ after) ->
  ~ bought buys (Symbol bad) ->
  (forall X, units_asked X (before ++ after) <= units_bought X buys) ->
  exists st,
    match_trades_sorted_by sort buys (before ++ bad :: after) = Ok st
    /\ Permutation (map row_of_sale (results st)) (map sale_of_row (before ++ after))
    /\ length (results st) = length (before ++ after)
    /\ warnings st = [no_shares_warning bad].
Proof.
  intros Hs Hb Hnz Hbad Hcover. unfold match_trades_sorted_by. cbv zeta.
  set (rows := sort (before ++ bad :: after)).
  assert (Hrows : Permutation rows (bad :: before ++ after)).
  { subst rows. etransitivity; [apply Hs|]. symmetry. apply Permutation_middle. }
  (* every other Sell is of a bought symbol *)
  assert (Hknown : forall row, row ∈ before ++ after -> bought buys (Symbol row)).
  { intros row Hin. destruct (decide (bought buys (Symbol row))) as [|Hn]; [assumption|].
    exfalso. specialize (Hcover (Symbol row)).
    rewrite (units_bought_unbought _ _ Hn) in Hcover.
    pose proof (units_asked_elem row _ Hin) as Hrow.
    unfold nonzero_units in Hnz. rewrite Forall_forall in Hnz.
    pose proof (Qabs_nonzero_pos _ (Hnz _ Hin)). lra. }
  assert (Hgood : filter (fun row => bought buys (Symbol row)) (bad :: before ++ after)
                  = before ++ after).
  { rewrite filter_cons. destruct (decide (bought buys (Symbol bad))); [contradiction|].
    apply filter_all. rewrite Forall_forall. exact Hknown. }
  assert (Hrest : filter (fun row => ~ bought buys (Symbol row)) (bad :: before ++ after)
                  = [bad]).
  { rewrite filter_cons. destruct (decide (~ bought buys (Symbol bad))); [|contradiction].
    f_equal. apply filter_none. rewrite Forall_forall.
    intros row Hin Hn. apply Hn, Hknown, Hin. }
  destruct (sell_loop_matchable (bought buys) rows (initial_state (sort buys)))
    as (st & new & Hrun & Hres & Hnew & Hw).
  - simpl. apply load_buys_sorted_inv; [|now apply sorts_by_date_strongly].
    eapply nonzero_units_perm; [apply Hs | exact Hb].
  - rewrite Forall_forall. intros row Hin Hk.
    assert (Hin' : row ∈ bad :: before ++ after) by now rewrite <- Hrows.
    apply elem_of_cons in Hin' as [->|Hin']; [contradiction|].
    unfold nonzero_units in Hnz. rewrite Forall_forall in Hnz. now apply Hnz.
  - intros X HX. apply initial_state_unbought.
    intros Hin. apply HX. eapply bought_perm; [|exact Hin]. symmetry. apply Hs.
  - intros X HX. rewrite units_in_book_initial.
    rewrite (units_bought_perm X (sort buys) buys) by apply Hs.
    rewrite (units_asked_perm X rows _ Hrows), units_asked_cons.
    destruct (decide (Symbol bad = X)) as [<-|_]; [contradiction | apply Hcover].
  - exists st. split; [exact Hrun|]. simpl in Hres, Hw. subst new.
    assert (Hp : Permutation (map row_of_sale (results st))
                             (map sale_of_row (before ++ after))).
    { rewrite Hnew, <- Hgood. apply Permutation_map.
      now rewrite Hrows. }
    split; [exact Hp|]. split.
    + apply Permutation_length in Hp. now rewrite !length_map in Hp.
    + rewrite Hw.
      assert (Hp' : Permutation (filter (fun row => ~ bought buys (Symbol row)) rows) [bad])
        by (rewrite <- Hrest; now rewrite Hrows).
      apply Permutation_singleton_r in Hp'. rewrite Hp'. reflexivity.
Qed.

(** C6, the claim fails as stated: a Sell that asks for more units than
    its symbol holds does not always leave the batch running.  Here the
    Sell of 15 X meets, after the lot of 10, a lot of no units; the
    division by that lot's units raises, and the batch ends without a
    result for the Sell of Y either, which its lot covers. *)
Lemma C6_counterexample :
  units_bought "X" zero_lot_buys < Qabs (Units sell_feb23)
  /\ Qabs (Units sell_y_mar23) <= units_bought "Y" zero_lot_buys
  /\ nonzero_units zero_lot_sells
  /\ match_trades_run zero_lot_buys zero_lot_sells = Raise ZeroDivisionError
  /\ _match_trades zero_lot_buys zero_lot_sells = Raise ZeroDivisionError.
Proof.
  split; [vm_compute; reflexivity|].
  split; [vm_compute; discriminate|].
  split; [unfold zero_lot_sells; concrete_nonzero|].
  split; vm_compute; reflexivity.
Qed.

(** C6, amended: on a lot book whose lots hold positive whole numbers of
    units, a Sell of a whole number of units whose symbol has no lots, or
    that asks for more units than its symbol's lots hold, produces no
    Sale Result and one diagnostic, and the loop goes on with the next
    row; the lots it drained before the shortfall showed stay drained
    (the symbol's queue is left empty, other symbols are untouched).  A
    Sell that its symbol's lots cover produces one Sale Result and no
    diagnostic.  Over a batch whose rows have nonzero units the run
    returns and every Sell leaves exactly one result or one diagnostic;
    and a batch of one Sell of a symbol that was never bought and N other
    Sells of whole units, which the Buy rows cover symbol by symbol,
    yields the N results of these and the one diagnostic.  The two
    statements on batches hold however the rows of equal date are
    sorted. *)
Theorem C6_shortfall_skips_the_sale :
  (forall (st : MatchState) (sell : Trade),
     book_inv (available_shares st) ->
     whole_lots (lots_for st sell) -> whole (Units sell) = true ->
     lots_for st sell = [] \/
     Qsum (map lot_units (lots_for st sell)) < Qabs (Units sell) ->
     exists st' w,
       process_sell st sell = Ok st'
       /\ results st' = results st
       /\ warnings st' = warnings st ++ [w]
       /\ lots_for st' sell = []
       /\ (forall sym, sym <> Symbol sell ->
             available_shares st' !! sym = available_shares st !! sym))
  /\ (forall (st : MatchState) (sell : Trade),
        book_inv (available_shares st) ->
        whole_lots (lots_for st sell) -> whole (Units sell) = true ->
        0 < Qabs (Units sell) ->
        Qabs (Units sell) <= Qsum (map lot_units (lots_for st sell)) ->
        exists st' r,
          process_sell st sell = Ok st'
          /\ results st' = results st ++ [r]
          /\ row_of_sale r = sale_of_row sell
          /\ warnings st' = warnings st)
  /\ (forall (sort : list Trade -> list Trade) (buys sells : list Trade),
        sorts_by_date sort ->
        nonzero_units buys -> nonzero_units sells ->
        exists st,
          match_trades_sorted_by sort buys sells = Ok st
          /\ (length (results st) + length (warnings st) = length sells)%nat)
  /\ (forall (sort : list Trade -> list Trade)
             (buys before after : list Trade) (bad : Trade),
        sorts_by_date sort ->
        nonzero_units buys -> nonzero_units (before ++ after) ->
        whole_units buys -> whole_units (before ++ after) ->
        ~ bought buys (Symbol bad) ->
        (forall X, units_asked X (before ++ after) <= units_bought X buys) ->
        exists st,
          match_trades_sorted_by sort buys (before ++ bad :: after) = Ok st
          /\ Permutation (map row_of_sale (results st))
                         (map sale_of_row (before ++ after))
          /\ length (results st) = length (before ++ after)
          /\ warnings st = [no_shares_warning bad])
  /\ sorts_by_date sort_values
  /\ (forall buys sells : list Trade,
        match_trades_run buys sells = match_trades_sorted_by sort_values buys sells).
Proof.
  split; [|split; [|split; [|split; [|split]]]].
  - intros st sell Hinv _ _ Hshort. unfold lots_for in *.
    destruct (process_sell_outcome st sell Hinv) as (st' & Hst' & Hout).
    exists st'.
    destruct Hout as [Hno|q Hq Hne Hz|q ms short Hq Hne Hlt Htr Hs|q ms q' Hq Hu Hle Hms Htr Hsum].
    + eexists. split; [exact Hst'|]. simpl. repeat split; try reflexivity.
      destruct Hno as [-> | ->]; reflexivity.
    + exfalso. rewrite Hq in Hshort. simpl in Hshort.
      destruct (Hinv _ _ Hq) as [Hpos _].
      pose proof (lots_positive_sum _ Hpos). destruct Hshort; [congruence | lra].
    + eexists. split; [exact Hst'|]. simpl. repeat split; try reflexivity.
      * now rewrite lookup_insert_eq.
      * intros sym Hsym. now rewrite lookup_insert_ne.
    + exfalso. rewrite Hq in Hshort. simpl in Hshort.
      destruct Hshort as [-> | Hlt]; [simpl in Hle|]; lra.
  - intros st sell Hinv _ _ Hpos Hle.
    destruct (process_sell_outcome st sell Hinv) as (st' & Hst' & Hout).
    destruct (sell_outcome_matchable st st' sell Hout Hpos Hle)
      as ((r & Hres & Hr) & Hw & _).
    exists st', r. repeat split; assumption.
  - intros sort buys sells Hs Hb Hnz.
    destruct (match_trades_sorted_by_ok sort buys sells Hs Hb) as (st & Hst & Hcount).
    exists st. split; [exact Hst | now apply Hcount].
  - intros sort buys before after bad Hs Hb Hnz _ _ Hbad Hcover.
    now apply one_unmatchable_sell.
  - exact sort_values_sorts.
  - reflexivity.
Qed.

Lemma C6_shortfall_skips_the_sale_witness :
  exists st,
    match_trades_run [buy_jun22; buy_jan22] [sell5_mar23; sell_y_mar23; sell5_feb23] = Ok st
    /\ length (results st) = 2%nat
    /\ warnings st = [no_shares_warning sell_y_mar23].
Proof.
  destruct (proj1 (proj2 (proj2 (proj2 C6_shortfall_skips_the_sale))) sort_values
              [buy_jun22; buy_jan22] [sell5_mar23] [sell5_feb23] sell_y_mar23)
    as (st & Hst & _ & Hlen & Hw).
  - exact (proj1 (proj2 (proj2 (proj2 (proj2 C6_shortfall_skips_the_sale))))).
  - concrete_nonzero.
  - concrete_nonzero.
  - concrete_whole.
  - concrete_whole.
  - unfold bought. simpl. rewrite !elem_of_cons, elem_of_nil. intuition discriminate.
  - intros X. unfold units_asked, units_bought, buys_of. cbn [app].
    rewrite !filter_cons, !filter_nil.
    cbv beta. cbn [Symbol sell5_mar23 sell5_feb23 buy_jun22 buy_jan22].
    destruct (decide ("X"%string = X)); vm_compute; discriminate.
  - exists st. split; [exact Hst|]. split; [exact Hlen | exact Hw].
Defined.

Example shortfall_batch :
  exists r1 r2 w,
    match_trades_run [buy_jun22; buy_jan22] [sell5_mar23; sell_y_mar23; sell5_feb23]
    = Ok {| available_shares := {[ "X" := [lot_of_buy buy_jun22] ]};
            results := [r1; r2];
            warnings := [w] |}
    /\ sell_date r1 = mkDate 2023 2 1 /\ sell_date r2 = mkDate 2023 3 1
    /\ w = NoAvailableShares "Y" (mkDate 2023 3 1).
Proof.
  do 3 eexists. split; [vm_compute; reflexivity|]. repeat split.
Qed.

Example shortfall_drains_the_book :
  exists w1 w2,
    match_trades_run [buy_jan22] [sell_feb23; sell5_mar23]
    = Ok {| available_shares := {[ "X" := [] ]};
            results := [];
            warnings := [w1; w2] |}
    /\ w1 = NotEnoughShares (15 - 10)
    /\ w2 = NoAvailableShares "X" (mkDate 2023 3 1).
Proof.
  do 2 eexists. split; [vm_compute; reflexivity|]. split; reflexivity.
Qed.

(* ===================================================================== *)
(** ** FIFO order (C2) *)
(* ===================================================================== *)

Lemma book_chronological_insert (book : gmap string (list Lot)) (sym : string)
  (q : list Lot) :
  book_chronological book -> chronological q ->
  book_chronological (<[sym := q]> book).
Proof.
  intros Hbook Hq sym' q' Hq'.
  destruct (decide (sym = sym')) as [->|Hne].
  - rewrite lookup_insert_eq in Hq'. now injection Hq' as <-.
  - rewrite lookup_insert_ne in Hq' by exact Hne. eapply Hbook, Hq'.
Qed.

Lemma process_sell_chronological (st st' : MatchState) (sell : Trade) :
  book_chronological (available_shares st) ->
  process_sell st sell = Ok st' ->
  book_chronological (available_shares st').
Proof.
  unfold process_sell. cbv zeta. intros Hbook Hstep.
  destruct (available_shares st !! Symbol sell) as [[|o rest]|] eqn:Hq;
    try (injection Hstep as <-; exact Hbook).
  destruct (while_loop (mkLoop (Qabs (Units sell)) (o :: rest) [] 0)) as [s|e] eqn:Hs;
    cbn [mbind result_bind] in Hstep; [|discriminate].
  apply while_loop_trace in Hs as (ms & _ & Htr).
  assert (Hnew : book_chronological (<[Symbol sell := shares_list s]> (available_shares st))).
  { apply book_chronological_insert; [exact Hbook|].
    eapply fifo_trace_chronological; [exact Htr|]. eapply Hbook, Hq. }
  destruct (Qltb 0 (remaining_to_sell s)); [injection Hstep as <-; exact Hnew|].
  destruct (matched_buys s) as [|m ms']; [injection Hstep as <-; exact Hnew|].
  case_sale_result r e; cbn [mbind result_bind] in Hstep; [|discriminate].
  injection Hstep as <-. exact Hnew.
Qed.

(** A request smaller than the head lot is served by the head lot alone. *)
Lemma while_loop_partial_head (r : Q) (o : Lot) (rest : list Lot)
  (m : list MatchedBuy) (c : Q) :
  0 < r -> r < lot_units o ->
  while_loop (mkLoop r (o :: rest) m c) =
  Ok (mkLoop (r - r) (set_units o (lot_units o - r) :: rest)
        (m ++ [mkMatched (lot_date o) r (lot_total_cost o * (r / lot_units o))])
        (c + lot_total_cost o * (r / lot_units o))).
Proof.
  intros Hr Hlt. rewrite while_loop_step.
  assert (loop_cond (mkLoop r (o :: rest) m c) = true) as ->.
  { unfold loop_cond; simpl. apply Qltb_lt in Hr. now rewrite Hr. }
  rewrite loop_body_head by lra. cbv zeta.
  destruct (py_min_cases r (lot_units o)) as [[Hlt' _]|[_ ->]]; [lra|].
  assert (Qle_bool (lot_units o - r) 0 = false) as -> by (apply Qle_bool_false; lra).
  apply while_loop_sated. lra.
Qed.

Lemma process_sell_partial_head (st : MatchState) (sell : Trade) (o : Lot)
  (rest : list Lot) :
  available_shares st !! Symbol sell = Some (o :: rest) ->
  0 < Qabs (Units sell) -> Qabs (Units sell) < lot_units o ->
  let u := Qabs (Units sell) in
  let p := mkMatched (lot_date o) u (lot_total_cost o * (u / lot_units o)) in
  process_sell st sell =
  Ok (add_result
        (set_book st (<[Symbol sell := set_units o (lot_units o - u) :: rest]>
                        (available_shares st)))
        (sale_record sell [p] (sale_proceeds sell)
           (parcel_totals sell u (sale_proceeds sell) [p] zero_totals))).
Proof.
  intros Hq Hu Hlt u p. unfold process_sell. cbv zeta. rewrite Hq.
  rewrite (while_loop_partial_head _ o rest [] 0 Hu Hlt).
  cbn [mbind result_bind remaining_to_sell matched_buys shares_list app].
  assert (Qltb 0 (Qabs (Units sell) - Qabs (Units sell)) = false) as ->
    by (apply Qltb_ge; lra).
  rewrite sale_result_ok by lra. reflexivity.
Qed.

(** A list sorted by date that permutes a strictly increasing one is that
    list. *)
Lemma sorted_perm_unique (l1 l2 : list Trade) :
  StronglySorted by_trade_date l1 ->
  StronglySorted (fun a b => date_lt (Trade_Date a) (Trade_Date b)) l2 ->
  Permutation l1 l2 -> l1 = l2.
Proof.
  intros H1 H2. revert l1 H1.
  induction H2 as [|a l2 Hs2 IH Ha]; intros l1 H1 Hperm.
  - now apply Permutation_nil_r in Hperm.
  - destruct l1 as [|x l1].
    { now apply Permutation_nil_cons in Hperm. }
    inversion H1 as [|? ? Hs1 Hx]; subst.
    assert (x = a) as ->.
    { assert (Hxin : In x (a :: l2))
        by (eapply Permutation_in; [exact Hperm | now left]).
      destruct Hxin as [<-|Hxin]; [reflexivity|].
      assert (Hain : In a (x :: l1))
        by (eapply Permutation_in; [symmetry; exact Hperm | now left]).
      destruct Hain as [->|Hain]; [reflexivity|].
      exfalso.
      rewrite Forall_forall in Ha, Hx.
      apply list_elem_of_In in Hxin, Hain.
      specialize (Ha _ Hxin). specialize (Hx _ Hain).
      unfold by_trade_date, date_le, date_lt in *. lia. }
    f_equal. apply IH; [exact Hs1|]. eapply Permutation_cons_inv, Hperm.
Qed.

(** C2: every queue of the lot book is ordered oldest acquisition first,
    after the Buy rows are loaded and after every Sell row; a Sell takes
    its units from the head of its symbol's queue, so that an older lot
    is taken whole and removed before any unit comes from a newer one,
    only the last lot touched being possibly split; in particular, with
    three lots of one symbol acquired on D1 < D2 < D3 (whatever the frame
    order), a sale of fewer units than the D1 lot holds is matched with
    the D1 lot alone and its whole cost base is the D1 lot's cost prorated
    by the units taken. *)
Theorem C2_fifo_order :
  (forall buys : list Trade, book_chronological (load_buys (sort_values buys)))
  /\ (forall (st st' : MatchState) (sell : Trade),
        book_chronological (available_shares st) ->
        process_sell st sell = Ok st' ->
        book_chronological (available_shares st'))
  /\ (forall (q : list Lot) (r : Q) (s : LoopState),
        while_loop (mkLoop r q [] 0) = Ok s ->
        fifo_trace q (matched_buys s) (shares_list s))
  /\ (forall (st : MatchState) (sell : Trade),
        book_inv (available_shares st) ->
        exists st',
          process_sell st sell = Ok st'
          /\ (results st' = results st
              \/ exists q ms q' r,
                   available_shares st !! Symbol sell = Some q
                   /\ fifo_trace q ms q'
                   /\ available_shares st' !! Symbol sell = Some q'
                   /\ results st' = results st ++ [r]
                   /\ buy_dates r = map mb_date ms))
  /\ (forall (b1 b2 b3 sell : Trade) (buys : list Trade),
        Permutation buys [b1; b2; b3] ->
        Symbol b1 = Symbol sell -> Symbol b2 = Symbol sell -> Symbol b3 = Symbol sell ->
        date_lt (Trade_Date b1) (Trade_Date b2) ->
        date_lt (Trade_Date b2) (Trade_Date b3) ->
        0 < Qabs (Units sell) -> Qabs (Units sell) < Qabs (Units b1) ->
        exists r,
          _match_trades buys [sell] = Ok [r]
          /\ buy_dates r = [Trade_Date b1]
          /\ cost_base r ==
             lot_total_cost (lot_of_buy b1) * (Qabs (Units sell) / Qabs (Units b1))).
Proof.
  split; [|split; [|split; [|split]]].
  - exact load_buys_chronological.
  - intros st st' sell. apply process_sell_chronological.
  - intros q r s Hs. apply while_loop_trace in Hs as (ms & Hms & Htr).
    simpl in Hms. now rewrite Hms.
  - intros st sell Hinv.
    destruct (process_sell_outcome st sell Hinv) as (st' & Hst' & Hout).
    exists st'. split; [exact Hst'|].
    destruct Hout as [_|q _ _ _|q ms short _ _ _ _ _|q ms q' Hq _ _ _ Htr _];
      try (left; reflexivity).
    right. exists q, ms, q'. eexists. split; [exact Hq|]. split; [exact Htr|].
    simpl. rewrite lookup_insert_eq. repeat split.
  - intros b1 b2 b3 sell buys Hperm H1 H2 H3 H12 H23 Hu Hlt.
    assert (Hsorted : sort_values buys = [b1; b2; b3]).
    { apply sorted_perm_unique.
      - apply sort_values_strongly_sorted.
      - repeat constructor; unfold date_lt in *; lia.
      - rewrite sort_values_perm. exact Hperm. }
    unfold _match_trades, match_trades_run. cbv zeta. rewrite Hsorted.
    cbn [sort_values fold_right insert_by_date foldM].
    assert (Hq : available_shares (initial_state [b1; b2; b3]) !! Symbol sell
                 = Some [lot_of_buy b1; lot_of_buy b2; lot_of_buy b3]).
    { simpl. rewrite load_buys_lookup. unfold buys_of.
      rewrite !filter_cons, filter_nil.
      destruct (decide (Symbol b1 = Symbol sell)); [|contradiction].
      destruct (decide (Symbol b2 = Symbol sell)); [|contradiction].
      destruct (decide (Symbol b3 = Symbol sell)); [|contradiction].
      reflexivity. }
    rewrite (process_sell_partial_head _ sell _ _ Hq Hu Hlt).
    cbn [mbind result_bind]. eexists. split; [reflexivity|].
    split; [reflexivity|]. simpl. unfold py_sum. simpl. lra.
Qed.

Lemma C2_fifo_order_witness :
  exists r,
    _match_trades [buy_sep22; buy_jan22; buy_jun22] [sell5_feb23] = Ok [r]
    /\ buy_dates r = [mkDate 2022 1 1]
    /\ cost_base r ==
       lot_total_cost (lot_of_buy buy_jan22) * (Qabs 5 / Qabs 10).
Proof.
  apply (proj2 (proj2 (proj2 (proj2 C2_fifo_order)))
           buy_jan22 buy_jun22 buy_sep22 sell5_feb23
           [buy_sep22; buy_jan22; buy_jun22]).
  - apply (Permutation_app_comm [buy_sep22] [buy_jan22; buy_jun22]).
  - reflexivity.
  - reflexivity.
  - reflexivity.
  - vm_compute. reflexivity.
  - vm_compute. reflexivity.
  - vm_compute. reflexivity.
  - vm_compute. reflexivity.
Defined.

(* ===================================================================== *)
(** ** Classification of a parcel (C3) *)
(* ===================================================================== *)

Lemma classify_discounted (t : Totals) (h : Z) (g : Q) :
  0 < g -> (365 <= h)%Z ->
  classify t h g =
  {| total_discounted_gain := total_discounted_gain t + g * 0.5;
     total_undiscounted_gain := total_undiscounted_gain t;
     total_loss := total_loss t |}.
Proof.
  intros Hg Hh. unfold classify, cgt_discount_days.
  apply Qltb_lt in Hg. rewrite Hg.
  apply Z.leb_le in Hh. now rewrite Hh.
Qed.

Lemma classify_undiscounted (t : Totals) (h : Z) (g : Q) :
  0 < g -> (h < 365)%Z ->
  classify t h g =
  {| total_discounted_gain := total_discounted_gain t;
     total_undiscounted_gain := total_undiscounted_gain t + g;
     total_loss := total_loss t |}.
Proof.
  intros Hg Hh. unfold classify, cgt_discount_days.
  apply Qltb_lt in Hg. rewrite Hg.
  apply Z.leb_gt in Hh. now rewrite Hh.
Qed.

Lemma classify_loss (t : Totals) (h : Z) (g : Q) :
  g <= 0 ->
  classify t h g =
  {| total_discounted_gain := total_discounted_gain t;
     total_undiscounted_gain := total_undiscounted_gain t;
     total_loss := total_loss t + g |}.
Proof.
  intros Hg. unfold classify. apply Qltb_ge in Hg. now rewrite Hg.
Qed.



(* ===================================================================== *)
(** ** Cost base, proceeds and gain of a sale (C4) *)
(* ===================================================================== *)

Lemma set_units_same (l : Lot) : set_units l (lot_units l) = l.
Proof. destruct l; reflexivity. Qed.

(** Consumption changes nothing of a lot but its units. *)
Lemma fifo_trace_only_units (q q' : list Lot) (ms : list MatchedBuy) :
  fifo_trace q ms q' ->
  Forall (fun l' => exists l, In l q /\ l' = set_units l (lot_units l')) q'.
Proof.
  induction 1 as [q|o rest p ms q' _ _ _ _ IH|o rest p _ _ _ _].
  - rewrite Forall_forall. intros l Hl. exists l. split.
    + now apply list_elem_of_In.
    + symmetry. apply set_units_same.
  - eapply Forall_impl; [exact IH|]. intros l' (l & Hl & Heq).
    exists l. split; [now right | exact Heq].
  - constructor.
    + exists o. split; [now left | reflexivity].
    + rewrite Forall_forall. intros l Hl. exists l. split.
      * right. now apply list_elem_of_In.
      * symmetry. apply set_units_same.
Qed.

(** C4: a Buy row makes a lot whose cost is
    (|value| + fees + GST) x rate, and consumption changes nothing of a
    lot but its remaining units; a Sell row that is accepted has positive
    units and its result is [sale_result] of the parcels cut from its
    symbol's queue; that result has proceeds
    (|value| - fees - GST) x rate computed once for the sale, gives each
    parcel the share units_taken / total_units_sold of the proceeds, a
    gain of that share minus the parcel's apportioned cost and a holding
    period of sell date minus acquisition date in days, and its total is
    the sum of the discounted, undiscounted and loss subtotals. *)
Theorem C4_cost_base_proceeds_and_gain
  (buy sell : Trade) (units_to_sell : Q) (matched : list MatchedBuy) :
  ~ units_to_sell == 0 ->
  lot_total_cost (lot_of_buy buy)
    = (Qabs (Value buy) + Fees buy + GST buy) * AUD_USD_rate buy
  /\ (forall (buys : list Trade) (sym : string) (q : list Lot),
        load_buys buys !! sym = Some q -> q = map lot_of_buy (buys_of sym buys))
  /\ (forall (r0 : Q) (q : list Lot) (m0 : list MatchedBuy) (c0 : Q) (s : LoopState),
        while_loop (mkLoop r0 q m0 c0) = Ok s ->
        Forall (fun l' => exists l, In l q /\ l' = set_units l (lot_units l'))
               (shares_list s))
  /\ (forall st : MatchState,
        book_inv (available_shares st) ->
        exists st',
          process_sell st sell = Ok st'
          /\ (results st' = results st
              \/ 0 < Qabs (Units sell)
                 /\ exists q ms q' r,
                      available_shares st !! Symbol sell = Some q
                      /\ fifo_trace q ms q'
                      /\ sale_result sell (Qabs (Units sell)) ms = Ok r
                      /\ results st' = results st ++ [r]))
  /\ exists r,
       sale_result sell units_to_sell matched = Ok r
       /\ proceeds r = (Qabs (Value sell) - Fees sell - GST sell) * AUD_USD_rate sell
       /\ Forall (fun m =>
            parcel_analysis sell units_to_sell (proceeds r) m
            = Ok (days_between (Trade_Date sell) (mb_date m),
                  (mb_units m / units_to_sell) * proceeds r,
                  (mb_units m / units_to_sell) * proceeds r - mb_cost m)) matched
       /\ (let t := fold_left
                      (fun t m =>
                         classify t (days_between (Trade_Date sell) (mb_date m))
                           ((mb_units m / units_to_sell) * proceeds r - mb_cost m))
                      matched zero_totals in
           discounted_gain r = total_discounted_gain t
           /\ undiscounted_gain r = total_undiscounted_gain t
           /\ capital_loss r = total_loss t)
       /\ total_gain_loss r = discounted_gain r + undiscounted_gain r + capital_loss r.
Proof.
  intros Hu. split; [reflexivity|]. split; [|split; [|split]].
  - intros buys sym q Hq. rewrite load_buys_lookup in Hq.
    destruct (buys_of sym buys); [discriminate | now inversion Hq].
  - intros r0 q m0 c0 s Hs. apply while_loop_trace in Hs as (ms & _ & Htr).
    eapply fifo_trace_only_units, Htr.
  - intros st Hinv.
    destruct (process_sell_outcome st sell Hinv) as (st' & Hst' & Hout).
    exists st'. split; [exact Hst'|].
    destruct Hout as [_|q _ _ _|q ms short _ _ _ _ _|q ms q' Hq Hpos _ _ Htr _];
      try (left; reflexivity).
    right. split; [exact Hpos|]. exists q, ms, q'. eexists.
    split; [exact Hq|]. split; [exact Htr|]. split; [|reflexivity].
    apply sale_result_ok. lra.
  - eexists. split; [apply sale_result_ok, Hu|]. simpl.
    split; [reflexivity|]. split; [|repeat split].
    rewrite Forall_forall. intros m _. apply parcel_analysis_ok, Hu.
Qed.

Lemma C4_cost_base_proceeds_and_gain_witness :
  exists r,
    sale_result sell_feb23 15
      [mkMatched (mkDate 2022 1 1) 10 1000; mkMatched (mkDate 2022 6 1) 5 550] = Ok r
    /\ proceeds r = (Qabs 2000 - 0 - 0) * 1
    /\ total_gain_loss r = discounted_gain r + undiscounted_gain r + capital_loss r.
Proof.
  destruct (C4_cost_base_proceeds_and_gain buy_jan22 sell_feb23 15
              [mkMatched (mkDate 2022 1 1) 10 1000; mkMatched (mkDate 2022 6 1) 5 550])
    as (_ & _ & _ & _ & r & Hr & Hp & _ & _ & Ht).
  - intros H. vm_compute in H. discriminate H.
  - exists r. split; [exact Hr|]. split; [exact Hp | exact Ht].
Defined.

(* ===================================================================== *)
(** ** Lots dated after the sale (C10) *)
(* ===================================================================== *)

(** A request that the head lot covers is served by the head lot alone. *)
Lemma while_loop_head_covers (r : Q) (o : Lot) (rest : list Lot)
  (m : list MatchedBuy) (c : Q) :
  0 < r -> r <= lot_units o ->
  while_loop (mkLoop r (o :: rest) m c) =
  Ok (mkLoop (r - r)
        (if Qle_bool (lot_units o - r) 0 then rest
         else set_units o (lot_units o - r) :: rest)
        (m ++ [mkMatched (lot_date o) r (lot_total_cost o * (r / lot_units o))])
        (c + lot_total_cost o * (r / lot_units o))).
Proof.
  intros Hr Hle. rewrite while_loop_step.
  assert (loop_cond (mkLoop r (o :: rest) m c) = true) as ->.
  { unfold loop_cond; simpl. apply Qltb_lt in Hr. now rewrite Hr. }
  rewrite loop_body_head by lra. cbv zeta.
  destruct (py_min_cases r (lot_units o)) as [[Hlt' _]|[_ ->]]; [lra|].
  apply while_loop_sated. lra.
Qed.

Lemma process_sell_head_covers (st : MatchState) (sell : Trade) (o : Lot)
  (rest : list Lot) :
  available_shares st !! Symbol sell = Some (o :: rest) ->
  0 < Qabs (Units sell) -> Qabs (Units sell) <= lot_units o ->
  let u := Qabs (Units sell) in
  let p := mkMatched (lot_date o) u (lot_total_cost o * (u / lot_units o)) in
  exists q',
    process_sell st sell =
    Ok (add_result (set_book st (<[Symbol sell := q']> (available_shares st)))
          (sale_record sell [p] (sale_proceeds sell)
             (parcel_totals sell u (sale_proceeds sell) [p] zero_totals))).
Proof.
  intros Hq Hu Hle u p. unfold process_sell. cbv zeta. rewrite Hq.
  rewrite (while_loop_head_covers _ o rest [] 0 Hu Hle).
  cbn [mbind result_bind remaining_to_sell matched_buys shares_list app].
  assert (Qltb 0 (Qabs (Units sell) - Qabs (Units sell)) = false) as ->
    by (apply Qltb_ge; lra).
  rewrite sale_result_ok by lra. eexists. reflexivity.
Qed.

(** C10: the Buy rows are all loaded before the first Sell row is
    processed, whatever their dates, so a Sell is matched with a lot
    acquired after the sell date: the sale is accepted, the parcel's
    holding period is negative, nothing of it reaches the discounted
    subtotal, and its gain, when positive, goes whole to the undiscounted
    subtotal. *)
Theorem C10_lot_dated_after_the_sale (b s : Trade) :
  Symbol b = Symbol s ->
  date_lt (Trade_Date s) (Trade_Date b) ->
  0 < Qabs (Units s) -> Qabs (Units s) <= Qabs (Units b) ->
  (forall (t : Totals) (g : Q) (sell : Trade) (m : MatchedBuy),
     date_lt (Trade_Date sell) (mb_date m) ->
     (holding_days sell m < 0)%Z
     /\ total_discounted_gain (classify t (holding_days sell m) g)
        = total_discounted_gain t
     /\ (0 < g ->
         total_undiscounted_gain (classify t (holding_days sell m) g)
         = total_undiscounted_gain t + g))
  /\ exists r m,
       _match_trades [b] [s] = Ok [r]
       /\ mb_date m = Trade_Date b
       /\ buy_dates r = [Trade_Date b]
       /\ holding_periods r = [holding_days s m]
       /\ (holding_days s m < 0)%Z
       /\ discounted_gain r = 0
       /\ (let g := parcel_gain_loss (Qabs (Units s)) (sale_proceeds s) m in
           (0 < g -> undiscounted_gain r = 0 + g /\ capital_loss r = 0)
           /\ (g <= 0 -> undiscounted_gain r = 0 /\ capital_loss r = 0 + g)).
Proof.
  intros Hsym Hdate Hu Hle.
  assert (Hgen : forall (t : Totals) (g : Q) (sell : Trade) (m : MatchedBuy),
             date_lt (Trade_Date sell) (mb_date m) ->
             (holding_days sell m < 0)%Z
             /\ total_discounted_gain (classify t (holding_days sell m) g)
                = total_discounted_gain t
             /\ (0 < g ->
                 total_undiscounted_gain (classify t (holding_days sell m) g)
                 = total_undiscounted_gain t + g)).
  { intros t g sell m Hlt.
    assert (Hneg : (holding_days sell m < 0)%Z).
    { unfold holding_days, days_between, date_lt in *. lia. }
    split; [exact Hneg|].
    destruct (Qlt_le_dec 0 g) as [Hg|Hg].
    - rewrite (classify_undiscounted t _ g Hg) by lia. simpl. split; reflexivity.
    - rewrite (classify_loss t _ g Hg). simpl. split; [reflexivity | intros; lra]. }
  split; [exact Hgen|].
  assert (Hq : available_shares (initial_state [b]) !! Symbol s = Some [lot_of_buy b]).
  { simpl. rewrite load_buys_lookup. unfold buys_of.
    rewrite filter_cons, filter_nil.
    destruct (decide (Symbol b = Symbol s)); [reflexivity | contradiction]. }
  destruct (process_sell_head_covers _ s _ _ Hq Hu Hle) as (q' & Hstep).
  cbv zeta in Hstep.
  unfold _match_trades, match_trades_run. cbv zeta.
  cbn [sort_values fold_right insert_by_date foldM].
  rewrite Hstep. cbn [mbind result_bind].
  set (m := mkMatched (lot_date (lot_of_buy b)) (Qabs (Units s))
              (lot_total_cost (lot_of_buy b)
               * (Qabs (Units s) / lot_units (lot_of_buy b)))).
  assert (Hm : date_lt (Trade_Date s) (mb_date m)) by exact Hdate.
  destruct (Hgen zero_totals (parcel_gain_loss (Qabs (Units s)) (sale_proceeds s) m)
              s m Hm) as (Hneg & _ & _).
  eexists. exists m. split; [reflexivity|].
  split; [reflexivity|]. split; [reflexivity|]. split; [reflexivity|].
  split; [exact Hneg|]. cbn [results add_result set_book app discounted_gain
    undiscounted_gain capital_loss sale_record parcel_totals fold_left].
  destruct (Qlt_le_dec 0 (parcel_gain_loss (Qabs (Units s)) (sale_proceeds s) m))
    as [Hg|Hg].
  - rewrite (classify_undiscounted zero_totals _ _ Hg) by lia. simpl.
    split; [reflexivity|]. split; [intros _; split; reflexivity | intros; lra].
  - rewrite (classify_loss zero_totals _ _ Hg). simpl.
    split; [reflexivity|]. split; [intros; lra | intros _; split; reflexivity].
Qed.

Lemma C10_lot_dated_after_the_sale_witness :
  exists r,
    _match_trades [buy_jun23] [sell5_feb23] = Ok [r]
    /\ buy_dates r = [mkDate 2023 6 1]
    /\ sell_date r = mkDate 2023 2 1
    /\ holding_periods r = [(-120)%Z]
    /\ discounted_gain r = 0
    /\ undiscounted_gain r == 500.
Proof.
  destruct (C10_lot_dated_after_the_sale buy_jun23 sell5_feb23)
    as (_ & r & m & Hr & _).
  - reflexivity.
  - vm_compute. reflexivity.
  - vm_compute. reflexivity.
  - vm_compute. discriminate.
  - exists r. split; [exact Hr|].
    vm_compute in Hr. injection Hr as <-. repeat split.
Defined.

(* ===================================================================== *)
(** ** The reporting period (C5) *)
(* ===================================================================== *)

Local Open Scope string_scope.

Lemma render_period_format (k : Z) :
  (0 <= k < 100)%Z ->
  spec_fy_format (render_period k) = ((10 <=? k) && (k <=? 98))%Z.
Proof.
  intros Hk.
  assert (Hall : forallb (fun n : nat =>
            Bool.eqb (spec_fy_format (render_period (Z.of_nat n)))
                     ((10 <=? Z.of_nat n) && (Z.of_nat n <=? 98))%Z)
            (seq 0 100) = true) by (vm_compute; reflexivity).
  rewrite forallb_forall in Hall.
  specialize (Hall (Z.to_nat k)).
  rewrite Z2Nat.id in Hall by lia.
  apply Bool.eqb_prop, Hall, in_seq. lia.
Qed.

Lemma financial_year_render (d : date) :
  _get_financial_year d = render_period (period_start d mod 100).
Proof.
  unfold _get_financial_year, render_period, period_start.
  destruct (7 <=? month d)%Z.
  - rewrite Zplus_mod_idemp_l. reflexivity.
  - rewrite Zplus_mod_idemp_l. replace (year d - 1 + 1)%Z with (year d) by lia.
    reflexivity.
Qed.

(** C5, the claim fails as stated: no zero is padded, so for a date in
    March 2005 the identifier is FY4_5, which is not of the form
    FY<YY>_<YY>, and for a date in July 2099 it is FY99_0. *)
Lemma C5_counterexample :
  _get_financial_year (mkDate 2005 3 1) = "FY4_5"
  /\ spec_fy_format (_get_financial_year (mkDate 2005 3 1)) = false
  /\ _get_financial_year (mkDate 2099 7 1) = "FY99_0"
  /\ spec_fy_format (_get_financial_year (mkDate 2099 7 1)) = false
  /\ spec_fy_format "FY23_24" = true.
Proof. repeat split. Qed.

(** C5, amended: the period of a date is a function of its month and year
    alone: from July on it starts in the date's year, before July in the
    year before; with [s] the starting year it is written
    "FY" + str(s mod 100) + "_" + str((s + 1) mod 100), plain decimal
    without padding, which has the form FY<YY>_<YY> exactly when
    10 <= s mod 100 <= 98; every row of the frame is given the period of
    its trade date and every Sale Result the period of its sell date. *)
Theorem C5_financial_year (d : date) :
  ((7 <= month d)%Z ->
     _get_financial_year d
     = "FY" ++ str (year d mod 100) ++ "_" ++ str ((year d + 1) mod 100))
  /\ ((month d < 7)%Z ->
        _get_financial_year d
        = "FY" ++ str ((year d - 1) mod 100) ++ "_" ++ str (year d mod 100))
  /\ (forall d' : date,
        month d' = month d -> year d' = year d ->
        _get_financial_year d' = _get_financial_year d)
  /\ (spec_fy_format (_get_financial_year d) = true
      <-> (10 <= period_start d mod 100 <= 98)%Z)
  /\ (forall df : list Trade,
        Forall2 (fun t fy => fy = _get_financial_year (Trade_Date t))
                df (financial_year_column df))
  /\ (forall (sell : Trade) (u : Q) (ms : list MatchedBuy) (r : SaleResult),
        sale_result sell u ms = Ok r ->
        financial_year r = _get_financial_year (Trade_Date sell)).
Proof.
  split; [|split; [|split; [|split; [|split]]]].
  - intros Hm. unfold _get_financial_year.
    apply Z.leb_le in Hm. now rewrite Hm.
  - intros Hm. unfold _get_financial_year.
    apply Z.leb_gt in Hm. now rewrite Hm.
  - intros d' Hmonth Hyear. unfold _get_financial_year. now rewrite Hmonth, Hyear.
  - rewrite financial_year_render, render_period_format
      by (apply Z.mod_pos_bound; lia).
    rewrite andb_true_iff, !Z.leb_le. reflexivity.
  - intros df. unfold financial_year_column.
    induction df as [|t df IH]; simpl; constructor; [reflexivity | exact IH].
  - intros sell u ms r Hr. unfold sale_result in Hr. cbv zeta in Hr.
    destruct (foldM _ ms _) as [t|e]; cbn [mbind result_bind] in Hr; [|discriminate].
    injection Hr as <-. reflexivity.
Qed.

Lemma C5_financial_year_witness :
  _get_financial_year (mkDate 2023 7 1) = "FY23_24"
  /\ _get_financial_year (mkDate 2024 6 30) = "FY23_24".
Proof.
  split.
  - apply (proj1 (C5_financial_year (mkDate 2023 7 1))). simpl. lia.
  - apply (proj1 (proj2 (C5_financial_year (mkDate 2024 6 30)))). simpl. lia.
Defined.

Local Close Scope string_scope.

(* ===================================================================== *)
(** ** The per-period summary (C8) *)
(* ===================================================================== *)

Lemma fold_trade_lookup (summary : gmap string PeriodSummary) (r : SaleResult)
  (fy : string) :
  fold_trade summary r !! fy =
  if decide (financial_year r = fy)
  then Some (bump (default zero_summary (summary !! fy)) r)
  else summary !! fy.
Proof.
  unfold fold_trade. cbv zeta.
  destruct (decide (financial_year r = fy)) as [<-|Hne].
  - rewrite lookup_insert_eq.
    destruct (summary !! financial_year r) as [old|] eqn:E.
    + rewrite E. reflexivity.
    + rewrite lookup_insert_eq. reflexivity.
  - rewrite lookup_insert_ne by exact Hne.
    destruct (summary !! financial_year r); [reflexivity|].
    now rewrite lookup_insert_ne.
Qed.

Lemma prepare_summary_snoc (rs : list SaleResult) (r : SaleResult) :
  _prepare_summary (rs ++ [r]) = fold_trade (_prepare_summary rs) r.
Proof. unfold _prepare_summary. now rewrite fold_left_app. Qed.

(** The summary in closed form: per period, the sums over its results. *)
Lemma prepare_summary_lookup (rs : list SaleResult) (fy : string) :
  match _prepare_summary rs !! fy with
  | None => in_period fy rs = []
  | Some s =>
      in_period fy rs <> []
      /\ total_gains s == Qsum (map gains_of (in_period fy rs))
      /\ total_losses s == Qsum (map losses_of (in_period fy rs))
      /\ net_position s = total_gains s - total_losses s
  end.
Proof.
  induction rs as [|r rs IH] using rev_ind.
  - unfold _prepare_summary. cbn [fold_left]. rewrite lookup_empty. reflexivity.
  - rewrite prepare_summary_snoc, fold_trade_lookup.
    unfold in_period in *. rewrite filter_app, filter_cons, filter_nil.
    destruct (decide (financial_year r = fy)) as [Heq|Hne].
    + split; [intros H; now apply app_eq_nil in H as [_ H]|].
      rewrite !map_app, !Qsum_app.
      change (Qsum (map gains_of [r])) with (gains_of r + 0).
      change (Qsum (map losses_of [r])) with (losses_of r + 0).
      destruct (_prepare_summary rs !! fy) as [old|];
        cbn [default from_option id bump total_gains total_losses net_position zero_summary].
      * destruct IH as (_ & Hg & Hl & _).
        split; [lra | split; [lra | reflexivity]].
      * rewrite IH. cbn [map Qsum fold_right].
        split; [lra | split; [lra | reflexivity]].
    + rewrite app_nil_r. exact IH.
Qed.

Section Accumulation.
Context {num : Type} `{Arith num}.

Lemma fold_trade_in_lookup (summary : gmap string (PeriodSums num))
  (r : SaleAmounts num) (fy : string) :
  fold_trade_in summary r !! fy =
  if decide (amt_financial_year r = fy)
  then
    let old := default (mkSums num_zero num_zero num_zero) (summary !! fy) in
    let gains := num_add (sum_total_gains old) (gains_in r) in
    let losses := num_add (sum_total_losses old) (losses_in r) in
    Some (mkSums gains losses (num_sub gains losses))
  else summary !! fy.
Proof.
  unfold fold_trade_in. cbv zeta.
  destruct (decide (amt_financial_year r = fy)) as [<-|Hne].
  - rewrite lookup_insert_eq.
    destruct (summary !! amt_financial_year r) as [old|] eqn:E.
    + rewrite E. reflexivity.
    + rewrite lookup_insert_eq. reflexivity.
  - rewrite lookup_insert_ne by exact Hne.
    destruct (summary !! amt_financial_year r); [reflexivity|].
    now rewrite lookup_insert_ne.
Qed.

Lemma prepare_summary_in_snoc (rs : list (SaleAmounts num)) (r : SaleAmounts num) :
  _prepare_summary_in (rs ++ [r]) = fold_trade_in (_prepare_summary_in rs) r.
Proof. unfold _prepare_summary_in. now rewrite fold_left_app. Qed.

Lemma period_sums_snoc (rows : list (SaleAmounts num)) (r : SaleAmounts num) :
  period_sums (rows ++ [r]) =
  let old := default (mkSums num_zero num_zero num_zero) (period_sums rows) in
  let gains := num_add (sum_total_gains old) (gains_in r) in
  let losses := num_add (sum_total_losses old) (losses_in r) in
  Some (mkSums gains losses (num_sub gains losses)).
Proof.
  destruct rows as [|a l]; [reflexivity|].
  cbn [app period_sums default from_option id sum_total_gains sum_total_losses map fold_left].
  cbv zeta. rewrite !map_app, !fold_left_app. reflexivity.
Qed.

(** The summary in closed form: the entry of a period is made of the
    running sums over the entries of that period, in the order of the
    list. *)
Lemma prepare_summary_in_lookup (rs : list (SaleAmounts num)) (fy : string) :
  _prepare_summary_in rs !! fy = period_sums (period_rows fy rs).
Proof.
  induction rs as [|r rs IH] using rev_ind.
  - unfold _prepare_summary_in. cbn [fold_left]. now rewrite lookup_empty.
  - rewrite prepare_summary_in_snoc, fold_trade_in_lookup, IH.
    unfold period_rows. rewrite filter_app, filter_cons, filter_nil.
    destruct (decide (amt_financial_year r = fy)) as [Heq|Hne].
    + now rewrite period_sums_snoc.
    + now rewrite app_nil_r.
Qed.

Lemma period_rows_perm (fy : string) (rs rs' : list (SaleAmounts num)) :
  Permutation rs rs' -> Permutation (period_rows fy rs) (period_rows fy rs').
Proof. intros Hp. unfold period_rows. now rewrite Hp. Qed.

Lemma period_sums_is_Some (rows : list (SaleAmounts num)) :
  is_Some (period_sums rows) <-> rows <> [].
Proof.
  destruct rows; simpl; split; intros Hx; try congruence.
  - now destruct Hx.
  - eauto.
Qed.

End Accumulation.

(** [fold_trade] and [_prepare_summary] are the loop on exact rationals. *)
Lemma prepare_summary_exact (rs : list SaleResult) :
  _prepare_summary_in (map amounts_of rs) = sums_of <$> _prepare_summary rs.
Proof.
  induction rs as [|r rs IH] using rev_ind.
  - unfold _prepare_summary_in, _prepare_summary. cbn [map fold_left].
    now rewrite fmap_empty.
  - rewrite map_app. cbn [map].
    rewrite prepare_summary_in_snoc, prepare_summary_snoc, IH.
    apply map_eq. intros fy.
    rewrite fold_trade_in_lookup, !lookup_fmap, fold_trade_lookup.
    cbn [amounts_of amt_financial_year].
    destruct (decide (financial_year r = fy)) as [_|_]; [|reflexivity].
    destruct (_prepare_summary rs !! fy) as [old|]; reflexivity.
Qed.




Example summary_of_two_sales :
  _prepare_summary [sale_gain_fy23; sale_loss_fy23] !! "FY22_23"%string
  = Some {| total_gains := 0 + (250 + 0) + (0 + 0);
            total_losses := 0 + Qabs 0 + Qabs (-200);
            net_position := (0 + (250 + 0) + (0 + 0)) - (0 + Qabs 0 + Qabs (-200)) |}.
Proof. vm_compute. reflexivity. Qed.

(* ===================================================================== *)
(** ** Rows that break the input invariants (C7) *)
(* ===================================================================== *)

(** C7, the claim fails as stated: a Buy row of -10 units is not
    rejected; it queues a lot of 10 units, and the next Sell is matched
    with it and produces a Sale Result. *)
Lemma C7_counterexample :
  Units buy_negative_jan22 < 0
  /\ load_buys [buy_negative_jan22] !! "X"%string
     = Some [lot_of_buy buy_negative_jan22]
  /\ lot_units (lot_of_buy buy_negative_jan22) == 10
  /\ exists summary r,
       process_data [buy_negative_jan22; sell5_feb23] = Ok (summary, [r])
       /\ buy_dates r = [Trade_Date buy_negative_jan22].
Proof.
  split; [vm_compute; reflexivity|].
  split; [vm_compute; reflexivity|].
  split; [vm_compute; reflexivity|].
  do 2 eexists. split; [vm_compute; reflexivity | reflexivity].
Qed.

Lemma select_side_drop (side : string) (before after : list Trade) (t : Trade) :
  Side t <> side ->
  select_side side (before ++ t :: after) = select_side side (before ++ after).
Proof.
  intros Hne. unfold select_side. rewrite !filter_app, filter_cons.
  destruct (decide (Side t = side)); [contradiction | reflexivity].
Qed.

(** C7, amended: the core validates nothing itself.  A row whose side is
    neither Buy nor Sell is dropped by the two side filters: the frames
    handed to [_match_trades] are those of the batch without it, so the
    lot book, the Sale Results, the summary and the diagnostics are what
    they are without it, and no diagnostic names it.  A Buy row is never
    rejected for its units: every Buy row queues one lot, of as many units
    as the absolute value of its units. *)
Theorem C7_unrecognised_side_is_dropped (before after : list Trade) (t : Trade) :
  Side t <> "Buy"%string -> Side t <> "Sell"%string ->
  select_side "Buy" (before ++ t :: after) = select_side "Buy" (before ++ after)
  /\ select_side "Sell" (before ++ t :: after) = select_side "Sell" (before ++ after)
  /\ match_trades_run (select_side "Buy" (before ++ t :: after))
                      (select_side "Sell" (before ++ t :: after))
     = match_trades_run (select_side "Buy" (before ++ after))
                        (select_side "Sell" (before ++ after))
  /\ process_data (before ++ t :: after) = process_data (before ++ after)
  /\ (forall (buys : list Trade) (sym : string),
        default [] (load_buys buys !! sym) = map lot_of_buy (buys_of sym buys))
  /\ (forall b : Trade, lot_units (lot_of_buy b) = Qabs (Units b)).
Proof.
  intros Hbuy Hsell.
  pose proof (select_side_drop "Buy" before after t Hbuy) as Eb.
  pose proof (select_side_drop "Sell" before after t Hsell) as Es.
  split; [exact Eb|]. split; [exact Es|].
  split; [now rewrite Eb, Es|].
  split; [unfold process_data; cbv zeta; now rewrite Eb, Es|].
  split; [|reflexivity].
  intros buys sym. rewrite load_buys_lookup.
  destruct (buys_of sym buys); reflexivity.
Qed.

Lemma C7_unrecognised_side_is_dropped_witness :
  process_data ([buy_jan22] ++ hold_jan22 :: [sell5_feb23])
  = process_data ([buy_jan22] ++ [sell5_feb23]).
Proof.
  apply (C7_unrecognised_side_is_dropped [buy_jan22] [sell5_feb23] hold_jan22).
  - intros H. vm_compute in H. discriminate H.
  - intros H. vm_compute in H. discriminate H.
Defined.

(* ===================================================================== *)
(** ** A lot consumed by two sales (C1) *)
(* ===================================================================== *)

(** Each parcel takes from its lot exactly the units it records, and the
    cost it records is the lot's whole cost times the share of the units
    the lot still held. *)
Lemma consumption_units_and_cost (r : Q) (o : Lot) (rest : list Lot) :
  0 < r -> r < lot_units o ->
  exists s p,
    while_loop (mkLoop r (o :: rest) [] 0) = Ok s
    /\ matched_buys s = [p]
    /\ mb_units p = r
    /\ mb_cost p = lot_total_cost o * (r / lot_units o)
    /\ exists o', shares_list s = o' :: rest
         /\ lot_units o' = lot_units o - r
         /\ lot_total_cost o' = lot_total_cost o.
Proof.
  intros Hr Hlt. rewrite (while_loop_partial_head r o rest [] 0 Hr Hlt).
  do 2 eexists. split; [reflexivity|]. simpl.
  split; [reflexivity|]. split; [reflexivity|]. split; [reflexivity|].
  eexists. split; [reflexivity|]. split; reflexivity.
Qed.

(** C1, on the code: a lot of 10 units that cost 1000 is sold in two
    sales of 5 units.  Each sale reduces the lot by the 5 units it takes
    and the second empties it, but the first is given a cost of 500 and
    the second the whole 1000, because the lot's cost is never reduced
    while its units are: the costs apportioned to the lot add up to 1500,
    not to its cost of 1000. *)
Theorem C1_cost_apportioned_twice :
  exists r1 r2,
    match_trades_run [buy_jan22] [sell5_feb23; sell5_mar23]
    = Ok {| available_shares := {[ "X"%string := [] ]};
            results := [r1; r2];
            warnings := [] |}
    /\ lot_units (lot_of_buy buy_jan22) == 10
    /\ lot_total_cost (lot_of_buy buy_jan22) == 1000
    /\ units r1 == 5 /\ units r2 == 5
    /\ cost_base r1 == 500
    /\ cost_base r2 == 1000
    /\ cost_base r1 + cost_base r2 == 1500
    /\ ~ cost_base r1 + cost_base r2 == lot_total_cost (lot_of_buy buy_jan22).
Proof.
  do 2 eexists. split; [vm_compute; reflexivity|].
  repeat split; try (vm_compute; reflexivity).
  intros H. vm_compute in H. discriminate H.
Qed.

(* ===================================================================== *)
(** ** Further properties of the sell loop *)
(* ===================================================================== *)

Lemma sale_result_inv (sell : Trade) (u : Q) (ms : list MatchedBuy) (r : SaleResult) :
  sale_result sell u ms = Ok r ->
  exists t,
    foldM (parcel_step sell u (sale_proceeds sell)) ms zero_totals = Ok t
    /\ r = sale_record sell ms (sale_proceeds sell) t.
Proof.
  unfold sale_result. cbv zeta. fold zero_totals. intros H.
  destruct (foldM (parcel_step sell u (sale_proceeds sell)) ms zero_totals) as [t|e];
    cbn [mbind result_bind] in H; [|discriminate].
  exists t. split; [reflexivity|]. now injection H as <-.
Qed.

(** One row of the sell loop touches the queue of its own symbol only,
    and adds at most one result, which is a result of [sale_result] for
    that row. *)
Lemma process_sell_frame (st st' : MatchState) (sell : Trade) :
  process_sell st sell = Ok st' ->
  (forall sym, sym <> Symbol sell ->
     available_shares st' !! sym = available_shares st !! sym)
  /\ (results st' = results st
      \/ exists ms r,
           sale_result sell (Qabs (Units sell)) ms = Ok r
           /\ results st' = results st ++ [r]).
Proof.
  unfold process_sell. cbv zeta. intros Hstep.
  destruct (available_shares st !! Symbol sell) as [[|o rest]|] eqn:Hq;
    try (injection Hstep as <-; split; [reflexivity | left; reflexivity]).
  case_while_loop s e; cbn [mbind result_bind] in Hstep; [|discriminate].
  assert (Hother : forall sym, sym <> Symbol sell ->
            <[Symbol sell := shares_list s]> (available_shares st) !! sym
            = available_shares st !! sym).
  { intros sym Hne. now rewrite lookup_insert_ne. }
  destruct (Qltb 0 (remaining_to_sell s)).
  { injection Hstep as <-. split; [exact Hother | left; reflexivity]. }
  destruct (matched_buys s) as [|m ms] eqn:Hms.
  { injection Hstep as <-. split; [exact Hother | left; reflexivity]. }
  destruct (sale_result sell (Qabs (Units sell)) (m :: ms)) as [r|e] eqn:Hr;
    cbn [mbind result_bind] in Hstep; [|discriminate].
  injection Hstep as <-. split; [exact Hother|].
  right. exists (m :: ms), r. split; [exact Hr | reflexivity].
Qed.

Lemma sale_result_row (sell : Trade) (u : Q) (ms : list MatchedBuy) (r : SaleResult) :
  sale_result sell u ms = Ok r -> row_of_sale r = sale_of_row sell.
Proof.
  intros H. apply sale_result_inv in H as (t & _ & ->). reflexivity.
Qed.

Lemma sell_loop_rows (rows : list Trade) :
  forall st st',
  foldM process_sell rows st = Ok st' ->
  exists new,
    results st' = results st ++ new
    /\ map row_of_sale new `sublist_of` map sale_of_row rows.
Proof.
  induction rows as [|row rows IH]; intros st st' Hrun; cbn [foldM] in Hrun.
  - injection Hrun as <-. exists []. rewrite app_nil_r. split; [reflexivity|constructor].
  - destruct (process_sell st row) as [st1|e] eqn:Hstep;
      cbn [mbind result_bind] in Hrun; [|discriminate].
    apply IH in Hrun as (new & Hnew & Hsub).
    apply process_sell_frame in Hstep as [_ [Hsame|(ms & r & Hr & Hadd)]].
    + exists new. rewrite Hnew, Hsame. split; [reflexivity|].
      simpl. now constructor.
    + exists (r :: new). rewrite Hnew, Hadd, <- app_assoc. split; [reflexivity|].
      simpl. rewrite (sale_result_row _ _ _ _ Hr). now constructor.
Qed.

Lemma sublist_strongly_sorted {A : Type} (R : A -> A -> Prop) (l1 l2 : list A) :
  l1 `sublist_of` l2 -> StronglySorted R l2 -> StronglySorted R l1.
Proof.
  induction 1 as [|x l1 l2 Hsub IH|x l1 l2 Hsub IH]; intros Hs.
  - constructor.
  - inversion Hs as [|? ? Hs' Hall]; subst. constructor; [now apply IH|].
    rewrite Forall_forall in *. intros y Hy. apply Hall.
    eapply elem_of_sublist; eassumption.
  - inversion Hs; subst. now apply IH.
Qed.

Lemma sublist_map {A B : Type} (f : A -> B) (l1 l2 : list A) :
  l1 `sublist_of` l2 -> map f l1 `sublist_of` map f l2.
Proof.
  induction 1; simpl; now constructor.
Qed.

Lemma map_trade_date_sorted (rows : list Trade) :
  StronglySorted by_trade_date rows ->
  StronglySorted date_le (map (fun p : string * date * Q => snd (fst p))
                              (map sale_of_row rows)).
Proof.
  induction 1 as [|r rows _ IH Hall]; simpl; constructor.
  - exact IH.
  - rewrite map_map. simpl. rewrite Forall_map. exact Hall.
Qed.

(** The Sale Results of a run are the Sell rows that were accepted, in
    the order of their trade dates: reading symbol, date and units off
    the results gives a sublist of the Sell rows sorted by date.  So
    there is at most one result per Sell row and the results come out in
    chronological order, whatever the order of the rows in the frame. *)
Theorem results_follow_the_sorted_sells (buys sells : list Trade) (rs : list SaleResult) :
  _match_trades buys sells = Ok rs ->
  map row_of_sale rs `sublist_of` map sale_of_row (sort_values sells)
  /\ Sorted date_le (map sell_date rs)
  /\ (length rs <= length sells)%nat.
Proof.
  unfold _match_trades, match_trades_run. cbv zeta. intros H.
  destruct (foldM process_sell (sort_values sells) (initial_state (sort_values buys)))
    as [st|e] eqn:Hrun; cbn [mbind result_bind] in H; [|discriminate].
  injection H as <-.
  apply sell_loop_rows in Hrun as (new & Hnew & Hsub). simpl in Hnew. subst new.
  split; [exact Hsub|]. split.
  - apply StronglySorted_Sorted.
    replace (map sell_date (results st))
      with (map (fun p : string * date * Q => snd (fst p)) (map row_of_sale (results st)))
      by (rewrite map_map; reflexivity).
    eapply sublist_strongly_sorted; [apply sublist_map, Hsub|].
    apply map_trade_date_sorted, sort_values_strongly_sorted.
  - apply sublist_length in Hsub. rewrite !length_map, sort_values_length in Hsub.
    exact Hsub.
Qed.

Lemma results_follow_the_sorted_sells_witness :
  Sorted date_le
    (map sell_date
       [sale_record sell5_feb23 [mkMatched (mkDate 2022 1 1) 5 (1000 * (5 / 10))]
          (sale_proceeds sell5_feb23)
          (parcel_totals sell5_feb23 (Qabs 5) (sale_proceeds sell5_feb23)
             [mkMatched (mkDate 2022 1 1) 5 (1000 * (5 / 10))] zero_totals)]).
Proof.
  apply (results_follow_the_sorted_sells [buy_jan22] [sell_y_mar23; sell5_feb23]).
  vm_compute. reflexivity.
Defined.

Lemma sell_loop_empty_book (rows : list Trade) :
  forall st, available_shares st = ∅ ->
  foldM process_sell rows st =
  Ok {| available_shares := ∅;
        results := results st;
        warnings := warnings st ++
          map (fun row => NoAvailableShares (Symbol row) (Trade_Date row)) rows |}.
Proof.
  induction rows as [|row rows IH]; intros st Hempty; cbn [foldM map].
  - rewrite app_nil_r, <- Hempty. now destruct st.
  - rewrite process_sell_unknown by (rewrite Hempty; apply lookup_empty).
    cbn [mbind result_bind]. rewrite IH by exact Hempty.
    simpl. now rewrite <- app_assoc.
Qed.

(** A batch without Buy rows, or without Sell rows, is not an error: with
    no Buy row every Sell row is turned down with one "no available
    shares" warning, in date order, and there is no result; with no Sell
    row the lots are loaded and nothing else happens, whatever the units
    of the Buy rows. *)
Theorem batch_without_buys_or_sells (rows : list Trade) :
  match_trades_run [] rows
  = Ok {| available_shares := ∅;
          results := [];
          warnings := map (fun row => NoAvailableShares (Symbol row) (Trade_Date row))
                          (sort_values rows) |}
  /\ _match_trades [] rows = Ok []
  /\ match_trades_run rows [] = Ok (initial_state (sort_values rows))
  /\ _match_trades rows [] = Ok [].
Proof.
  assert (H : match_trades_run [] rows
    = Ok {| available_shares := ∅;
            results := [];
            warnings := map (fun row => NoAvailableShares (Symbol row) (Trade_Date row))
                            (sort_values rows) |}).
  { unfold match_trades_run. cbv zeta.
    now rewrite sell_loop_empty_book by reflexivity. }
  split; [exact H|]. split; [unfold _match_trades; now rewrite H|].
  split; reflexivity.
Qed.

(* ===================================================================== *)
(** ** Signs of the subtotals *)
(* ===================================================================== *)

Lemma classify_signed (t : Totals) (h : Z) (g : Q) :
  totals_signed t -> totals_signed (classify t h g).
Proof.
  unfold totals_signed. intros (Hd & Hu & Hl).
  destruct (Qlt_le_dec 0 g) as [Hg|Hg].
  - destruct (Z_le_gt_dec 365 h) as [Hh|Hh].
    + rewrite (classify_discounted t h g Hg Hh). simpl.
      split; [|split]; try assumption.
      assert (0 <= g * 0.5) by (apply Qmult_le_0_compat; lra). lra.
    + rewrite (classify_undiscounted t h g Hg) by lia. simpl.
      split; [|split]; try assumption. lra.
  - rewrite (classify_loss t h g Hg). simpl.
    split; [|split]; try assumption. lra.
Qed.

Lemma parcel_step_cases (sell : Trade) (u p : Q) (t : Totals) (m : MatchedBuy) :
  parcel_step sell u p t m =
  match parcel_analysis sell u p m with
  | Ok (holding_period, _, gain) => Ok (classify t holding_period gain)
  | Raise e => Raise e
  end.
Proof.
  unfold parcel_step.
  destruct (parcel_analysis sell u p m) as [[[hp pp] gl]|e]; reflexivity.
Qed.

Lemma foldM_parcel_step_signed (sell : Trade) (u p : Q) (ms : list MatchedBuy) :
  forall t t', foldM (parcel_step sell u p) ms t = Ok t' ->
  totals_signed t -> totals_signed t'.
Proof.
  induction ms as [|m ms IH]; intros t t' H Ht; cbn [foldM] in H.
  - now injection H as <-.
  - rewrite parcel_step_cases in H.
    destruct (parcel_analysis sell u p m) as [[[hp pp] gl]|e];
      cbn [mbind result_bind] in H; [|discriminate].
    eapply IH; [exact H|]. now apply classify_signed.
Qed.

(** Whatever the parcels, a Sale Result never carries a negative gain
    subtotal nor a positive loss subtotal, and its total is at most the
    sum of its two gain subtotals. *)
Theorem sale_result_signs (sell : Trade) (u : Q) (ms : list MatchedBuy) (r : SaleResult) :
  sale_result sell u ms = Ok r ->
  0 <= discounted_gain r
  /\ 0 <= undiscounted_gain r
  /\ capital_loss r <= 0
  /\ total_gain_loss r <= discounted_gain r + undiscounted_gain r.
Proof.
  intros H. apply sale_result_inv in H as (t & Ht & ->).
  apply foldM_parcel_step_signed in Ht as (Hd & Hu & Hl).
  - simpl. repeat split; try assumption. lra.
  - unfold totals_signed, zero_totals. simpl. repeat split; lra.
Qed.

Lemma sale_result_signs_witness :
  exists r,
    sale_result sell_feb23 15
      [mkMatched (mkDate 2022 1 1) 10 1000; mkMatched (mkDate 2022 6 1) 5 800] = Ok r
    /\ 0 <= discounted_gain r /\ capital_loss r <= 0.
Proof.
  eexists. split; [vm_compute; reflexivity|].
  destruct (sale_result_signs sell_feb23 15
              [mkMatched (mkDate 2022 1 1) 10 1000; mkMatched (mkDate 2022 6 1) 5 800]
              _ eq_refl) as (Hd & _ & Hl & _).
  split; [exact Hd | exact Hl].
Defined.

(** A property of every result of [sale_result] holds of every result of
    the sell loop. *)
Lemma sell_loop_results (P : SaleResult -> Prop) (rows : list Trade) :
  (forall sell u ms r, sale_result sell u ms = Ok r -> P r) ->
  forall st st',
  foldM process_sell rows st = Ok st' ->
  Forall P (results st) -> Forall P (results st').
Proof.
  intros HP. induction rows as [|row rows IH]; intros st st' Hrun Hst;
    cbn [foldM] in Hrun.
  - now injection Hrun as <-.
  - destruct (process_sell st row) as [st1|e] eqn:Hstep;
      cbn [mbind result_bind] in Hrun; [|discriminate].
    eapply IH; [exact Hrun|].
    apply process_sell_frame in Hstep as [_ [->|(ms & r & Hr & ->)]].
    + exact Hst.
    + apply Forall_app. split; [exact Hst|]. constructor; [|constructor].
      eapply HP, Hr.
Qed.

(** Every period of the summary of a batch has non-negative total gains
    and total losses, a net position that is their difference, and at
    least one Sale Result behind it: no period appears for a Buy row or
    for a Sell row that was turned down. *)
Theorem summary_totals_signed (df : list Trade)
  (summary : gmap string PeriodSummary) (rs : list SaleResult)
  (fy : string) (s : PeriodSummary) :
  process_data df = Ok (summary, rs) ->
  summary !! fy = Some s ->
  0 <= total_gains s
  /\ 0 <= total_losses s
  /\ net_position s = total_gains s - total_losses s
  /\ exists r, r ∈ rs /\ financial_year r = fy.
Proof.
  unfold process_data, _match_trades, match_trades_run. cbv zeta. intros Hdata Hs.
  destruct (foldM process_sell (sort_values (select_side "Sell" df))
              (initial_state (sort_values (select_side "Buy" df))))
    as [st|e] eqn:Hrun; cbn [mbind result_bind] in Hdata; [|discriminate].
  injection Hdata as <- <-.
  assert (Hsigned : Forall (fun r => 0 <= discounted_gain r /\ 0 <= undiscounted_gain r)
                           (results st)).
  { eapply sell_loop_results; [|exact Hrun|constructor].
    intros sell u ms r Hr. apply sale_result_signs in Hr as (Hd & Hu & _). now split. }
  pose proof (prepare_summary_lookup (results st) fy) as Hclosed.
  rewrite Hs in Hclosed. destruct Hclosed as (Hne & Hg & Hl & Hn).
  split; [|split; [|split; [exact Hn|]]].
  - rewrite Hg. apply Qsum_nonneg. rewrite Forall_map.
    rewrite Forall_forall in *. intros r Hr.
    apply list_elem_of_filter in Hr as [_ Hr].
    destruct (Hsigned r Hr). unfold gains_of. lra.
  - rewrite Hl. apply Qsum_nonneg. rewrite Forall_map.
    rewrite Forall_forall. intros r _. apply Qabs_nonneg.
  - unfold in_period in Hne.
    destruct (filter (fun r => financial_year r = fy) (results st)) as [|r l] eqn:Hf;
      [congruence|].
    assert (Hin : r ∈ filter (fun r => financial_year r = fy) (results st))
      by (rewrite Hf; left).
    apply list_elem_of_filter in Hin as [Hfy Hin]. now exists r.
Qed.

Lemma summary_totals_signed_witness :
  exists summary rs s,
    process_data [buy_jan22; sell5_feb23] = Ok (summary, rs)
    /\ summary !! "FY22_23"%string = Some s
    /\ 0 <= total_gains s.
Proof.
  do 3 eexists. split; [vm_compute; reflexivity|].
  split; [vm_compute; reflexivity|].
  eapply (summary_totals_signed [buy_jan22; sell5_feb23] _ _ "FY22_23" _);
    vm_compute; reflexivity.
Defined.

(* ===================================================================== *)
(** ** Symbols do not interfere *)
(* ===================================================================== *)

Lemma sale_result_symbol (sell : Trade) (u : Q) (ms : list MatchedBuy) (r : SaleResult) :
  sale_result sell u ms = Ok r -> symbol r = Symbol sell.
Proof. intros H. apply sale_result_inv in H as (t & _ & ->). reflexivity. Qed.

(** What a row does depends on the queue of its symbol alone. *)
Lemma process_sell_local (a b : MatchState) (sell : Trade) :
  available_shares a !! Symbol sell = available_shares b !! Symbol sell ->
  match process_sell a sell, process_sell b sell with
  | Ok a', Ok b' =>
      available_shares a' !! Symbol sell = available_shares b' !! Symbol sell
      /\ ((results a' = results a /\ results b' = results b)
          \/ exists r, symbol r = Symbol sell
               /\ results a' = results a ++ [r] /\ results b' = results b ++ [r])
  | Raise e, Raise e' => e = e'
  | _, _ => False
  end.
Proof.
  intros Hq. unfold process_sell. cbv zeta. rewrite <- Hq.
  destruct (available_shares a !! Symbol sell) as [[|o rest]|] eqn:Ha.
  - simpl. split; [congruence | left; split; reflexivity].
  - case_while_loop s e; cbn [mbind result_bind]; [|reflexivity].
    destruct (Qltb 0 (remaining_to_sell s)).
    { simpl. rewrite !lookup_insert_eq. split; [reflexivity | left; split; reflexivity]. }
    destruct (matched_buys s) as [|m ms].
    { simpl. rewrite !lookup_insert_eq. split; [reflexivity | left; split; reflexivity]. }
    destruct (sale_result sell (Qabs (Units sell)) (m :: ms)) as [r|e] eqn:Hr;
      cbn [mbind result_bind]; [|reflexivity].
    simpl. rewrite !lookup_insert_eq. split; [reflexivity|].
    right. exists r. split; [eapply sale_result_symbol, Hr | split; reflexivity].
  - simpl. split; [congruence | left; split; reflexivity].
Qed.

Lemma results_of_snoc (X : string) (rs : list SaleResult) (r : SaleResult) :
  results_of X (rs ++ [r])
  = if decide (symbol r = X) then results_of X rs ++ [r] else results_of X rs.
Proof.
  unfold results_of. rewrite filter_app, filter_cons, filter_nil.
  destruct (decide (symbol r = X)); [reflexivity | apply app_nil_r].
Qed.

Lemma sell_loop_seen_from (X : string) (rows : list Trade) :
  forall st stX st',
  seen_from X st stX ->
  foldM process_sell rows st = Ok st' ->
  exists stX',
    foldM process_sell (buys_of X rows) stX = Ok stX' /\ seen_from X st' stX'.
Proof.
  unfold buys_of.
  induction rows as [|row rows IH]; intros st stX st' Hseen Hrun; cbn [foldM] in Hrun.
  - injection Hrun as <-. exists stX. split; [reflexivity | exact Hseen].
  - destruct (process_sell st row) as [st1|e] eqn:Hstep;
      cbn [mbind result_bind] in Hrun; [|discriminate].
    destruct Hseen as [Hbook Hres].
    rewrite filter_cons. destruct (decide (Symbol row = X)) as [Heq|Hne].
    + cbn [foldM].
      pose proof (process_sell_local st stX row) as Hloc.
      rewrite Hstep in Hloc. rewrite Heq in Hloc.
      destruct (process_sell stX row) as [stX1|e];
        [|exfalso; apply Hloc; now rewrite Hbook].
      cbn [mbind result_bind].
      destruct Hloc as [Hbook1 Hres1]; [now rewrite Hbook|].
      eapply IH; [|exact Hrun]. split; [now rewrite Hbook1|].
      destruct Hres1 as [[-> ->]|(r & Hr & -> & ->)]; [exact Hres|].
      rewrite results_of_snoc, Hres.
      destruct (decide (symbol r = X)); [reflexivity | congruence].
    + eapply IH; [|exact Hrun].
      apply process_sell_frame in Hstep as [Hother Hres1].
      split; [rewrite Hother by congruence; exact Hbook|].
      destruct Hres1 as [->|(ms & r & Hr & ->)]; [exact Hres|].
      rewrite results_of_snoc.
      apply sale_result_symbol in Hr.
      destruct (decide (symbol r = X)); [congruence | exact Hres].
Qed.

Lemma strictly_sorted (rows : list Trade) :
  StronglySorted by_trade_date rows -> distinct_dates rows ->
  StronglySorted (fun a b => date_lt (Trade_Date a) (Trade_Date b)) rows.
Proof.
  unfold distinct_dates.
  induction 1 as [|a l _ IH Hall]; intros Hnd; constructor.
  - apply IH. now inversion Hnd.
  - inversion Hnd as [|? ? Hnotin _]; subst.
    rewrite Forall_forall in *. intros x Hx.
    specialize (Hall _ Hx).
    assert (toordinal (Trade_Date a) <> toordinal (Trade_Date x)).
    { intros Heq. apply Hnotin. rewrite Heq.
      apply (list_elem_of_fmap_2 (fun t => toordinal (Trade_Date t))), Hx. }
    unfold by_trade_date, date_le, date_lt in *. lia.
Qed.

Lemma distinct_dates_perm (rows rows' : list Trade) :
  Permutation rows rows' -> distinct_dates rows' -> distinct_dates rows.
Proof. intros Hp. unfold distinct_dates. now rewrite Hp. Qed.

(** With no two rows of a symbol dated the same day, every sorting by
    date puts the rows of that symbol in the same order. *)
Lemma sorted_rows_of_symbol (sort : list Trade -> list Trade) (X : string)
  (rows : list Trade) :
  sorts_by_date sort -> distinct_dates (buys_of X rows) ->
  buys_of X (sort rows) = sort (buys_of X rows).
Proof.
  intros Hs Hd. apply sorted_perm_unique.
  - apply strongly_sorted_filter. now apply sorts_by_date_strongly.
  - apply strictly_sorted; [now apply sorts_by_date_strongly|].
    eapply distinct_dates_perm; [apply Hs | exact Hd].
  - etransitivity; [apply buys_of_perm, Hs|]. symmetry. apply Hs.
Qed.

Lemma buys_of_all (X : string) (rows : list Trade) :
  Forall (fun row => Symbol row = X) rows -> buys_of X rows = rows.
Proof. apply filter_all. Qed.

Lemma sorted_symbol_rows (sort : list Trade -> list Trade) (X : string)
  (rows : list Trade) :
  sorts_by_date sort -> buys_of X (sort (buys_of X rows)) = sort (buys_of X rows).
Proof.
  intros Hs. apply buys_of_all. rewrite Forall_forall. intros row Hin.
  assert (Hin' : row ∈ buys_of X rows).
  { eapply elem_of_Permutation_proper; [symmetry; apply Hs | exact Hin]. }
  now apply list_elem_of_filter in Hin' as [Hsym _].
Qed.

(** Symbols do not interfere: when no two Buy rows and no two Sell rows
    of a symbol are dated the same day, the results a batch gives for
    that symbol are the results of the batch reduced to the rows of that
    symbol, however the frame is sorted by date.  Rows of other symbols
    change neither whether a sale of this symbol is accepted nor any
    figure of its result. *)
Theorem symbols_do_not_interfere (sort : list Trade -> list Trade) (X : string)
  (buys sells : list Trade) (st : MatchState) :
  sorts_by_date sort ->
  distinct_dates (buys_of X buys) -> distinct_dates (buys_of X sells) ->
  match_trades_sorted_by sort buys sells = Ok st ->
  exists stX,
    match_trades_sorted_by sort (buys_of X buys) (buys_of X sells) = Ok stX
    /\ results stX = results_of X (results st).
Proof.
  unfold match_trades_sorted_by. cbv zeta. intros Hs Hdb Hds Hrun.
  destruct (sell_loop_seen_from X (sort sells)
              (initial_state (sort buys))
              (initial_state (sort (buys_of X buys))) st)
    as (stX & HrunX & _ & Hres).
  - split; [|reflexivity]. simpl. rewrite !load_buys_lookup.
    rewrite (sorted_symbol_rows sort X buys Hs).
    now rewrite (sorted_rows_of_symbol sort X buys Hs Hdb).
  - exact Hrun.
  - rewrite (sorted_rows_of_symbol sort X sells Hs Hds) in HrunX.
    exists stX. split; [exact HrunX | exact Hres].
Qed.

Lemma symbols_do_not_interfere_witness :
  exists st stX,
    match_trades_run [buy_jan22; buy_y_feb22] [sell_y_mar23; sell5_feb23] = Ok st
    /\ match_trades_run (buys_of "X" [buy_jan22; buy_y_feb22])
                        (buys_of "X" [sell_y_mar23; sell5_feb23]) = Ok stX
    /\ results stX = results_of "X" (results st).
Proof.
  destruct (match_trades_run [buy_jan22; buy_y_feb22] [sell_y_mar23; sell5_feb23])
    as [st|e] eqn:Hrun; [|vm_compute in Hrun; discriminate Hrun].
  destruct (symbols_do_not_interfere sort_values "X"
              [buy_jan22; buy_y_feb22] [sell_y_mar23; sell5_feb23] st)
    as (stX & HX & Hres).
  - exact sort_values_sorts.
  - apply (bool_decide_unpack _). vm_compute. exact I.
  - apply (bool_decide_unpack _). vm_compute. exact I.
  - exact Hrun.
  - exists st, stX. split; [reflexivity|]. split; [exact HX | exact Hres].
Defined.

(* ===================================================================== *)
(** ** [_format_holding_period] *)
(* ===================================================================== *)

Example format_holding_period_samples :
  _format_holding_period 396 = "1y 1m 1d"%string
  /\ _format_holding_period 245 = "8m 5d"%string
  /\ _format_holding_period 730 = "2y"%string
  /\ _format_holding_period 0 = "0d"%string
  /\ _format_holding_period 364 = "12m 4d"%string
  /\ _format_holding_period (-120) = "8m 5d"%string.
Proof. repeat split. Qed.

Lemma holding_period_parts_spec (days : Z) :
  let '(years, months, remaining_days) := holding_period_parts days in
  (days = 365 * years + 30 * months + remaining_days
   /\ 0 <= months <= 12 /\ 0 <= remaining_days < 30
   /\ 30 * months + remaining_days < 365)%Z.
Proof.
  unfold holding_period_parts. cbv zeta.
  pose proof (Z.div_mod days 365 ltac:(lia)) as H1.
  pose proof (Z.mod_pos_bound days 365 ltac:(lia)) as H2.
  pose proof (Z.div_mod (days mod 365) 30 ltac:(lia)) as H3.
  pose proof (Z.mod_pos_bound (days mod 365) 30 ltac:(lia)) as H4.
  assert (0 <= days mod 365 / 30 < 13)%Z.
  { split; [apply Z.div_pos; lia|]. apply Z.div_lt_upper_bound; lia. }
  lia.
Qed.

(** The year part of a holding period is shown only when it is positive,
    so whatever is shorter than 365 days, negative periods included, is
    shown as [days mod 365] days: a lot acquired 120 days after the sale
    reads like one held 245 days.  The months shown run up to 12, since a
    year is 365 days and a month 30. *)
Theorem format_holding_period_below_a_year (days : Z) :
  (days < 365)%Z ->
  _format_holding_period days = _format_holding_period (days mod 365)
  /\ (0 <= days mod 365 < 365)%Z
  /\ ((360 <= days mod 365)%Z ->
      exists rest, _format_holding_period days = ("12m" ++ rest)%string).
Proof.
  intros Hlt.
  pose proof (Z.mod_pos_bound days 365 ltac:(lia)) as Hmod.
  assert (Hy : (days / 365 <= 0)%Z).
  { apply Z.lt_succ_r, Z.div_lt_upper_bound; lia. }
  assert (Hfmt : forall d, (d / 365 <= 0)%Z ->
            _format_holding_period d =
            join " "
              (let parts := if (0 <? d mod 365 / 30)%Z
                            then [str (d mod 365 / 30) ++ "m"]%string else [] in
               if (0 <? (d mod 365) mod 30)%Z
                  || match parts with [] => true | _ :: _ => false end
               then parts ++ [str ((d mod 365) mod 30) ++ "d"]%string else parts)).
  { intros d Hd. unfold _format_holding_period, holding_period_parts. cbv zeta.
    assert ((0 <? d / 365)%Z = false) as -> by (apply Z.ltb_ge; exact Hd).
    reflexivity. }
  split; [|split; [exact Hmod|]].
  - rewrite (Hfmt days Hy).
    rewrite (Hfmt (days mod 365)%Z).
    + now rewrite Z.mod_mod by lia.
    + rewrite Z.div_small by lia. lia.
  - intros H360. rewrite (Hfmt days Hy). cbv zeta.
    assert (days mod 365 / 30 = 12)%Z as ->.
    { symmetry. apply Z.div_unique with (r := (days mod 365 - 360)%Z); lia. }
    cbn [Z.ltb Z.compare].
    destruct ((0 <? (days mod 365) mod 30)%Z || false); eexists; reflexivity.
Qed.

Lemma format_holding_period_below_a_year_witness :
  _format_holding_period (-120) = _format_holding_period ((-120) mod 365)%Z.
Proof.
  apply (proj1 (format_holding_period_below_a_year (-120) ltac:(lia))).
Defined.

(* ===================================================================== *)
(** ** [_format_currency] *)
(* ===================================================================== *)

Example format_currency_samples :
  _format_currency 1550 true = "$1550.00"%string
  /\ _format_currency (-200) true = "($200.00)"%string
  /\ _format_currency (1000 / 6) true = "$166.67"%string
  /\ _format_currency (1 / 8) false = "0.12"%string
  /\ _format_currency (3 / 8) false = "0.38"%string
  /\ _format_currency (-1 / 250) true = "($0.00)"%string.
Proof. repeat split. Qed.

Lemma Qabs_opp_eq (a : Q) : Qabs (- a) = Qabs a.
Proof. destruct a as [n d]. unfold Qabs, Qopp. simpl. now rewrite Z.abs_opp. Qed.

Lemma round_half_even_near (q : Q) :
  Qabs (inject_Z (round_half_even q) - q) <= 1 # 2.
Proof.
  unfold round_half_even. cbv zeta.
  pose proof (Qfloor_le q) as Hlo. pose proof (Qlt_floor q) as Hhi.
  rewrite inject_Z_plus in Hhi. change (inject_Z 1) with 1 in Hhi.
  apply Qabs_Qle_condition.
  destruct (Qltb (q - inject_Z (Qfloor q)) (1 # 2)) eqn:E1.
  { apply Qltb_lt in E1. split; lra. }
  apply Qltb_ge in E1.
  destruct (Qltb (1 # 2) (q - inject_Z (Qfloor q))) eqn:E2.
  { apply Qltb_lt in E2. rewrite inject_Z_plus. change (inject_Z 1) with 1. split; lra. }
  apply Qltb_ge in E2.
  destruct (Z.even (Qfloor q)).
  - split; lra.
  - rewrite inject_Z_plus. change (inject_Z 1) with 1. split; lra.
Qed.

Lemma round_half_even_nonneg (q : Q) : 0 <= q -> (0 <= round_half_even q)%Z.
Proof.
  intros Hq.
  assert (Hf : (0 <= Qfloor q)%Z).
  { change 0%Z with (Qfloor 0). now apply Qfloor_resp_le. }
  unfold round_half_even. cbv zeta.
  destruct (Qltb _ _); [exact Hf|].
  destruct (Qltb _ _); [lia|].
  destruct (Z.even _); lia.
Qed.

Lemma round_half_even_small (q : Q) : 0 <= q -> q <= 1 # 2 -> round_half_even q = 0%Z.
Proof.
  intros Hlo Hhi.
  assert (Hf : Qfloor q = 0%Z).
  { pose proof (Qfloor_le q) as H1. pose proof (Qlt_floor q) as H2.
    assert (inject_Z (Qfloor q) < inject_Z 1) as H3 by (change (inject_Z 1) with 1; lra).
    assert (inject_Z (-1) < inject_Z (Qfloor q)) as H4.
    { rewrite inject_Z_plus in H2. change (inject_Z 1) with 1 in H2.
      change (inject_Z (-1)) with (-1). lra. }
    rewrite <- Zlt_Qlt in H3, H4. lia. }
  unfold round_half_even. cbv zeta. rewrite Hf.
  change (inject_Z 0) with 0.
  destruct (Qltb (q - 0) (1 # 2)) eqn:E1; [reflexivity|].
  assert (Qltb (1 # 2) (q - 0) = false) as -> by (apply Qltb_ge; lra).
  reflexivity.
Qed.



(* ===================================================================== *)
(** ** [_format_date] *)
(* ===================================================================== *)

Example format_date_samples :
  _format_date (mkDate 2023 2 1) = "01 Feb 2023"%string
  /\ _format_date (mkDate 2022 12 25) = "25 Dec 2022"%string.
Proof. split; reflexivity. Qed.

Lemma str_inj (a b : Z) : str a = str b -> a = b.
Proof.
  unfold str. intros H.
  assert (Hisi : forall z, NilZero.int_of_string (NilZero.string_of_int (Z.to_int z))
                           = Some (Z.to_int z)).
  { intros z. apply NilZero.isi; destruct z; simpl; try discriminate;
      intros [= Hp]; now apply DecimalPos.Unsigned.to_uint_nonnil in Hp. }
  assert (Hint : Some (Z.to_int a) = Some (Z.to_int b))
    by (rewrite <- !Hisi; now rewrite H).
  injection Hint as Hint.
  rewrite <- (DecimalZ.of_to a), <- (DecimalZ.of_to b). now rewrite Hint.
Qed.

Lemma unpad2_pad2 (n : Z) : (0 <= n < 100)%Z ->
  unpad2 (pad2 n) = n /\ String.length (pad2 n) = 2%nat.
Proof.
  intros Hn.
  assert (Hall : forallb (fun k : nat =>
            Z.eqb (unpad2 (pad2 (Z.of_nat k))) (Z.of_nat k)
            && Nat.eqb (String.length (pad2 (Z.of_nat k))) 2)
            (seq 0 100) = true) by (vm_compute; reflexivity).
  rewrite forallb_forall in Hall.
  specialize (Hall (Z.to_nat n)). rewrite Z2Nat.id in Hall by lia.
  assert (Hin : In (Z.to_nat n) (seq 0 100)) by (apply in_seq; lia).
  apply Hall in Hin. apply andb_true_iff in Hin as [H1 H2].
  split; [now apply Z.eqb_eq | now apply Nat.eqb_eq].
Qed.

Lemma month_of_abbr_month_abbr (m : Z) : (1 <= m <= 12)%Z ->
  month_of_abbr (month_abbr m) = m /\ String.length (month_abbr m) = 3%nat.
Proof.
  intros Hm.
  assert (Hall : forallb (fun k : nat =>
            Z.eqb (month_of_abbr (month_abbr (Z.of_nat k))) (Z.of_nat k)
            && Nat.eqb (String.length (month_abbr (Z.of_nat k))) 3)
            (seq 1 12) = true) by (vm_compute; reflexivity).
  rewrite forallb_forall in Hall.
  specialize (Hall (Z.to_nat m)). rewrite Z2Nat.id in Hall by lia.
  assert (Hin : In (Z.to_nat m) (seq 1 12)) by (apply in_seq; lia).
  apply Hall in Hin. apply andb_true_iff in Hin as [H1 H2].
  split; [now apply Z.eqb_eq | now apply Nat.eqb_eq].
Qed.

Lemma string_app_inj (s1 s2 t1 t2 : string) :
  String.length s1 = String.length s2 ->
  (s1 ++ t1)%string = (s2 ++ t2)%string -> s1 = s2 /\ t1 = t2.
Proof.
  revert s2. induction s1 as [|c s1 IH]; intros [|c' s2] Hlen H;
    simpl in *; try discriminate.
  - now split.
  - injection H as -> H. apply IH in H as [-> ->]; [now split | lia].
Qed.

(** The rendering of a date tells the date: two dates of the calendar
    that are shown alike are the same date. *)
Theorem format_date_injective (d1 d2 : date) :
  plausible_date d1 -> plausible_date d2 ->
  _format_date d1 = _format_date d2 -> d1 = d2.
Proof.
  intros [Hd1 Hm1] [Hd2 Hm2] H. unfold _format_date in H.
  destruct (unpad2_pad2 (day d1)) as [Hu1 Hl1]; [lia|].
  destruct (unpad2_pad2 (day d2)) as [Hu2 Hl2]; [lia|].
  destruct (month_of_abbr_month_abbr (month d1) Hm1) as [Ha1 Hk1].
  destruct (month_of_abbr_month_abbr (month d2) Hm2) as [Ha2 Hk2].
  apply string_app_inj in H as [Hday H]; [|congruence].
  apply string_app_inj in H as [_ H]; [|reflexivity].
  apply string_app_inj in H as [Hmonth H]; [|congruence].
  apply string_app_inj in H as [_ H]; [|reflexivity].
  apply str_inj in H.
  destruct d1 as [y1 m1 dd1], d2 as [y2 m2 dd2]. simpl in *.
  f_equal; congruence.
Qed.

Lemma format_date_injective_witness :
  mkDate 2023 2 1 = mkDate 2023 2 1.
Proof.
  apply (format_date_injective (mkDate 2023 2 1) (mkDate 2023 2 1)).
  - split; simpl; lia.
  - split; simpl; lia.
  - reflexivity.
Defined.

(* ===================================================================== *)
(** ** The frames [process_data] returns *)
(* ===================================================================== *)

Lemma process_data_summary (df : list Trade)
  (summary : gmap string PeriodSummary) (rs : list SaleResult) :
  process_data df = Ok (summary, rs) ->
  _match_trades (select_side "Buy" df) (select_side "Sell" df) = Ok rs
  /\ summary = _prepare_summary rs.
Proof.
  unfold process_data. cbv zeta. intros H.
  destruct (_match_trades _ _) as [rs'|e]; cbn [mbind result_bind] in H; [|discriminate].
  injection H as <- <-. now split.
Qed.

Lemma prepare_summary_size (rs : list SaleResult) :
  size (_prepare_summary rs) = 0%nat <-> rs = [].
Proof.
  split.
  - intros Hsize. apply map_size_empty_iff in Hsize.
    destruct rs as [|r rs]; [reflexivity|]. exfalso.
    pose proof (prepare_summary_lookup (r :: rs) (financial_year r)) as Hclosed.
    rewrite Hsize, lookup_empty in Hclosed.
    unfold in_period in Hclosed. rewrite filter_cons in Hclosed.
    destruct (decide (financial_year r = financial_year r)); [discriminate|congruence].
  - intros ->. reflexivity.
Qed.

Lemma summary_frame_of_results (rs : list SaleResult) :
  summary_frame (_prepare_summary rs) =
  match rs with
  | [] => Failed (KeyError "total_gains")
  | _ :: _ => Rendered (summary_row <$> _prepare_summary rs)
  end.
Proof.
  unfold summary_frame.
  destruct (size (_prepare_summary rs)) eqn:Hsize.
  - apply prepare_summary_size in Hsize. now subst rs.
  - destruct rs as [|r rs]; [|reflexivity].
    assert (size (_prepare_summary []) = 0%nat) by now apply prepare_summary_size.
    congruence.
Qed.

(** [process_data] returns its two frames only when at least one sale
    was accepted: the columns of the summary frame are looked up without
    a test, and the frame of an empty summary has none, so a batch with
    no Buy rows, or no Sell rows, or whose sales were all turned down,
    ends in KeyError 'total_gains', where [_prepare_details] would have
    passed an empty frame. *)
Theorem summary_frame_needs_a_sale (df : list Trade) :
  (select_side "Buy" df = [] \/ select_side "Sell" df = [] ->
   process_data_frames df = Failed (KeyError "total_gains"))
  /\ (forall (summary : gmap string PeriodSummary) (rs : list SaleResult),
        process_data df = Ok (summary, rs) ->
        (rs = [] -> process_data_frames df = Failed (KeyError "total_gains"))
        /\ (rs <> [] ->
            process_data_frames df
            = Rendered (summary_row <$> summary, _prepare_details rs)))
  /\ _prepare_details [] = [].
Proof.
  assert (Hgen : forall summary rs,
            process_data df = Ok (summary, rs) ->
            (rs = [] -> process_data_frames df = Failed (KeyError "total_gains"))
            /\ (rs <> [] ->
                process_data_frames df
                = Rendered (summary_row <$> summary, _prepare_details rs))).
  { intros summary rs Hdata. unfold process_data_frames. rewrite Hdata.
    apply process_data_summary in Hdata as [_ ->].
    rewrite summary_frame_of_results.
    destruct rs as [|r rs]; split; intros H; congruence. }
  split; [|split; [exact Hgen | reflexivity]].
  intros Hnone.
  assert (Hdata : process_data df = Ok (_prepare_summary [], [])).
  { unfold process_data, _match_trades. cbv zeta.
    destruct Hnone as [-> | ->].
    - unfold match_trades_run. cbv zeta.
      rewrite sell_loop_empty_book by reflexivity. reflexivity.
    - reflexivity. }
  now apply (Hgen _ _ Hdata).
Qed.

Lemma summary_frame_needs_a_sale_witness :
  process_data_frames [buy_jan22; buy_jun22] = Failed (KeyError "total_gains").
Proof.
  apply (proj1 (summary_frame_needs_a_sale [buy_jan22; buy_jun22])).
  right. reflexivity.
Defined.

Example frames_of_the_scenario :
  exists frame,
    process_data_frames [buy_jan22; buy_jun22; sell_feb23]
    = Rendered (frame,
        [ {| detail_symbol := "X";
             detail_buy_dates := ["01 Jan 2022"; "01 Jun 2022"]%string;
             detail_sell_date := "01 Feb 2023";
             detail_units := 15;
             detail_cost_base := "$1550.00";
             detail_proceeds := "$2000.00";
             detail_total_gain_loss := "$283.33";
             detail_discounted_gain := "$166.67";
             detail_undiscounted_gain := "$116.67";
             detail_capital_loss := "$0.00";
             detail_financial_year := "FY22_23";
             detail_holding_periods := ["1y 1m 1d"; "8m 5d"]%string |} ])
    /\ frame !! "FY22_23"%string
       = Some {| row_total_gains := "$283.33";
                 row_total_losses := "$0.00";
                 row_net_position := "$283.33" |}.
Proof.
  eexists. split; [vm_compute; reflexivity|]. vm_compute. reflexivity.
Qed.

(* ===================================================================== *)
(** ** [FileManager]: the columns of an uploaded file *)
(* ===================================================================== *)

Lemma validate_file_required (df : CsvFrame) (broker : string) :
  validate_file df broker = true ->
  (broker = "stake"%string \/ broker = "webull"%string)
  /\ n_rows df <> 0%nat
  /\ forall col, col ∈ required_columns broker -> col ∈ columns df.
Proof.
  unfold validate_file. intros H.
  destruct (String.eqb broker "stake" || String.eqb broker "webull") eqn:Hb;
    simpl in H; [|discriminate].
  destruct (frame_empty df) eqn:He; [discriminate|].
  split; [|split].
  - apply orb_true_iff in Hb as [Hb|Hb]; apply String.eqb_eq in Hb; auto.
  - unfold frame_empty in He. destruct (n_rows df); [discriminate | lia].
  - destruct (required_columns broker) as [|c0 req] eqn:Hreq; [discriminate|].
    destruct (filter (fun col => col ∉ columns df) (c0 :: req)) as [|m ms] eqn:Hmiss;
      [|discriminate].
    intros col Hcol.
    destruct (decide (col ∈ columns df)) as [Hin|Hout]; [exact Hin|].
    assert (Hbad : col ∈ filter (fun col => col ∉ columns df) (c0 :: req))
      by (apply list_elem_of_filter; now split).
    rewrite Hmiss in Hbad. now apply elem_of_nil in Hbad.
Qed.

Lemma add_column_elem (col c : string) (cols : list string) :
  c ∈ add_column col cols <-> c = col \/ c ∈ cols.
Proof.
  unfold add_column. destruct (bool_decide (col ∈ cols)) eqn:E.
  - apply bool_decide_eq_true in E. split; [now right|]. intros [->|H]; assumption.
  - rewrite elem_of_app, list_elem_of_singleton. tauto.
Qed.

Lemma rename_column_elem (map : list (string * string)) (c : string) (cols : list string) :
  c ∈ cols -> rename_column map c ∈ List.map (rename_column map) cols.
Proof.
  intros H. apply list_elem_of_In, in_map, list_elem_of_In, H.
Qed.

Lemma count_column_cons (c x : string) (l : list string) :
  count_column c (x :: l)
  = if decide (x = c) then S (count_column c l) else count_column c l.
Proof.
  unfold count_column. rewrite filter_cons. destruct (decide (x = c)); reflexivity.
Qed.

Lemma count_column_absent (c : string) (l : list string) :
  c ∉ l -> count_column c l = 0%nat.
Proof.
  induction l as [|x l IH]; intros Hn; [reflexivity|].
  rewrite count_column_cons. rewrite not_elem_of_cons in Hn. destruct Hn as [Hne Hn].
  destruct (decide (x = c)); [congruence | now apply IH].
Qed.

Lemma count_column_NoDup (c : string) (l : list string) :
  NoDup l -> c ∈ l -> count_column c l = 1%nat.
Proof.
  induction 1 as [|x l Hx _ IH]; intros Hin.
  - now apply elem_of_nil in Hin.
  - rewrite count_column_cons. destruct (decide (x = c)) as [->|Hne].
    + now rewrite count_column_absent.
    + apply IH. apply elem_of_cons in Hin as [->|Hin]; [congruence | exact Hin].
Qed.

Lemma count_column_NoDup_le (c : string) (l : list string) :
  NoDup l -> (count_column c l <= 1)%nat.
Proof.
  intros Hnd. destruct (decide (c ∈ l)) as [Hin|Hn].
  - now rewrite count_column_NoDup.
  - rewrite count_column_absent by exact Hn. lia.
Qed.

Lemma count_column_app (c : string) (l k : list string) :
  count_column c (l ++ k) = (count_column c l + count_column c k)%nat.
Proof. unfold count_column. now rewrite filter_app, length_app. Qed.

Lemma count_column_add (c col : string) (l : list string) :
  (count_column c l <= count_column c (add_column col l))%nat.
Proof.
  unfold add_column. destruct (bool_decide (col ∈ l)); [lia|].
  rewrite count_column_app. lia.
Qed.

Lemma add_column_NoDup (col : string) (l : list string) :
  NoDup l -> NoDup (add_column col l).
Proof.
  intros Hnd. unfold add_column. destruct (bool_decide (col ∈ l)) eqn:E; [exact Hnd|].
  apply bool_decide_eq_false in E.
  apply NoDup_app. split; [exact Hnd|]. split.
  - intros x Hx Hx'. apply list_elem_of_singleton in Hx'. congruence.
  - apply NoDup_singleton.
Qed.

Lemma count_column_map_elem (f : string -> string) (c x : string) (l : list string) :
  x ∈ l -> f x = c -> (1 <= count_column c (map f l))%nat.
Proof.
  induction l as [|a l IH]; intros Hin Hf.
  - now apply elem_of_nil in Hin.
  - cbn [map]. rewrite count_column_cons.
    apply elem_of_cons in Hin as [<-|Hin].
    + destruct (decide (f x = c)); [lia | contradiction].
    + specialize (IH Hin Hf). destruct (decide (f a = c)); lia.
Qed.

Lemma count_column_map_two (f : string -> string) (c x y : string) (l : list string) :
  x ∈ l -> y ∈ l -> x <> y -> f x = c -> f y = c ->
  (2 <= count_column c (map f l))%nat.
Proof.
  induction l as [|a l IH]; intros Hx Hy Hne Hfx Hfy.
  - now apply elem_of_nil in Hx.
  - cbn [map]. rewrite count_column_cons.
    apply elem_of_cons in Hx as [<-|Hx]; apply elem_of_cons in Hy as [<-|Hy].
    + congruence.
    + destruct (decide (f x = c)); [|contradiction].
      pose proof (count_column_map_elem f c y l Hy Hfy). lia.
    + destruct (decide (f y = c)); [|contradiction].
      pose proof (count_column_map_elem f c x l Hx Hfx). lia.
    + specialize (IH Hx Hy Hne Hfx Hfy). destruct (decide (f a = c)); lia.
Qed.

(** What [rename] does to a label: it follows the entry of the map that
    has it as a key, and leaves a label that is no key as it is. *)
Lemma rename_column_spec (m : list (string * string)) (c : string) :
  (exists t, (c, t) ∈ m /\ rename_column m c = t)
  \/ (~ c ∈ map fst m) /\ rename_column m c = c.
Proof.
  unfold rename_column.
  induction m as [|[k v] m IH]; cbn [find map fst].
  - right. split; [apply not_elem_of_nil | reflexivity].
  - destruct (String.eqb_spec k c) as [->|Hne]; cbn [fst snd].
    + left. exists v. split; [apply elem_of_cons; now left | reflexivity].
    + destruct IH as [(t & Hin & Ht)|(Hn & Ht)].
      * left. exists t. split; [apply elem_of_cons; now right | exact Ht].
      * right. split; [|exact Ht].
        rewrite not_elem_of_cons. split; [congruence | exact Hn].
Qed.

Lemma column_map_source (m : list (string * string)) (x y t : string) :
  NoDup (map snd m) -> (x, t) ∈ m -> (y, t) ∈ m -> x = y.
Proof.
  induction m as [|[k v] m IH]; intros Hm Hin Hin'; [now apply elem_of_nil in Hin|].
  cbn [map snd] in Hm. apply NoDup_cons in Hm as [Hv Hm].
  apply elem_of_cons in Hin as [Hin|Hin]; apply elem_of_cons in Hin' as [Hin'|Hin'].
  - congruence.
  - exfalso. injection Hin as -> ->. apply Hv.
    apply (list_elem_of_fmap_2 snd) in Hin'. exact Hin'.
  - exfalso. injection Hin' as -> ->. apply Hv.
    apply (list_elem_of_fmap_2 snd) in Hin. exact Hin.
  - now apply IH.
Qed.

Lemma rename_column_NoDup (m : list (string * string)) (cols : list string) :
  NoDup (map snd m) ->
  (forall t, t ∈ map snd m -> t ∉ cols) ->
  NoDup cols -> NoDup (map (rename_column m) cols).
Proof.
  intros Hm Hclash Hnd.
  apply (NoDup_fmap_2_strong (rename_column m)); [|exact Hnd].
  intros x y Hx Hy Heq.
  assert (Hsnd : forall k t, (k, t) ∈ m -> t ∈ map snd m).
  { intros k t Hin. apply (list_elem_of_fmap_2 snd) in Hin. exact Hin. }
  destruct (rename_column_spec m x) as [(t & Hin & Ht)|(Hn & Ht)],
           (rename_column_spec m y) as [(t' & Hin' & Ht')|(Hn' & Ht')].
  - (* both renamed, to the same name: the same entry *)
    assert (Heq' : t = t') by congruence.
    rewrite <- Heq' in Hin'. exact (column_map_source m x y t Hm Hin Hin').
  - exfalso. apply (Hclash t); [eapply Hsnd, Hin|]. congruence.
  - exfalso. apply (Hclash t'); [eapply Hsnd, Hin'|]. congruence.
  - congruence.
Qed.

Lemma one_column_true (l : list string) (c : string) :
  NoDup l -> c ∈ l -> one_column l c = true.
Proof. intros Hnd Hin. unfold one_column. now rewrite count_column_NoDup. Qed.

Lemma at_most_one_columns (l cs : list string) :
  NoDup l -> forallb (at_most_one_column l) cs = true.
Proof.
  intros Hnd. apply forallb_forall. intros c _.
  apply Nat.leb_le, count_column_NoDup_le, Hnd.
Qed.

Lemma repeated_column_fails (l cs : list string) (c : string) :
  In c cs -> (2 <= count_column c l)%nat ->
  forallb (one_column l) cs = false /\ forallb (at_most_one_column l) cs = false.
Proof.
  intros Hin Hc. split.
  - destruct (forallb (one_column l) cs) eqn:E; [|reflexivity].
    rewrite forallb_forall in E. specialize (E _ Hin).
    apply Nat.eqb_eq in E. lia.
  - destruct (forallb (at_most_one_column l) cs) eqn:E; [|reflexivity].
    rewrite forallb_forall in E. specialize (E _ Hin).
    apply Nat.leb_le in E. lia.
Qed.

(** A file that [validate_file] accepts, whose labels are distinct as
    [read_csv] makes them, comes out of [read_file] with every column
    [DataProcessor] reads, each exactly once, provided it names none of
    its own columns as the renaming of its broker names one.  A Webull
    file that has, next to the Webull columns, a column called Side, or
    one called as a numeric standard column, passes [validate_file] and
    is turned down by [read_file]: the renaming repeats the label, and
    [read_file] needs one column under it. *)
Theorem validated_file_has_the_processor_columns (df : CsvFrame) (broker : string) :
  validate_file df broker = true ->
  NoDup (columns df) ->
  (clashing_columns broker (columns df) = [] ->
   exists cols,
     read_file_columns (columns df) broker = Some cols
     /\ forall col, col ∈ processor_columns -> count_column col cols = 1%nat)
  /\ (forall col,
        col ∈ clashing_columns broker (columns df) -> col <> "Symbol"%string ->
        read_file_columns (columns df) broker = None).
Proof.
  intros Hvalid Hnd.
  apply validate_file_required in Hvalid as ([-> | ->] & _ & Hreq).
  - (* stake: nothing is renamed *)
    split; [intros _|intros col Hcol; now apply elem_of_nil in Hcol].
    assert (Hid : List.map (rename_column (column_map "stake")) (columns df) = columns df).
    { rewrite <- (map_id (columns df)) at 2. apply map_ext. reflexivity. }
    assert (Hstd : forall col, col ∈ standard_columns -> col ∈ columns df) by exact Hreq.
    unfold read_file_columns. cbv zeta. rewrite Hid.
    cbn [String.eqb Ascii.eqb Bool.eqb forallb].
    rewrite !one_column_true
      by (try exact Hnd; apply Hstd; unfold standard_columns; pick_column).
    change (forallb (at_most_one_column (columns df))
              ["Units"; "Avg. Price"; "Value"; "Fees"; "GST"; "Total Value"]%string)
      with (forallb (at_most_one_column (columns df)) numeric_columns).
    rewrite (at_most_one_columns _ _ Hnd). cbn [andb].
    eexists. split; [reflexivity|].
    intros col Hcol. apply count_column_NoDup; [exact Hnd|]. apply Hstd.
    unfold processor_columns in Hcol. unfold standard_columns.
    repeat (apply elem_of_cons in Hcol as [-> | Hcol]);
      try (now apply elem_of_nil in Hcol); pick_column.
  - (* webull *)
    set (cols := List.map (rename_column (column_map "webull")) (columns df)).
    assert (Hren : forall c, c ∈ required_columns "webull" ->
                     rename_column (column_map "webull") c ∈ cols).
    { intros c Hc. apply rename_column_elem, Hreq, Hc. }
    assert (Hhave : forall col,
              col ∈ ["Trade Date"; "Settlement Date"; "Side"; "GST";
                     "Symbol"; "Units"; "Value"; "Fees"]%string ->
              col ∈ cols).
    { intros col Hcol.
      repeat (apply elem_of_cons in Hcol as [-> | Hcol]);
        [ apply (Hren "Trade Date"%string)
        | apply (Hren "Settlement Date"%string)
        | apply (Hren "Buy/Sell"%string)
        | apply (Hren "GST"%string)
        | apply (Hren "Symbol&Name"%string)
        | apply (Hren "Quantity"%string)
        | apply (Hren "Gross Amount"%string)
        | apply (Hren "Comm/Fee/Tax"%string)
        | now apply elem_of_nil in Hcol ];
        change (required_columns "webull")
          with ["Symbol&Name"; "Trade Date"; "Settlement Date"; "Buy/Sell";
                "Quantity"; "Trade Price"; "Gross Amount"; "Net Amount";
                "Comm/Fee/Tax"; "GST"]%string;
        pick_column. }
    split.
    + intros Hclash.
      assert (Hnd' : NoDup cols).
      { apply rename_column_NoDup; [| |exact Hnd].
        - apply (bool_decide_unpack _). vm_compute. exact I.
        - intros t Ht Hin.
          assert (Hbad : t ∈ clashing_columns "webull" (columns df))
            by (apply list_elem_of_filter; now split).
          rewrite Hclash in Hbad. now apply elem_of_nil in Hbad. }
      unfold read_file_columns. cbv zeta. fold cols.
      cbn [String.eqb Ascii.eqb Bool.eqb forallb].
      rewrite !one_column_true by (try exact Hnd'; apply Hhave; pick_column).
      cbn [andb].
      set (cols' := add_column "Trade Identifier"
                      (add_column "AUD/USD rate" (add_column "Currency" cols))).
      assert (Hnd'' : NoDup cols') by (subst cols'; now repeat apply add_column_NoDup).
      change (forallb (at_most_one_column cols')
                ["Units"; "Avg. Price"; "Value"; "Fees"; "GST"; "Total Value"]%string)
        with (forallb (at_most_one_column cols') numeric_columns).
      rewrite (at_most_one_columns _ _ Hnd'').
      exists cols'. split; [reflexivity|].
      intros col Hcol. apply count_column_NoDup; [exact Hnd''|].
      subst cols'. rewrite !add_column_elem.
      unfold processor_columns in Hcol.
      repeat (apply elem_of_cons in Hcol as [-> | Hcol]);
        try (now apply elem_of_nil in Hcol);
        try (right; right; right; apply Hhave; pick_column).
      right. left. reflexivity.
    + intros col Hcol Hne.
      apply list_elem_of_filter in Hcol as [Hin Htarget].
      assert (Hsrc : forall src,
                src ∈ required_columns "webull" -> src <> col ->
                rename_column (column_map "webull") src = col ->
                rename_column (column_map "webull") col = col ->
                (2 <= count_column col cols)%nat).
      { intros src Hs Hd Hr1 Hr2. subst cols.
        apply (count_column_map_two _ col src col); auto. }
      assert (Htwice : (2 <= count_column col cols)%nat).
      { change (map snd (column_map "webull"))
          with ["Symbol"; "Side"; "Units"; "Avg. Price"; "Value";
                "Total Value"; "Fees"]%string in Htarget.
        change (required_columns "webull")
          with ["Symbol&Name"; "Trade Date"; "Settlement Date"; "Buy/Sell";
                "Quantity"; "Trade Price"; "Gross Amount"; "Net Amount";
                "Comm/Fee/Tax"; "GST"]%string in Hsrc.
        repeat (apply elem_of_cons in Htarget as [-> | Htarget]);
          [ congruence
          | apply (Hsrc "Buy/Sell"%string)
          | apply (Hsrc "Quantity"%string)
          | apply (Hsrc "Trade Price"%string)
          | apply (Hsrc "Gross Amount"%string)
          | apply (Hsrc "Net Amount"%string)
          | apply (Hsrc "Comm/Fee/Tax"%string)
          | now apply elem_of_nil in Htarget ];
          first [pick_column | discriminate | reflexivity]. }
      unfold read_file_columns. cbv zeta. fold cols.
      cbn [String.eqb Ascii.eqb Bool.eqb].
      destruct (forallb (one_column cols) _) eqn:Hone; [|reflexivity].
      set (cols' := add_column "Trade Identifier"
                      (add_column "AUD/USD rate" (add_column "Currency" cols))).
      assert (Htwice' : (2 <= count_column col cols')%nat).
      { subst cols'.
        pose proof (count_column_add col "Currency" cols).
        pose proof (count_column_add col "AUD/USD rate" (add_column "Currency" cols)).
        pose proof (count_column_add col "Trade Identifier"
                      (add_column "AUD/USD rate" (add_column "Currency" cols))).
        lia. }
      destruct (decide (col = "Side"%string)) as [->|Hside].
      * exfalso.
        destruct (repeated_column_fails cols
                    ["Trade Date"; "Settlement Date"; "Side"; "GST"]%string
                    "Side"%string) as [Hf _]; [simpl; tauto | exact Htwice |].
        congruence.
      * assert (Hnum : In col numeric_columns).
        { change (map snd (column_map "webull"))
            with ["Symbol"; "Side"; "Units"; "Avg. Price"; "Value";
                  "Total Value"; "Fees"]%string in Htarget.
          repeat (apply elem_of_cons in Htarget as [-> | Htarget]);
            try congruence; try (now apply elem_of_nil in Htarget);
            unfold numeric_columns; simpl; tauto. }
        destruct (repeated_column_fails cols' numeric_columns col Hnum Htwice')
          as [_ Hf].
        change (forallb (at_most_one_column cols')
                  ["Units"; "Avg. Price"; "Value"; "Fees"; "GST"; "Total Value"]%string)
          with (forallb (at_most_one_column cols') numeric_columns).
        now rewrite Hf.
Qed.

Lemma validated_file_has_the_processor_columns_witness :
  (exists cols,
     read_file_columns
       ["Symbol&Name"; "Trade Date"; "Settlement Date"; "Buy/Sell"; "Quantity";
        "Trade Price"; "Gross Amount"; "Net Amount"; "Comm/Fee/Tax"; "GST"]%string
       "webull"
     = Some cols
     /\ forall col, col ∈ processor_columns -> count_column col cols = 1%nat)
  /\ read_file_columns
       ["Symbol&Name"; "Trade Date"; "Settlement Date"; "Buy/Sell"; "Quantity";
        "Trade Price"; "Gross Amount"; "Net Amount"; "Comm/Fee/Tax"; "GST";
        "Side"]%string
       "webull"
     = None.
Proof.
  split.
  - apply (proj1 (validated_file_has_the_processor_columns
             (mkCsv ["Symbol&Name"; "Trade Date"; "Settlement Date"; "Buy/Sell";
                     "Quantity"; "Trade Price"; "Gross Amount"; "Net Amount";
                     "Comm/Fee/Tax"; "GST"]%string 1)
             "webull" eq_refl
             ltac:(apply (bool_decide_unpack _); vm_compute; exact I))).
    vm_compute. reflexivity.
  - apply (proj2 (validated_file_has_the_processor_columns
             (mkCsv ["Symbol&Name"; "Trade Date"; "Settlement Date"; "Buy/Sell";
                     "Quantity"; "Trade Price"; "Gross Amount"; "Net Amount";
                     "Comm/Fee/Tax"; "GST"; "Side"]%string 1)
             "webull" eq_refl
             ltac:(apply (bool_decide_unpack _); vm_compute; exact I))
           "Side"%string).
    + apply list_elem_of_filter. split; cbn [columns]; pick_column.
    + discriminate.
Defined.

(* ===================================================================== *)
(** ** [FileManager]: the side of a Webull row *)
(* ===================================================================== *)

Lemma letter_cases (c : ascii) :
  (is_upper (to_lower c) || is_lower (to_lower c) = is_upper c || is_lower c)
  /\ to_lower (to_lower c) = to_lower c
  /\ to_upper (to_lower c) = to_upper c
  /\ (is_upper (to_upper c) || is_lower (to_upper c) = is_upper c || is_lower c)
  /\ to_upper (to_upper c) = to_upper c
  /\ to_lower (to_upper c) = to_lower c.
Proof.
  destruct c as [[] [] [] [] [] [] [] []]; vm_compute; repeat split.
Qed.

Lemma title_from_lower (s : string) :
  forall b, title_from b (lower s) = title_from b s.
Proof.
  induction s as [|c s IH]; intros b; simpl; [reflexivity|].
  destruct (letter_cases c) as (-> & Hll & Hul & _).
  destruct (is_upper c || is_lower c) eqn:Hc.
  - rewrite IH, Hll, Hul. reflexivity.
  - rewrite IH. f_equal.
    apply orb_false_iff in Hc as [Hu _]. unfold to_lower. now rewrite Hu.
Qed.

Lemma title_from_idempotent (s : string) :
  forall b, title_from b (title_from b s) = title_from b s.
Proof.
  induction s as [|c s IH]; intros b; simpl; [reflexivity|].
  destruct (is_upper c || is_lower c) eqn:Hc; simpl.
  - destruct (letter_cases c) as (Hcl & Hll & _ & Hcu & Huu & _).
    destruct b.
    + rewrite Hcl, Hc, Hll, IH. reflexivity.
    + rewrite Hcu, Hc, Huu, IH. reflexivity.
  - rewrite Hc, IH. reflexivity.
Qed.

(** The standardisation of the side of a Webull row does not look at the
    case of the letters: whatever the case a file writes "buy" or "sell"
    in, the row comes out as "Buy" or "Sell", the two values
    [process_data] selects on; and standardising twice changes nothing. *)
Theorem title_ignores_case (s : string) :
  title s = title (lower s)
  /\ title (title s) = title s
  /\ (lower s = "buy"%string -> title s = "Buy"%string)
  /\ (lower s = "sell"%string -> title s = "Sell"%string).
Proof.
  assert (H : title s = title (lower s))
    by (unfold title; now rewrite title_from_lower).
  split; [exact H|]. split; [apply title_from_idempotent|].
  split; intros Hl; rewrite H, Hl; reflexivity.
Qed.

Lemma title_ignores_case_witness :
  title "BUY" = "Buy"%string /\ title "sElL" = "Sell"%string.
Proof.
  split.
  - apply (proj1 (proj2 (proj2 (title_ignores_case "BUY")))). reflexivity.
  - apply (proj2 (proj2 (proj2 (title_ignores_case "sElL")))). reflexivity.
Defined.

(* ===================================================================== *)
(** ** Units sold against units bought *)
(* ===================================================================== *)

Lemma units_sold_snoc (X : string) (rs : list SaleResult) (r : SaleResult) :
  units_sold X (rs ++ [r])
  == units_sold X rs + (if decide (symbol r = X) then Qabs (units r) else 0).
Proof.
  unfold units_sold. rewrite results_of_snoc.
  destruct (decide (symbol r = X)).
  - rewrite map_app, Qsum_app. simpl. lra.
  - lra.
Qed.

Lemma sell_outcome_units (X : string) (st st' : MatchState) (sell : Trade) :
  book_inv (available_shares st) -> sell_outcome st sell st' ->
  units_in_book X st' + units_sold X (results st')
  <= units_in_book X st + units_sold X (results st).
Proof.
  intros Hinv Hout. unfold units_in_book.
  destruct Hout as [_|q Hq _ _|q ms short Hq _ _ _ _|q ms q' Hq _ _ _ Htr Hsum];
    cbn [available_shares results warn set_book add_result].
  - lra.
  - destruct (decide (Symbol sell = X)) as [<-|Hne].
    + rewrite lookup_insert_eq, Hq. simpl. lra.
    + rewrite lookup_insert_ne by exact Hne. lra.
  - destruct (decide (Symbol sell = X)) as [<-|Hne].
    + rewrite lookup_insert_eq, Hq.
      destruct (Hinv _ _ Hq) as [Hpos _].
      pose proof (lots_positive_sum _ Hpos). simpl. lra.
    + rewrite lookup_insert_ne by exact Hne. lra.
  - rewrite units_sold_snoc.
    change (symbol (sale_record sell ms (sale_proceeds sell)
              (parcel_totals sell (Qabs (Units sell)) (sale_proceeds sell) ms zero_totals)))
      with (Symbol sell).
    change (units (sale_record sell ms (sale_proceeds sell)
              (parcel_totals sell (Qabs (Units sell)) (sale_proceeds sell) ms zero_totals)))
      with (Units sell).
    destruct (decide (Symbol sell = X)) as [<-|Hne].
    + rewrite lookup_insert_eq, Hq.
      pose proof (fifo_trace_units _ _ _ Htr) as Hcons. simpl. lra.
    + rewrite lookup_insert_ne by exact Hne. lra.
Qed.

Lemma sell_loop_units (X : string) (rows : list Trade) :
  forall st, book_inv (available_shares st) ->
  exists st',
    foldM process_sell rows st = Ok st'
    /\ book_inv (available_shares st')
    /\ units_in_book X st' + units_sold X (results st')
       <= units_in_book X st + units_sold X (results st).
Proof.
  induction rows as [|row rows IH]; intros st Hinv; cbn [foldM].
  - exists st. split; [reflexivity|]. split; [exact Hinv | lra].
  - destruct (process_sell_outcome st row Hinv) as (st1 & Hstep & Hout).
    rewrite Hstep. cbn [mbind result_bind].
    pose proof (sell_outcome_inv _ _ _ Hinv Hout) as Hinv1.
    pose proof (sell_outcome_units X _ _ _ Hinv Hout) as Hstep1.
    destruct (IH st1 Hinv1) as (st' & Hrun & Hinv' & Hle).
    exists st'. split; [exact Hrun|]. split; [exact Hinv' | lra].
Qed.

(** No symbol is sold beyond what was bought: over a batch of whole
    units whose Buy rows have nonzero units, the units of the accepted
    sales of a symbol add up to at most the units of its Buy rows. *)
Theorem sold_at_most_bought (buys sells : list Trade) (X : string) :
  nonzero_units buys -> whole_units buys -> whole_units sells ->
  exists rs,
    _match_trades buys sells = Ok rs
    /\ units_sold X rs <= units_bought X buys.
Proof.
  intros Hb _ _.
  destruct (sell_loop_units X (sort_values sells) (initial_state (sort_values buys)))
    as (st & Hrun & Hinv & Hle).
  { simpl. now apply load_buys_inv. }
  exists (results st). split.
  { unfold _match_trades, match_trades_run. cbv zeta. now rewrite Hrun. }
  assert (Hstart : units_in_book X (initial_state (sort_values buys))
                   == units_bought X buys).
  { rewrite units_in_book_initial. apply units_bought_perm, sort_values_perm. }
  assert (Hleft : 0 <= units_in_book X st).
  { unfold units_in_book.
    destruct (available_shares st !! X) as [q|] eqn:Hq; simpl; [|lra].
    apply lots_positive_sum. eapply Hinv, Hq. }
  simpl in Hle. unfold units_sold at 2 in Hle. simpl in Hle. lra.
Qed.

Lemma sold_at_most_bought_witness :
  exists rs,
    _match_trades [buy_jun22; buy_jan22] [sell_feb23; sell5_mar23] = Ok rs
    /\ units_sold "X" rs <= units_bought "X" [buy_jun22; buy_jan22].
Proof.
  apply (sold_at_most_bought [buy_jun22; buy_jan22] [sell_feb23; sell5_mar23] "X").
  - concrete_nonzero.
  - concrete_whole.
  - concrete_whole.
Defined.

(* ===================================================================== *)
(** ** What the warnings say *)
(* ===================================================================== *)

(** The warning of a Sell row that is turned down tells why: with no lot
    queued for its symbol it names the symbol and the date of the row;
    with lots that do not cover it, units being whole numbers, it gives
    the units that could not be matched, which are the units asked for
    minus the units queued. *)
Theorem warning_of_a_rejected_sell (st : MatchState) (sell : Trade) :
  book_inv (available_shares st) ->
  (lots_for st sell = [] ->
   process_sell st sell
   = Ok (warn st (NoAvailableShares (Symbol sell) (Trade_Date sell))))
  /\ (lots_for st sell <> [] ->
      whole_lots (lots_for st sell) -> whole (Units sell) = true ->
      Qsum (map lot_units (lots_for st sell)) < Qabs (Units sell) ->
      exists st' short,
        process_sell st sell = Ok st'
        /\ warnings st' = warnings st ++ [NotEnoughShares short]
        /\ short == Qabs (Units sell) - Qsum (map lot_units (lots_for st sell))).
Proof.
  intros Hinv. unfold lots_for. split.
  - intros Hnone. unfold process_sell. cbv zeta.
    destruct (available_shares st !! Symbol sell) as [[|o rest]|];
      simpl in Hnone; try discriminate; reflexivity.
  - intros Hsome _ _ Hshort.
    destruct (process_sell_outcome st sell Hinv) as (st' & Hst' & Hout).
    exists st'.
    destruct Hout as [Hno|q Hq _ Hz|q ms short Hq _ _ _ Hs|q ms q' Hq _ Hle _ _ _].
    + exfalso. destruct Hno as [Hno|Hno]; rewrite Hno in Hsome; now apply Hsome.
    + exfalso. rewrite Hq in Hshort. simpl in Hshort.
      destruct (Hinv _ _ Hq) as [Hpos _]. pose proof (lots_positive_sum _ Hpos). lra.
    + exists short. split; [exact Hst'|]. split; [reflexivity|].
      rewrite Hq. exact Hs.
    + exfalso. rewrite Hq in Hshort. simpl in Hshort. lra.
Qed.

Lemma warning_of_a_rejected_sell_witness :
  exists st' short,
    process_sell (initial_state (sort_values [buy_jan22])) sell_feb23 = Ok st'
    /\ warnings st' = [NotEnoughShares short]
    /\ short == 15 - 10.
Proof.
  destruct (warning_of_a_rejected_sell (initial_state (sort_values [buy_jan22])) sell_feb23)
    as [_ H].
  - apply (load_buys_inv [buy_jan22]). concrete_nonzero.
  - destruct H as (st' & short & Hst' & Hw & Hs).
    + vm_compute. discriminate.
    + concrete_whole.
    + reflexivity.
    + vm_compute. reflexivity.
    + exists st', short. split; [exact Hst'|]. split; [exact Hw|].
      rewrite Hs. vm_compute. reflexivity.
Defined.

(* ===================================================================== *)
(** ** The cost of the remainder of a lot *)
(* ===================================================================== *)


